(** * Potential-flow singularity evaluators ([aero_functions.py])

    A shallow embedding of the NumPy formula library: the scalar
    arithmetic the formulas are written in, NumPy's two-dimensional arrays
    with broadcasting, the grid generator, the free evaluator functions and
    the [Source] / [Vortex] classes, followed by the properties of the
    specification.

    The evaluators are written once, over an abstract scalar type, and are
    then read at two instances: the real numbers (the analytic reading of
    the formulas) and binary64 floating-point numbers (what NumPy
    computes with, where division by zero yields an infinity or a NaN). *)

From Stdlib Require Import ZArith Reals Lra Floats.
From stdpp Require Import base list option.

Set Default Proof Using "Type".

(** ** Scalars *)

(** The operations the formulas use on one number.  [s_of_Z] is Python's
    conversion of an [int] literal or index to a float. *)
Class Scalar (F : Type) := {
  s_of_Z : Z → F;
  s_add : F → F → F;
  s_sub : F → F → F;
  s_mul : F → F → F;
  s_div : F → F → F;
  s_neg : F → F;
  s_eqb : F → F → bool;
  s_pi : F;
  s_sqrt : F → F;
  s_log : F → F;
  s_sin : F → F;
  s_cos : F → F;
  s_sinh : F → F;
  s_cosh : F → F;
  s_arctan2 : F → F → F;
}.

Declare Scope sc_scope.
Delimit Scope sc_scope with sc.
Notation "x + y" := (s_add x y) : sc_scope.
Notation "x - y" := (s_sub x y) : sc_scope.
Notation "x * y" := (s_mul x y) : sc_scope.
Notation "x / y" := (s_div x y) : sc_scope.
Notation "- x" := (s_neg x) : sc_scope.
Notation "'π'" := s_pi : sc_scope.
Notation "0" := (s_of_Z 0) : sc_scope.
Notation "1" := (s_of_Z 1) : sc_scope.
Notation "2" := (s_of_Z 2) : sc_scope.
Notation "4" := (s_of_Z 4) : sc_scope.

(** [x ** 2] on floats: NumPy evaluates a power by the integer 2 as the
    square [x * x]. *)
Definition s_sq `{Scalar F} (x : F) : F := (x * x)%sc.
Notation "x ²" := (s_sq x) (at level 1, format "x ²") : sc_scope.

(** ** NumPy arrays *)

Section ndarray.
Context {F : Type}.

(** A two-dimensional array: its rows, and the length every row has
    (kept apart so that an array with no rows still has a shape). *)
Record ndarray := NDArray { ncols : nat; rows : list (list F) }.

Definition nrows (A : ndarray) : nat := length (rows A).
Definition shape (A : ndarray) : nat * nat := (nrows A, ncols A).
Definition wf (A : ndarray) : Prop :=
  Forall (λ r, length r = ncols A) (rows A).

(** [A[i, j]] for indices inside the array. *)
Definition item (A : ndarray) (i j : nat) : option F :=
  rows A !! i ≫= (.!! j).

(** A ufunc applied to every element. *)
Definition amap (f : F → F) (A : ndarray) : ndarray :=
  NDArray (ncols A) (map (map f) (rows A)).

(** Broadcasting of one axis: equal lengths, or one of them is 1. *)
Definition bcast_dim (m n : nat) : option nat :=
  if decide (m = n) then Some m
  else if decide (m = 1) then Some n
  else if decide (n = 1) then Some m
  else None.

(** An axis of length 1 is repeated to the broadcast length. *)
Definition stretch {A : Type} (n : nat) (l : list A) : list A :=
  match l with
  | [x] => replicate n x
  | _ => l
  end.

(** A binary ufunc on two arrays; [None] is NumPy's [ValueError]
    ("operands could not be broadcast together"). *)
Definition abin (f : F → F → F) (A B : ndarray) : option ndarray :=
  r ← bcast_dim (nrows A) (nrows B);
  c ← bcast_dim (ncols A) (ncols B);
  Some (NDArray c
          (zip_with (λ ra rb, zip_with f (stretch c ra) (stretch c rb))
                    (stretch r (rows A)) (stretch r (rows B)))).

(** What a Python name holds in these functions: a float or an array.
    Two floats are combined in NumPy's arithmetic, as [numpy.float64]
    scalars are: a division by zero gives an infinity or a NaN, and
    [x ** 2] is [x * x].  Python's own [float] raises
    [ZeroDivisionError] there instead; the scalar sub-expressions of the
    evaluators on a grid, [strength/(2*numpy.pi)] and the like, never
    divide by zero, and the spacing of the vortex row is a NumPy
    scalar. *)
Inductive value := Sc (x : F) | Arr (A : ndarray).

Definition vun (f : F → F) (a : value) : value :=
  match a with
  | Sc x => Sc (f x)
  | Arr A => Arr (amap f A)
  end.

Definition vbin (f : F → F → F) (a b : value) : option value :=
  match a, b with
  | Sc x, Sc y => Some (Sc (f x y))
  | Sc x, Arr B => Some (Arr (amap (f x) B))
  | Arr A, Sc y => Some (Arr (amap (λ x, f x y) A))
  | Arr A, Arr B => Arr <$> abin f A B
  end.

(** Expressions: [None] once a sub-expression has raised. *)
Definition np_un (f : F → F) (a : option value) : option value :=
  vun f <$> a.
Definition np_bin (f : F → F → F) (a b : option value) : option value :=
  x ← a; y ← b; vbin f x y.

(** [numpy.ones((n, m))], [numpy.zeros((n, m))]. *)
Definition full (n m : nat) (x : F) : value :=
  Arr (NDArray m (replicate n (replicate m x))).

(** [numpy.meshgrid(x, y)] with the default ['xy'] indexing. *)
Definition meshgrid (x y : list F) : value * value :=
  (Arr (NDArray (length x) (replicate (length y) x)),
   Arr (NDArray (length x) ((λ yi, replicate (length x) yi) <$> y))).
End ndarray.

Arguments ndarray : clear implicits.
Arguments value : clear implicits.

Definition ret {F} (v : value F) : option (value F) := Some v.
Coercion ret : value >-> option.

Declare Scope np_scope.
Delimit Scope np_scope with np.
Notation "x + y" := (np_bin s_add x y) : np_scope.
Notation "x - y" := (np_bin s_sub x y) : np_scope.
Notation "x * y" := (np_bin s_mul x y) : np_scope.
Notation "x / y" := (np_bin s_div x y) : np_scope.
Notation "- x" := (np_un s_neg x) : np_scope.
Notation "x '**2'" := (np_un s_sq x) (at level 1, format "x '**2'") : np_scope.
Notation "2" := (ret (Sc (s_of_Z 2))) : np_scope.
Notation "4" := (ret (Sc (s_of_Z 4))) : np_scope.

(** [x = e] followed by the rest of the function body. *)
Definition np_let {F B : Type} (e : option (value F))
    (k : value F → option B) : option B :=
  e ≫= k.
Notation "x ← e ; k" := (np_let e (λ x, k))
  (at level 20, e at level 100, k at level 200, only parsing) : np_scope.

(** [a[i]] on a one-dimensional array; [None] is [IndexError]. *)
Definition getitem {F : Type} (a : list F) (i : nat) : option (value F) :=
  Sc <$> a !! i.

Module numpy.
Section numpy.
Context {F : Type} `{Scalar F}.

Definition pi : option (value F) := ret (Sc s_pi).
Definition sqrt := np_un s_sqrt.
Definition log := np_un s_log.
Definition sin := np_un s_sin.
Definition cos := np_un s_cos.
Definition sinh := np_un s_sinh.
Definition cosh := np_un s_cosh.
Definition arctan2 := np_bin s_arctan2.
Definition ones (n m : nat) : option (value F) := ret (full n m (s_of_Z 1)).
Definition zeros (n m : nat) : option (value F) := ret (full n m (s_of_Z 0)).

(** [numpy.linspace(start, stop, num)] (endpoint included): the indices
    [arange(0, num)] scaled by the step and shifted, the last sample set
    to [stop] itself.  When the step rounds to zero the samples are
    divided first and multiplied by the whole interval afterwards. *)
Definition linspace (start stop : F) (num : nat) : list F :=
  let div := (num - 1)%nat in
  let delta := (stop - start)%sc in
  let y := (λ j : nat, s_of_Z (Z.of_nat j)) <$> seq 0 num in
  let y :=
    if decide (0 < div)%nat then
      let step := (delta / s_of_Z (Z.of_nat div))%sc in
      if s_eqb step (s_of_Z 0)
      then (λ yj, yj / s_of_Z (Z.of_nat div) * delta)%sc <$> y
      else (λ yj, yj * step)%sc <$> y
    else (λ yj, yj * delta)%sc <$> y in
  let y := (λ yj, yj + start)%sc <$> y in
  if decide (1 < num)%nat then <[(num - 1)%nat := stop]> y else y.
End numpy.
End numpy.

(** ** The module [aero_functions] *)

(** A method call on an object either returns or raises; in both cases the
    object is left in some state (an assignment that was reached stays
    made). *)
Inductive outcome (S : Type) := Returned (s : S) | Raised (s : S).
Arguments Returned {S} s.
Arguments Raised {S} s.

(** [self.attr = e]: evaluate [e]; store it and go on, or raise. *)
Definition assign {S V : Type} (e : option V) (set : V → S → S)
    (self : S) (k : S → outcome S) : outcome S :=
  match e with
  | Some a => k (set a self)
  | None => Raised self
  end.

(** The next call is made only if the previous one returned. *)
Definition and_then {S : Type} (o : outcome S) (m : S → outcome S) : outcome S :=
  match o with
  | Returned s => m s
  | Raised s => Raised s
  end.

(** Unary plus. *)
Definition pos {F} (a : option (value F)) : option (value F) := a.

(** The object as the call leaves it, returned or raised. *)
Definition state {S : Type} (o : outcome S) : S :=
  match o with
  | Returned s | Raised s => s
  end.

Module Source.
Section Source.
Context {F : Type} `{Scalar F}.
Local Open Scope np_scope.

(** The attributes of an instance; [u], [v] and [psi] do not exist
    before the method that assigns them has run. *)
Record t := mk {
  strength : value F;
  x : value F;
  y : value F;
  u : option (value F);
  v : option (value F);
  psi : option (value F);
}.

Definition init (strength x y : value F) : t :=
  mk strength x y None None None.

Definition set_u (a : value F) (self : t) : t :=
  mk (strength self) (x self) (y self) (Some a) (v self) (psi self).
Definition set_v (a : value F) (self : t) : t :=
  mk (strength self) (x self) (y self) (u self) (Some a) (psi self).
Definition set_psi (a : value F) (self : t) : t :=
  mk (strength self) (x self) (y self) (u self) (v self) (Some a).

Definition velocity (self : t) (X Y : value F) : outcome t :=
  assign (strength self / (2 * numpy.pi) * (X - x self)
            / ((X - x self)**2 + (Y - y self)**2)) set_u self (λ self,
  assign (strength self / (2 * numpy.pi) * (Y - y self)
            / ((X - x self)**2 + (Y - y self)**2)) set_v self Returned).

Definition stream_function (self : t) (X Y : value F) : outcome t :=
  assign (strength self / (2 * numpy.pi)
            * numpy.arctan2 (Y - y self) (X - x self)) set_psi self Returned.
End Source.
End Source.

Module Vortex.
Section Vortex.
Context {F : Type} `{Scalar F}.
Local Open Scope np_scope.

Record t := mk {
  strength : value F;
  x : value F;
  y : value F;
  u : option (value F);
  v : option (value F);
  psi : option (value F);
}.

Definition init (strength x y : value F) : t :=
  mk strength x y None None None.

Definition set_u (a : value F) (self : t) : t :=
  mk (strength self) (x self) (y self) (Some a) (v self) (psi self).
Definition set_v (a : value F) (self : t) : t :=
  mk (strength self) (x self) (y self) (u self) (Some a) (psi self).
Definition set_psi (a : value F) (self : t) : t :=
  mk (strength self) (x self) (y self) (u self) (v self) (Some a).

Definition velocity (self : t) (X Y : value F) : outcome t :=
  assign (pos (strength self) / (2 * numpy.pi) * (Y - y self)
            / ((X - x self)**2 + (Y - y self)**2)) set_u self (λ self,
  assign (- strength self / (2 * numpy.pi) * (X - x self)
            / ((X - x self)**2 + (Y - y self)**2)) set_v self Returned).

Definition stream_function (self : t) (X Y : value F) : outcome t :=
  assign (- strength self / (4 * numpy.pi)
            * numpy.log ((X - x self)**2 + (Y - y self)**2)) set_psi self Returned.
End Vortex.
End Vortex.

Section aero_functions.
Context {F : Type} `{Scalar F}.
Local Open Scope np_scope.

Definition create_grid (N : nat) (x_start x_end y_start y_end : F)
    : value F * value F :=
  let x := numpy.linspace x_start x_end N in
  let y := numpy.linspace y_start y_end N in
  let '(X, Y) := meshgrid x y in
  (X, Y).

Definition get_freestream_info (u_inf alpha X Y : value F) (N : nat)
    : option (value F * value F * value F) :=
  u ← u_inf * numpy.cos alpha * numpy.ones N N;
  v ← u_inf * numpy.sin alpha * numpy.zeros N N;
  psi ← u_inf * (Y * numpy.cos alpha - X * numpy.sin alpha);
  Some (u, v, psi).

Definition get_vortex_info (strength xv yv X Y : value F)
    : option (value F * value F * value F) :=
  u ← pos strength / (2 * numpy.pi) * (Y - yv) / ((X - xv)**2 + (Y - yv)**2);
  v ← - strength / (2 * numpy.pi) * (X - xv) / ((X - xv)**2 + (Y - yv)**2);
  psi ← strength / (4 * numpy.pi)
          * numpy.log (numpy.sqrt ((X - xv)**2 + (Y - yv)**2));
  Some (u, v, psi).

(** [x_vortices] is a one-dimensional array; indexing it past its end
    raises [IndexError]. *)
Definition get_velocity_infinite_vortices (gamma X Y : value F)
    (x_vortices : list F) : option (value F * value F) :=
  a ← getitem x_vortices 1 - getitem x_vortices 0;
  c ← 2 * numpy.pi / a;
  u ← pos (gamma / (2 * a))
        * (numpy.sinh (c * Y) / (numpy.cosh (c * Y) - numpy.cos (c * X)));
  v ← - (gamma / (2 * a))
        * (numpy.sin (c * X) / (numpy.cosh (c * Y) - numpy.cos (c * X)));
  Some (u, v).

Definition get_ss_info (strength xs ys X Y : value F)
    : option (value F * value F * value F) :=
  u ← strength / (2 * numpy.pi) * (X - xs) / ((X - xs)**2 + (Y - ys)**2);
  v ← strength / (2 * numpy.pi) * (Y - ys) / ((X - xs)**2 + (Y - ys)**2);
  psi ← strength / (2 * numpy.pi) * numpy.arctan2 (Y - ys) (X - xs);
  Some (u, v, psi).

Definition get_doublet_info (strength xd yd X Y : value F)
    : option (value F * value F * value F) :=
  u ← - strength / (2 * numpy.pi) * ((X - xd)**2 - (Y - yd)**2)
        / ((X - xd)**2 + (Y - yd)**2)**2;
  v ← - strength / (2 * numpy.pi) * 2 * (X - xd) * (Y - yd)
        / ((X - xd)**2 + (Y - yd)**2)**2;
  psi ← - strength / (2 * numpy.pi) * (Y - yd) / ((X - xd)**2 + (Y - yd)**2);
  Some (u, v, psi).

Definition get_freestream_cylindrical_info (u_inf R Theta : value F)
    : option (value F * value F * value F) :=
  vr ← u_inf * numpy.cos Theta;
  vtheta ← - u_inf * numpy.sin Theta;
  psi ← u_inf * R * numpy.sin Theta;
  Some (vr, vtheta, psi).

Definition get_doublet_cylindrical_info (strength R Theta : value F)
    : option (value F * value F * value F) :=
  vr ← - (strength * numpy.cos Theta / (2 * numpy.pi * R**2));
  vtheta ← - (strength * numpy.sin Theta / (2 * numpy.pi * R**2));
  psi ← - strength * numpy.sin Theta / (2 * numpy.pi * R);
  Some (vr, vtheta, psi).
End aero_functions.

(** ** The two scalar instances *)

(** *** Real numbers *)

Definition Ratan2 (y x : R) : R :=
  if Rlt_dec 0 x then atan (y / x)
  else if Rlt_dec x 0 then
    (if Rle_dec 0 y then atan (y / x) + PI else atan (y / x) - PI)
  else if Rlt_dec 0 y then PI / 2
  else if Rlt_dec y 0 then - PI / 2
  else 0.

#[export] Instance R_scalar : Scalar R := {|
  s_of_Z := IZR;
  s_add := Rplus;
  s_sub := Rminus;
  s_mul := Rmult;
  s_div := Rdiv;
  s_neg := Ropp;
  s_eqb := λ a b, if Req_dec_T a b then true else false;
  s_pi := PI;
  s_sqrt := R_sqrt.sqrt;
  s_log := ln;
  s_sin := Rtrigo_def.sin;
  s_cos := Rtrigo_def.cos;
  s_sinh := Rtrigo_def.sinh;
  s_cosh := Rtrigo_def.cosh;
  s_arctan2 := Ratan2;
|}.

(** *** Binary64 floating-point numbers *)

(** The elementary functions NumPy takes from the C library. *)
Record Libm := {
  libm_log : float → float;
  libm_sin : float → float;
  libm_cos : float → float;
  libm_sinh : float → float;
  libm_cosh : float → float;
  libm_atan2 : float → float → float;
}.

(** [math.pi], the binary64 number nearest to π. *)
Definition float_pi : float := 0x1.921fb54442d18p+1%float.

(** A Python [int] (below 2^63 in magnitude) as a float. *)
Definition float_of_Z (z : Z) : float :=
  match z with
  | Z0 => 0%float
  | Zpos _ => PrimFloat.of_uint63 (Uint63.of_Z z)
  | Zneg p => (- PrimFloat.of_uint63 (Uint63.of_Z (Zpos p)))%float
  end.

Definition float_scalar (M : Libm) : Scalar float := {|
  s_of_Z := float_of_Z;
  s_add := PrimFloat.add;
  s_sub := PrimFloat.sub;
  s_mul := PrimFloat.mul;
  s_div := PrimFloat.div;
  s_neg := PrimFloat.opp;
  s_eqb := PrimFloat.eqb;
  s_pi := float_pi;
  s_sqrt := PrimFloat.sqrt;
  s_log := libm_log M;
  s_sin := libm_sin M;
  s_cos := libm_cos M;
  s_sinh := libm_sinh M;
  s_cosh := libm_cosh M;
  s_arctan2 := libm_atan2 M;
|}.

(** Neither an infinity nor a NaN. *)
Definition float_finite (x : float) : bool :=
  match Prim2SF x with
  | S754_zero _ | S754_finite _ _ _ => true
  | _ => false
  end.

(** An infinity of either sign, or a NaN. *)
Definition inf_or_nan (x : float) : bool := is_nan x || is_infinity x.

(** A zero of either sign, or a NaN: what a product by zero can be. *)
Definition zero_or_nan (x : float) : Prop :=
  x = nan ∨ x = 0%float ∨ x = (-0)%float.

(** The C library at the arguments where the C standard (Annex F) fixes
    the result exactly: [log(±0) = −∞], [log(1) = +0], [sin(±0) = ±0],
    [cos(±0) = 1], [sinh(±0) = ±0], [cosh(±0) = 1], and
    [atan2(±0, x) = ±0] for [x] a positive number or [+0].  At any other
    argument this stand-in answers NaN; it serves to run the evaluators
    where no other value of these functions is needed. *)
Definition libm_special_values : Libm := {|
  libm_log := λ x,
    if (x =? 0)%float then neg_infinity
    else if (x =? 1)%float then 0%float else nan;
  libm_sin := λ x, if (x =? 0)%float then x else nan;
  libm_cos := λ x, if (x =? 0)%float then 1%float else nan;
  libm_sinh := λ x, if (x =? 0)%float then x else nan;
  libm_cosh := λ x, if (x =? 0)%float then 1%float else nan;
  libm_atan2 := λ y x,
    if ((y =? 0) && (0 <? 1 / x))%float then y else nan;
|}.

(** ** A sample grid *)

(** The grid of the four points [(0,0)], [(1,0)], [(0,1)], [(1,1)]. *)
Definition X2 : ndarray R := NDArray 2 [[0; 1]; [0; 1]]%R.
Definition Y2 : ndarray R := NDArray 2 [[0; 0]; [1; 1]]%R.

(** ** Expressions over a grid, read point by point *)

(** [on_grid r c X Y g e]: the expression [e] evaluates without raising to
    an array of shape [(r, c)] whose element at every grid point is
    [g x y], where [x] and [y] are the elements of [X] and [Y] there. *)
Definition on_grid {F : Type} (r c : nat) (X Y : ndarray F)
    (g : F → F → F) (e : option (value F)) : Prop :=
  ∃ A, e = Some (Arr A) ∧ wf A ∧ shape A = (r, c) ∧
    ∀ i j x y, item X i j = Some x → item Y i j = Some y →
      item A i j = Some (g x y).

(** ** The samples of [linspace] *)

(** Sample [j] of [linspace(a, b, N)] for [N > 1], as NumPy computes it:
    the index times the step, plus the start; the index over [N − 1]
    times the interval, plus the start, when the step is zero; and the
    end value itself for the last sample. *)
Definition linspace_sample `{Scalar F} (a b : F) (N j : nat) : F :=
  if decide (j = N - 1)%nat then b
  else
    let step := ((b - a) / s_of_Z (Z.of_nat (N - 1)))%sc in
    if s_eqb step (s_of_Z 0)
    then (s_of_Z (Z.of_nat j) / s_of_Z (Z.of_nat (N - 1)) * (b - a) + a)%sc
    else (s_of_Z (Z.of_nat j) * step + a)%sc.

(** ** Shapes of expressions *)

(** NumPy's broadcast of two shapes. *)
Definition bcast_shape (s1 s2 : nat * nat) : option (nat * nat) :=
  r ← bcast_dim s1.1 s2.1; c ← bcast_dim s1.2 s2.2; Some (r, c).

(** [shaped sh e]: the expression [e] evaluates without raising to an
    array of shape [sh]. *)
Definition shaped {F : Type} (sh : nat * nat) (e : option (value F)) : Prop :=
  ∃ A, e = Some (Arr A) ∧ shape A = sh.

(** ** The evaluators at one point *)

(** The three numbers an evaluator returns at one point [(x, y)], and
    the three attributes of a [Vortex] after both methods were called
    there, the coordinates being real numbers.  On scalar arguments the
    evaluators return three scalars, so the second branch is never
    taken. *)
Definition at_point
    (f : value R → value R → value R → value R → value R
         → option (value R * value R * value R))
    (s x0 y0 x y : R) : R * R * R :=
  match f (Sc s) (Sc x0) (Sc y0) (Sc x) (Sc y) with
  | Some (Sc u, Sc v, Sc psi) => (u, v, psi)
  | _ => (0, 0, 0)%R
  end.

Definition Vortex_at_point (s x0 y0 x y : R) : R * R * R :=
  match state (and_then (Vortex.velocity (Vortex.init (Sc s) (Sc x0) (Sc y0))
                                         (Sc x) (Sc y))
                        (λ self, Vortex.stream_function self (Sc x) (Sc y))) with
  | Vortex.mk _ _ _ (Some (Sc u)) (Some (Sc v)) (Some (Sc psi)) => (u, v, psi)
  | _ => (0, 0, 0)%R
  end.

(** ** A sample polar grid *)

(** A sample polar grid: the radii [1] and [2] at the angles [0] and [1]. *)
Definition Rad2 : ndarray R := NDArray 2 [[1; 2]; [1; 2]]%R.
Definition Theta2 : ndarray R := NDArray 2 [[0; 0]; [1; 1]]%R.

(** * Properties *)

(** ** Arrays: shapes and elements *)

Section ndarray_facts.
Context {F : Type}.
Implicit Types (A B : ndarray F) (f : F → F) (g : F → F → F).

Lemma stretch_same {T : Type} (n : nat) (l : list T) :
  length l = n → stretch n l = l.
Proof. destruct l as [|a [|b l]]; intros <-; reflexivity. Qed.

Lemma stretch_one {T : Type} (n : nat) (a : T) :
  stretch n [a] = replicate n a.
Proof. reflexivity. Qed.

Lemma bcast_dim_same (n : nat) : bcast_dim n n = Some n.
Proof. unfold bcast_dim. by rewrite decide_True. Qed.

Lemma length_stretch {T : Type} (m n r : nat) (l : list T) :
  length l = m → bcast_dim m n = Some r → length (stretch r l) = r.
Proof.
  unfold bcast_dim. intros Hl Hb.
  repeat case_decide; simplify_eq.
  - by rewrite stretch_same.
  - destruct l as [|a [|b l]]; [done| |done].
    by rewrite stretch_one, length_replicate.
  - by rewrite stretch_same.
Qed.

Lemma bcast_dim_sym (m n : nat) : bcast_dim m n = bcast_dim n m.
Proof. unfold bcast_dim. repeat case_decide; congruence. Qed.

Lemma item_Some A i j a :
  item A i j = Some a ↔ ∃ r, rows A !! i = Some r ∧ r !! j = Some a.
Proof. unfold item. by rewrite bind_Some. Qed.

Lemma item_lt A i j :
  wf A → i < nrows A → j < ncols A → is_Some (item A i j).
Proof.
  intros Hwf Hi Hj. unfold item, nrows in *.
  destruct (lookup_lt_is_Some_2 (rows A) i Hi) as [r Hr].
  rewrite Hr. simpl. apply lookup_lt_is_Some_2.
  by rewrite (Forall_lookup_1 _ _ _ _ Hwf Hr).
Qed.

Lemma item_inv A i j a :
  wf A → item A i j = Some a → i < nrows A ∧ j < ncols A.
Proof.
  intros Hwf (r & Hr & Ha)%item_Some. split.
  - by eapply lookup_lt_Some.
  - rewrite <-(Forall_lookup_1 _ _ _ _ Hwf Hr). by eapply lookup_lt_Some.
Qed.

(** *** Unary ufuncs *)

Lemma shape_amap f A : shape (amap f A) = shape A.
Proof. unfold shape, nrows. simpl. by rewrite length_map. Qed.

Lemma wf_amap f A : wf A → wf (amap f A).
Proof.
  unfold wf. simpl. intros Hwf. apply Forall_fmap.
  revert Hwf. apply Forall_impl. intros r Hr. simpl. by rewrite length_map.
Qed.

Lemma item_amap f A i j : item (amap f A) i j = f <$> item A i j.
Proof.
  unfold item. simpl. change (map (map f) (rows A)) with (map f <$> rows A).
  rewrite list_lookup_fmap. destruct (rows A !! i) as [r|]; [|done].
  simpl. apply list_lookup_fmap.
Qed.

(** *** Binary ufuncs *)

(** Whenever the two shapes broadcast, the result has the broadcast
    shape. *)
Lemma abin_shape g A B r c :
  bcast_dim (nrows A) (nrows B) = Some r →
  bcast_dim (ncols A) (ncols B) = Some c →
  ∃ C, abin g A B = Some C ∧ shape C = (r, c).
Proof.
  intros Hr Hc. unfold abin. rewrite Hr, Hc. simpl.
  eexists; split; [reflexivity|]. unfold shape, nrows. simpl.
  rewrite length_zip_with.
  rewrite (length_stretch (length (rows A)) (length (rows B))) by done.
  rewrite bcast_dim_sym in Hr.
  rewrite (length_stretch (length (rows B)) (length (rows A))) by done.
  by rewrite Nat.min_id.
Qed.

Lemma abin_None g A B :
  bcast_dim (nrows A) (nrows B) = None ∨ bcast_dim (ncols A) (ncols B) = None →
  abin g A B = None.
Proof.
  unfold abin. intros [-> | Hc]; [done|].
  rewrite Hc. by destruct (bcast_dim (nrows A) (nrows B)).
Qed.

(** On two arrays of one shape the ufunc acts element by element. *)
Lemma abin_same g A B :
  wf A → wf B → shape A = shape B →
  ∃ C, abin g A B = Some C ∧ wf C ∧ shape C = shape A ∧
    ∀ i j a b, item A i j = Some a → item B i j = Some b →
      item C i j = Some (g a b).
Proof.
  intros HA HB [= Hr Hc]. unfold abin.
  rewrite Hr, Hc, !bcast_dim_same. simpl.
  rewrite (stretch_same _ (rows A)) by done.
  rewrite (stretch_same _ (rows B)) by done.
  eexists; split; [reflexivity|]. split; [|split].
  - unfold wf in *. simpl. apply Forall_lookup. intros i r.
    rewrite lookup_zip_with_Some. intros (ra & rb & -> & Hra & Hrb).
    rewrite length_zip_with.
    rewrite !stretch_same.
    + rewrite (Forall_lookup_1 _ _ _ _ HA Hra), (Forall_lookup_1 _ _ _ _ HB Hrb).
      lia.
    + by rewrite (Forall_lookup_1 _ _ _ _ HB Hrb).
    + by rewrite (Forall_lookup_1 _ _ _ _ HA Hra).
  - unfold shape, nrows. simpl. rewrite length_zip_with.
    unfold nrows in Hr. rewrite Hr, Hc. f_equal. lia.
  - intros i j a b (ra & Hra & Ha)%item_Some (rb & Hrb & Hb)%item_Some.
    apply item_Some. simpl.
    exists (zip_with g ra rb). split.
    + apply lookup_zip_with_Some. exists ra, rb. split; [|done].
      rewrite !stretch_same; [done| |].
      * by rewrite (Forall_lookup_1 _ _ _ _ HB Hrb).
      * by rewrite (Forall_lookup_1 _ _ _ _ HA Hra).
    + apply lookup_zip_with_Some. by exists a, b.
Qed.

(** *** Constant arrays and grids *)

Lemma full_facts (n m : nat) (x : F) :
  ∃ C, full n m x = Arr C ∧ wf C ∧ shape C = (n, m) ∧
    ∀ i j, i < n → j < m → item C i j = Some x.
Proof.
  eexists; split; [reflexivity|]. split; [|split].
  - apply Forall_replicate. simpl. apply length_replicate.
  - unfold shape, nrows. simpl. by rewrite length_replicate.
  - intros i j Hi Hj. unfold item. simpl.
    rewrite lookup_replicate_2 by done. simpl. by apply lookup_replicate_2.
Qed.

Lemma meshgrid_facts (x y : list F) :
  ∃ X Y, meshgrid x y = (Arr X, Arr Y) ∧
    wf X ∧ wf Y ∧ shape X = (length y, length x) ∧ shape Y = (length y, length x) ∧
    ∀ i j, i < length y → j < length x →
      item X i j = x !! j ∧ item Y i j = y !! i.
Proof.
  do 2 eexists. split; [reflexivity|]. repeat split.
  - by apply Forall_replicate.
  - apply Forall_fmap, Forall_true. intros yi. simpl. apply length_replicate.
  - unfold shape, nrows. simpl. by rewrite length_replicate.
  - unfold shape, nrows. simpl. by rewrite length_fmap.
  - unfold item. simpl. by rewrite lookup_replicate_2.
  - unfold item. simpl. rewrite list_lookup_fmap.
    destruct (lookup_lt_is_Some_2 y i) as [yi ->]; [done|]. simpl.
    by rewrite lookup_replicate_2.
Qed.
End ndarray_facts.

(** ** Expressions over a grid: the operators, one by one *)

Section on_grid.
Context {F : Type}.
Variables (r c : nat) (X Y : ndarray F).
Hypotheses (wfX : wf X) (wfY : wf Y).
Hypotheses (shX : shape X = (r, c)) (shY : shape Y = (r, c)).

Lemma on_grid_X : on_grid r c X Y (λ x _, x) (ret (Arr X)).
Proof using wfX shX.
  exists X. split; [reflexivity|]. split; [exact wfX|]. split; [exact shX|].
  intros i j x y Hx _. exact Hx.
Qed.

Lemma on_grid_Y : on_grid r c X Y (λ _ y, y) (ret (Arr Y)).
Proof using wfY shY.
  exists Y. split; [reflexivity|]. split; [exact wfY|]. split; [exact shY|].
  intros i j x y _ Hy. exact Hy.
Qed.

Lemma on_grid_full (a : F) : on_grid r c X Y (λ _ _, a) (ret (full r c a)).
Proof using wfX shX.
  destruct (full_facts r c a) as (C & -> & HC & HsC & Hitem).
  exists C. split; [reflexivity|]. split; [exact HC|]. split; [exact HsC|].
  intros i j x y Hx _.
  apply item_inv in Hx as [Hi Hj]; [|exact wfX].
  assert (nrows X = r ∧ ncols X = c) as [Hr Hc] by (by injection shX).
  apply Hitem; congruence.
Qed.

Lemma on_grid_un (f : F → F) g e :
  on_grid r c X Y g e → on_grid r c X Y (λ x y, f (g x y)) (np_un f e).
Proof.
  intros (A & -> & HA & Hs & Hitem). exists (amap f A).
  split; [done|]. split; [by apply wf_amap|]. split; [by rewrite shape_amap|].
  intros i j x y Hx Hy. by rewrite item_amap, (Hitem i j x y).
Qed.

Lemma on_grid_sc_l (f : F → F → F) (a : F) g e :
  on_grid r c X Y g e → on_grid r c X Y (λ x y, f a (g x y)) (np_bin f (Some (Sc a)) e).
Proof.
  intros (A & -> & HA & Hs & Hitem). exists (amap (f a) A).
  split; [done|]. split; [by apply wf_amap|]. split; [by rewrite shape_amap|].
  intros i j x y Hx Hy. by rewrite item_amap, (Hitem i j x y).
Qed.

Lemma on_grid_sc_r (f : F → F → F) (b : F) g e :
  on_grid r c X Y g e → on_grid r c X Y (λ x y, f (g x y) b) (np_bin f e (Some (Sc b))).
Proof.
  intros (A & -> & HA & Hs & Hitem). exists (amap (λ a, f a b) A).
  split; [done|]. split; [by apply wf_amap|]. split; [by rewrite shape_amap|].
  intros i j x y Hx Hy. by rewrite item_amap, (Hitem i j x y).
Qed.

Lemma on_grid_bin (f : F → F → F) g1 g2 e1 e2 :
  on_grid r c X Y g1 e1 → on_grid r c X Y g2 e2 →
  on_grid r c X Y (λ x y, f (g1 x y) (g2 x y)) (np_bin f e1 e2).
Proof.
  intros (A & -> & HA & HsA & HitA) (B & -> & HB & HsB & HitB).
  destruct (abin_same f A B) as (C & HC & HwfC & HsC & HitC);
    [done..|congruence|].
  exists C. simpl. rewrite HC. split; [done|]. split; [done|].
  split; [congruence|]. intros i j x y Hx Hy.
  apply HitC; [by apply HitA|by apply HitB].
Qed.

Lemma on_grid_ext g g' e :
  (∀ x y, g x y = g' x y) → on_grid r c X Y g e → on_grid r c X Y g' e.
Proof.
  intros Hg (A & -> & HA & Hs & Hitem). exists A. repeat split; [done..|].
  intros i j x y Hx Hy. rewrite <-Hg. by apply Hitem.
Qed.
End on_grid.

(** Scalar sub-expressions evaluate by computation; the rest of an
    expression is taken apart operator by operator. *)
Ltac on_grid_step :=
  first
    [ eapply on_grid_X; eassumption
    | eapply on_grid_Y; eassumption
    | eapply on_grid_full; eassumption
    | eapply on_grid_un
    | eapply on_grid_sc_l
    | eapply on_grid_sc_r
    | eapply on_grid_bin ].
Ltac on_grid :=
  eapply on_grid_ext; [ | repeat on_grid_step ]; [ intros; reflexivity ].

(** ** The object wrappers against the free functions *)

Ltac Source_fields :=
  cbn [mbind option_bind and_then Source.init Source.set_u Source.set_v
       Source.set_psi Source.strength Source.x Source.y Source.u Source.v
       Source.psi] in *.
Ltac Vortex_fields :=
  cbn [mbind option_bind and_then Vortex.init Vortex.set_u Vortex.set_v
       Vortex.set_psi Vortex.strength Vortex.x Vortex.y Vortex.u Vortex.v
       Vortex.psi] in *.

Section wrappers.
Context {F : Type} `{Scalar F}.

(** Calling [velocity] and then [stream_function] on a fresh [Source]
    returns exactly when [get_ss_info] returns, and then the three
    attributes hold the triple [get_ss_info] returns.  This holds for
    arguments of any kind, scalars and arrays of any shapes. *)
Lemma Source_refines_get_ss_info (strength xs ys X Y : value F) :
  match get_ss_info strength xs ys X Y with
  | Some (u, v, psi) =>
      and_then (Source.velocity (Source.init strength xs ys) X Y)
               (λ self, Source.stream_function self X Y)
      = Returned (Source.mk strength xs ys (Some u) (Some v) (Some psi))
  | None =>
      ∃ self, and_then (Source.velocity (Source.init strength xs ys) X Y)
                       (λ self, Source.stream_function self X Y)
              = Raised self
  end.
Proof.
  unfold get_ss_info, Source.velocity, Source.stream_function, np_let, assign.
  Source_fields.
  set (eu := (_ * (X - xs) / _)%np). set (ev := (_ * (Y - ys) / _)%np).
  clearbody eu ev.
  destruct eu as [u|]; Source_fields; [|eexists; reflexivity].
  destruct ev as [v|]; Source_fields; [|eexists; reflexivity].
  set (ep := (_ * numpy.arctan2 _ _)%np). clearbody ep.
  destruct ep as [psi|]; Source_fields; [reflexivity|eexists; reflexivity].
Qed.

(** The same for the velocity components of [Vortex] and
    [get_vortex_info]. *)
Lemma Vortex_velocity_refines_get_vortex_info (strength xv yv X Y : value F) u v psi :
  get_vortex_info strength xv yv X Y = Some (u, v, psi) →
  Vortex.velocity (Vortex.init strength xv yv) X Y
  = Returned (Vortex.mk strength xv yv (Some u) (Some v) None).
Proof.
  unfold get_vortex_info, Vortex.velocity, np_let, assign.
  Vortex_fields.
  set (eu := (_ * (Y - yv) / _)%np). set (ev := (_ * (X - xv) / _)%np).
  set (ep := (_ * numpy.log _)%np). clearbody eu ev ep.
  destruct eu as [u'|]; Vortex_fields; [|done].
  destruct ev as [v'|]; Vortex_fields; [|done].
  destruct ep as [psi'|]; Vortex_fields; [|done].
  by intros [= -> -> ->].
Qed.
End wrappers.

(** ** The formulas of the evaluators, on a grid *)

Section formulas.
Context {F : Type} `{Scalar F}.
Variables (r c : nat) (X Y : ndarray F).
Hypotheses (wfX : wf X) (wfY : wf Y).
Hypotheses (shX : shape X = (r, c)) (shY : shape Y = (r, c)).

Lemma np_let_ret {B : Type} (v : value F) (k : value F → option B) :
  np_let (ret v) k = k v.
Proof. reflexivity. Qed.

(** A body [u = ...; v = ...; psi = ...; return u, v, psi] whose three
    expressions are read point by point. *)
Lemma body3_on_grid gu gv gp (eu ev ep : option (value F)) :
  on_grid r c X Y gu eu → on_grid r c X Y gv ev → on_grid r c X Y gp ep →
  ∃ U V P : ndarray F,
    np_let eu (λ u, np_let ev (λ v, np_let ep (λ psi, Some (u, v, psi))))
    = Some (Arr U, Arr V, Arr P) ∧
    (shape U = (r, c) ∧ shape V = (r, c) ∧ shape P = (r, c)) ∧
    ∀ i j x y, item X i j = Some x → item Y i j = Some y →
      item U i j = Some (gu x y) ∧ item V i j = Some (gv x y) ∧
      item P i j = Some (gp x y).
Proof.
  intros (U & -> & _ & HsU & HU) (V & -> & _ & HsV & HV) (P & -> & _ & HsP & HP).
  exists U, V, P. split; [reflexivity|]. split; [done|].
  intros i j x y Hx Hy. auto.
Qed.

Lemma body2_on_grid gu gv (eu ev : option (value F)) :
  on_grid r c X Y gu eu → on_grid r c X Y gv ev →
  ∃ U V : ndarray F,
    np_let eu (λ u, np_let ev (λ v, Some (u, v))) = Some (Arr U, Arr V) ∧
    (shape U = (r, c) ∧ shape V = (r, c)) ∧
    ∀ i j x y, item X i j = Some x → item Y i j = Some y →
      item U i j = Some (gu x y) ∧ item V i j = Some (gv x y).
Proof.
  intros (U & -> & _ & HsU & HU) (V & -> & _ & HsV & HV).
  exists U, V. split; [reflexivity|]. split; [done|].
  intros i j x y Hx Hy. auto.
Qed.

(** The three arrays of [get_ss_info] on a grid, element by element. *)
Lemma get_ss_info_on_grid (Λ xs ys : F) :
  ∃ U V P : ndarray F,
    get_ss_info (Sc Λ) (Sc xs) (Sc ys) (Arr X) (Arr Y)
    = Some (Arr U, Arr V, Arr P) ∧
    (shape U = (r, c) ∧ shape V = (r, c) ∧ shape P = (r, c)) ∧
    ∀ i j x y, item X i j = Some x → item Y i j = Some y →
      item U i j = Some (Λ / (2 * π) * (x - xs) / ((x - xs)² + (y - ys)²))%sc ∧
      item V i j = Some (Λ / (2 * π) * (y - ys) / ((x - xs)² + (y - ys)²))%sc ∧
      item P i j = Some (Λ / (2 * π) * s_arctan2 (y - ys) (x - xs))%sc.
Proof using wfX wfY shX shY.
  unfold get_ss_info.
  lazymatch goal with
  | |- context [np_let ?eu (λ u, np_let ?ev (λ v, np_let ?ep _))] =>
      apply (body3_on_grid
        (λ x y, Λ / (2 * π) * (x - xs) / ((x - xs)² + (y - ys)²))%sc
        (λ x y, Λ / (2 * π) * (y - ys) / ((x - xs)² + (y - ys)²))%sc
        (λ x y, Λ / (2 * π) * s_arctan2 (y - ys) (x - xs))%sc
        eu ev ep); on_grid
  end.
Qed.

(** C5: on a grid [X], [Y], [get_ss_info] and the [Source] methods both
    produce, at every grid point [(x, y)],
    [u = Λ/(2π)·(x−xs)/r²], [v = Λ/(2π)·(y−ys)/r²] and
    [psi = Λ/(2π)·atan2(y−ys, x−xs)] with [r² = (x−xs)² + (y−ys)²].
    The identity holds at every point of the grid, in particular at the
    points other than [(xs, ys)]. *)
Theorem source_sink_formulas (Λ xs ys : F) :
  ∃ U V P : ndarray F,
    get_ss_info (Sc Λ) (Sc xs) (Sc ys) (Arr X) (Arr Y)
    = Some (Arr U, Arr V, Arr P) ∧
    and_then (Source.velocity (Source.init (Sc Λ) (Sc xs) (Sc ys)) (Arr X) (Arr Y))
             (λ self, Source.stream_function self (Arr X) (Arr Y))
    = Returned (Source.mk (Sc Λ) (Sc xs) (Sc ys)
                          (Some (Arr U)) (Some (Arr V)) (Some (Arr P))) ∧
    (shape U = (r, c) ∧ shape V = (r, c) ∧ shape P = (r, c)) ∧
    ∀ i j x y, item X i j = Some x → item Y i j = Some y →
      let r2 := ((x - xs)² + (y - ys)²)%sc in
      item U i j = Some (Λ / (2 * π) * (x - xs) / r2)%sc ∧
      item V i j = Some (Λ / (2 * π) * (y - ys) / r2)%sc ∧
      item P i j = Some (Λ / (2 * π) * s_arctan2 (y - ys) (x - xs))%sc.
Proof using wfX wfY shX shY.
  destruct (get_ss_info_on_grid Λ xs ys) as (U & V & P & Heq & Hsh & Hcells).
  pose proof (Source_refines_get_ss_info (Sc Λ) (Sc xs) (Sc ys) (Arr X) (Arr Y))
    as Hcls.
  rewrite Heq in Hcls. exists U, V, P. done.
Qed.

(** C3, as the code has it: the stream function of [get_ss_info] is
    [Λ/(2π)·atan2(y−ys, x−xs)] at every grid point, the very array that
    [Source.stream_function] stores; no square root and no logarithm
    enters it. *)
Theorem get_ss_info_psi_is_arctan2 (Λ xs ys : F) :
  ∃ U V P : ndarray F,
    get_ss_info (Sc Λ) (Sc xs) (Sc ys) (Arr X) (Arr Y)
    = Some (Arr U, Arr V, Arr P) ∧
    Source.stream_function (Source.init (Sc Λ) (Sc xs) (Sc ys)) (Arr X) (Arr Y)
    = Returned (Source.mk (Sc Λ) (Sc xs) (Sc ys) None None (Some (Arr P))) ∧
    shape P = (r, c) ∧
    ∀ i j x y, item X i j = Some x → item Y i j = Some y →
      item P i j = Some (Λ / (2 * π) * s_arctan2 (y - ys) (x - xs))%sc.
Proof using wfX wfY shX shY.
  unfold get_ss_info, Source.stream_function, assign. Source_fields.
  lazymatch goal with
  | |- context [np_let ?eu (λ u, np_let ?ev (λ v, np_let ?ep _))] =>
      destruct (body3_on_grid
        (λ x y, Λ / (2 * π) * (x - xs) / ((x - xs)² + (y - ys)²))%sc
        (λ x y, Λ / (2 * π) * (y - ys) / ((x - xs)² + (y - ys)²))%sc
        (λ x y, Λ / (2 * π) * s_arctan2 (y - ys) (x - xs))%sc
        eu ev ep) as (U & V & P & Heq & Hsh & Hcells); [on_grid..|];
      rewrite Heq; unfold np_let in Heq;
      destruct eu as [u|]; [|done]; destruct ev as [v|]; [|done];
      destruct ep as [psi|] eqn:Hpsi; [|done]
  end.
  cbn in Heq. injection Heq as -> -> ->.
  exists U, V, P. split; [reflexivity|]. split; [reflexivity|].
  split; [tauto|]. intros i j x y Hx Hy.
  by destruct (Hcells i j x y Hx Hy) as (_ & _ & ?).
Qed.

(** The three arrays of [get_doublet_info] on a grid, element by element. *)
Lemma get_doublet_info_on_grid (κ xd yd : F) :
  ∃ U V P : ndarray F,
    get_doublet_info (Sc κ) (Sc xd) (Sc yd) (Arr X) (Arr Y)
    = Some (Arr U, Arr V, Arr P) ∧
    (shape U = (r, c) ∧ shape V = (r, c) ∧ shape P = (r, c)) ∧
    ∀ i j x y, item X i j = Some x → item Y i j = Some y →
      item U i j = Some (- κ / (2 * π) * ((x - xd)² - (y - yd)²)
                         / ((x - xd)² + (y - yd)²)²)%sc ∧
      item V i j = Some (- κ / (2 * π) * 2 * (x - xd) * (y - yd)
                         / ((x - xd)² + (y - yd)²)²)%sc ∧
      item P i j = Some (- κ / (2 * π) * (y - yd)
                         / ((x - xd)² + (y - yd)²))%sc.
Proof using wfX wfY shX shY.
  unfold get_doublet_info.
  lazymatch goal with
  | |- context [np_let ?eu (λ u, np_let ?ev (λ v, np_let ?ep _))] =>
      apply (body3_on_grid
        (λ x y, - κ / (2 * π) * ((x - xd)² - (y - yd)²)
                / ((x - xd)² + (y - yd)²)²)%sc
        (λ x y, - κ / (2 * π) * 2 * (x - xd) * (y - yd)
                / ((x - xd)² + (y - yd)²)²)%sc
        (λ x y, - κ / (2 * π) * (y - yd) / ((x - xd)² + (y - yd)²))%sc
        eu ev ep); on_grid
  end.
Qed.

(** C8: on a grid [X], [Y], [get_doublet_info] produces, at every grid
    point [(x, y)], [u = −κ/(2π)·((x−xd)² − (y−yd)²)/r⁴],
    [v = −κ/(2π)·2·(x−xd)·(y−yd)/r⁴] and [psi = −κ/(2π)·(y−yd)/r²] with
    [r² = (x−xd)² + (y−yd)²] and [r⁴ = (r²)²]. *)
Theorem doublet_formulas (κ xd yd : F) :
  ∃ U V P : ndarray F,
    get_doublet_info (Sc κ) (Sc xd) (Sc yd) (Arr X) (Arr Y)
    = Some (Arr U, Arr V, Arr P) ∧
    (shape U = (r, c) ∧ shape V = (r, c) ∧ shape P = (r, c)) ∧
    ∀ i j x y, item X i j = Some x → item Y i j = Some y →
      let r2 := ((x - xd)² + (y - yd)²)%sc in
      let r4 := (r2 ²)%sc in
      item U i j = Some (- κ / (2 * π) * ((x - xd)² - (y - yd)²) / r4)%sc ∧
      item V i j = Some (- κ / (2 * π) * 2 * (x - xd) * (y - yd) / r4)%sc ∧
      item P i j = Some (- κ / (2 * π) * (y - yd) / r2)%sc.
Proof using wfX wfY shX shY.
  destruct (get_doublet_info_on_grid κ xd yd) as (U & V & P & Heq & Hsh & Hcells).
  exists U, V, P. split; [exact Heq|]. split; [exact Hsh|].
  intros i j x y Hx Hy r2 r4. exact (Hcells i j x y Hx Hy).
Qed.

(** C7: for a position array with at least two entries,
    [get_velocity_infinite_vortices] takes [a = x_vortices[1] − x_vortices[0]]
    and [c = 2π/a] and returns the pair [(u, v)] (and nothing else) with
    [u = +(Γ/(2a))·sinh(c·y)/(cosh(c·y) − cos(c·x))] and
    [v = −(Γ/(2a))·sin(c·x)/(cosh(c·y) − cos(c·x))] at every grid point. *)
Theorem infinite_vortices_formulas (Γ x0 x1 : F) (rest : list F) :
  ∃ U V : ndarray F,
    get_velocity_infinite_vortices (Sc Γ) (Arr X) (Arr Y) (x0 :: x1 :: rest)
    = Some (Arr U, Arr V) ∧
    (shape U = (r, c) ∧ shape V = (r, c)) ∧
    ∀ i j x y, item X i j = Some x → item Y i j = Some y →
      let a := (x1 - x0)%sc in
      let c := (2 * π / a)%sc in
      item U i j = Some (Γ / (2 * a)
                         * (s_sinh (c * y) / (s_cosh (c * y) - s_cos (c * x))))%sc ∧
      item V i j = Some (- (Γ / (2 * a))
                         * (s_sin (c * x) / (s_cosh (c * y) - s_cos (c * x))))%sc.
Proof using wfX wfY shX shY.
  unfold get_velocity_infinite_vortices.
  change (getitem (x0 :: x1 :: rest) 1 - getitem (x0 :: x1 :: rest) 0)%np
    with (ret (Sc (x1 - x0)%sc)).
  rewrite np_let_ret.
  change (2 * numpy.pi / Sc (x1 - x0)%sc)%np
    with (ret (Sc (2 * π / (x1 - x0))%sc)).
  rewrite np_let_ret. unfold pos.
  lazymatch goal with
  | |- context [np_let ?eu (λ u, np_let ?ev _)] =>
      destruct (body2_on_grid
        (λ x y, Γ / (2 * (x1 - x0))
                * (s_sinh (2 * π / (x1 - x0) * y)
                   / (s_cosh (2 * π / (x1 - x0) * y)
                      - s_cos (2 * π / (x1 - x0) * x))))%sc
        (λ x y, - (Γ / (2 * (x1 - x0)))
                * (s_sin (2 * π / (x1 - x0) * x)
                   / (s_cosh (2 * π / (x1 - x0) * y)
                      - s_cos (2 * π / (x1 - x0) * x))))%sc
        eu ev) as (U & V & -> & Hsh & Hcells); [on_grid..|]
  end.
  exists U, V. done.
Qed.

(** With fewer than two entries the indexing raises. *)
Lemma infinite_vortices_short (Γ : value F) (XX YY : value F) (xv : list F) :
  length xv < 2 → get_velocity_infinite_vortices Γ XX YY xv = None.
Proof.
  unfold get_velocity_infinite_vortices, getitem.
  destruct xv as [|a [|b l]]; simpl; [done|done|lia].
Qed.
(** What the two vortex evaluators compute on a grid.  The velocity
    components agree; the stream functions are two different expressions,
    [−Γ/(4π)·log(r²)] in the class and [Γ/(4π)·log(sqrt(r²))] in the free
    function. *)
Lemma vortex_formulas (Γ xv yv : F) :
  ∃ U V P P' : ndarray F,
    get_vortex_info (Sc Γ) (Sc xv) (Sc yv) (Arr X) (Arr Y)
    = Some (Arr U, Arr V, Arr P) ∧
    and_then (Vortex.velocity (Vortex.init (Sc Γ) (Sc xv) (Sc yv)) (Arr X) (Arr Y))
             (λ self, Vortex.stream_function self (Arr X) (Arr Y))
    = Returned (Vortex.mk (Sc Γ) (Sc xv) (Sc yv)
                          (Some (Arr U)) (Some (Arr V)) (Some (Arr P'))) ∧
    (shape U = (r, c) ∧ shape V = (r, c) ∧ shape P = (r, c) ∧ shape P' = (r, c)) ∧
    ∀ i j x y, item X i j = Some x → item Y i j = Some y →
      let r2 := ((x - xv)² + (y - yv)²)%sc in
      item U i j = Some (Γ / (2 * π) * (y - yv) / r2)%sc ∧
      item V i j = Some (- Γ / (2 * π) * (x - xv) / r2)%sc ∧
      item P i j = Some (Γ / (4 * π) * s_log (s_sqrt r2))%sc ∧
      item P' i j = Some (- Γ / (4 * π) * s_log r2)%sc.
Proof using wfX wfY shX shY.
  assert (on_grid r c X Y (λ x y, - Γ / (4 * π) * s_log ((x - xv)² + (y - yv)²))%sc
            (- Sc Γ / (4 * numpy.pi)
             * numpy.log ((Arr X - Sc xv)**2 + (Arr Y - Sc yv)**2))%np)
    as (P' & HP' & _ & HsP' & HcP') by on_grid.
  pose proof (Vortex_velocity_refines_get_vortex_info
                (Sc Γ) (Sc xv) (Sc yv) (Arr X) (Arr Y)) as Hcls.
  revert Hcls. unfold get_vortex_info, pos.
  lazymatch goal with
  | |- context [np_let ?eu (λ u, np_let ?ev (λ v, np_let ?ep _))] =>
      destruct (body3_on_grid
        (λ x y, Γ / (2 * π) * (y - yv) / ((x - xv)² + (y - yv)²))%sc
        (λ x y, - Γ / (2 * π) * (x - xv) / ((x - xv)² + (y - yv)²))%sc
        (λ x y, Γ / (4 * π) * s_log (s_sqrt ((x - xv)² + (y - yv)²)))%sc
        eu ev ep) as (U & V & P & -> & Hsh & Hcells); [on_grid..|]
  end.
  intros Hcls. exists U, V, P, P'. split; [reflexivity|].
  rewrite (Hcls _ _ _ eq_refl). cbn [and_then].
  unfold Vortex.stream_function, assign. Vortex_fields. rewrite HP'.
  split; [reflexivity|]. split; [tauto|].
  intros i j x y Hx Hy. destruct (Hcells i j x y Hx Hy) as (? & ? & ?).
  auto.
Qed.
End formulas.

(** The uniform stream, on a grid of the shape [(N, N)] that the caller
    announces: every element of [u] is [(U·cos α)·1], every element of [v]
    is [(U·sin α)·0], and [psi = U·(y·cos α − x·sin α)]. *)
Lemma freestream_formulas `{Scalar F} (u_inf alpha : F) (X Y : ndarray F) (N : nat) :
  wf X → wf Y → shape X = (N, N) → shape Y = (N, N) →
  ∃ U V P : ndarray F,
    get_freestream_info (Sc u_inf) (Sc alpha) (Arr X) (Arr Y) N
    = Some (Arr U, Arr V, Arr P) ∧
    (shape U = (N, N) ∧ shape V = (N, N) ∧ shape P = (N, N)) ∧
    ∀ i j x y, item X i j = Some x → item Y i j = Some y →
      item U i j = Some (u_inf * s_cos alpha * 1)%sc ∧
      item V i j = Some (u_inf * s_sin alpha * 0)%sc ∧
      item P i j = Some (u_inf * (y * s_cos alpha - x * s_sin alpha))%sc.
Proof.
  intros wfX wfY shX shY. unfold get_freestream_info.
  lazymatch goal with
  | |- context [np_let ?eu (λ u, np_let ?ev (λ v, np_let ?ep _))] =>
      destruct (body3_on_grid N N X Y
        (λ x y, u_inf * s_cos alpha * 1)%sc
        (λ x y, u_inf * s_sin alpha * 0)%sc
        (λ x y, u_inf * (y * s_cos alpha - x * s_sin alpha))%sc
        eu ev ep) as (U & V & P & -> & Hsh & Hcells); [on_grid..|]
  end.
  exists U, V, P. done.
Qed.

(** ** Shapes of the uniform stream's outputs *)

Lemma nrows_amap {F : Type} (f : F → F) (A : ndarray F) :
  nrows (amap f A) = nrows A.
Proof. unfold nrows. simpl. apply length_map. Qed.

(** C10, as the code has it.  [u] and [v] have the shape [(N, N)] whatever
    [X] and [Y] are; [psi] has the shape to which [Y] and [X] broadcast.
    Whenever the two broadcast together, in particular when they have one
    shape, the call returns, and its three outputs have one shape exactly
    when that broadcast shape is [(N, N)]; so for [X] and [Y] of one shape
    other than [(N, N)] the outputs differ in shape and nothing is raised.
    When [Y] and [X] do not broadcast together the call raises. *)
Theorem freestream_shapes `{Scalar F} (u_inf alpha : F) (X Y : ndarray F) (N : nat) :
  (∀ r c, bcast_dim (nrows Y) (nrows X) = Some r →
          bcast_dim (ncols Y) (ncols X) = Some c →
     ∃ U V P : ndarray F,
       get_freestream_info (Sc u_inf) (Sc alpha) (Arr X) (Arr Y) N
       = Some (Arr U, Arr V, Arr P) ∧
       shape U = (N, N) ∧ shape V = (N, N) ∧ shape P = (r, c) ∧
       (shape P = shape U ↔ (r, c) = (N, N))) ∧
  (shape X = shape Y → shape X ≠ (N, N) →
     ∃ U V P : ndarray F,
       get_freestream_info (Sc u_inf) (Sc alpha) (Arr X) (Arr Y) N
       = Some (Arr U, Arr V, Arr P) ∧
       shape U = (N, N) ∧ shape V = (N, N) ∧ shape P = shape X ∧
       shape P ≠ shape U) ∧
  (bcast_dim (nrows Y) (nrows X) = None ∨ bcast_dim (ncols Y) (ncols X) = None →
     get_freestream_info (Sc u_inf) (Sc alpha) (Arr X) (Arr Y) N = None).
Proof.
  set (A := amap (λ y, y * s_cos alpha)%sc Y).
  set (B := amap (λ x, x * s_sin alpha)%sc X).
  destruct (full_facts N N (1 : F)%sc) as (O1 & HO1 & _ & HsO1 & _).
  destruct (full_facts N N (0 : F)%sc) as (O0 & HO0 & _ & HsO0 & _).
  assert (get_freestream_info (Sc u_inf) (Sc alpha) (Arr X) (Arr Y) N
          = (λ C, (Arr (amap (s_mul (u_inf * s_cos alpha)%sc) O1),
                   Arr (amap (s_mul (u_inf * s_sin alpha)%sc) O0),
                   Arr (amap (s_mul u_inf) C))) <$> abin s_sub A B) as Hcode.
  { unfold get_freestream_info, np_let, numpy.ones, numpy.zeros.
    rewrite HO1, HO0. cbn. fold A B.
    destruct (abin s_sub A B); reflexivity. }
  assert (∀ r c, bcast_dim (nrows Y) (nrows X) = Some r →
                 bcast_dim (ncols Y) (ncols X) = Some c →
     ∃ U V P : ndarray F,
       get_freestream_info (Sc u_inf) (Sc alpha) (Arr X) (Arr Y) N
       = Some (Arr U, Arr V, Arr P) ∧
       shape U = (N, N) ∧ shape V = (N, N) ∧ shape P = (r, c)) as Hret.
  { intros r c Hr Hc.
    destruct (abin_shape s_sub A B r c) as (C & HC & HsC).
    { unfold A, B. by rewrite !nrows_amap. }
    { exact Hc. }
    do 3 eexists. rewrite Hcode, HC. split; [reflexivity|].
    by rewrite !shape_amap. }
  split; [|split].
  - intros r c Hr Hc.
    destruct (Hret r c Hr Hc) as (U & V & P & Heq & HsU & HsV & HsP).
    exists U, V, P. rewrite HsU, HsP. done.
  - intros Hsh Hne. injection Hsh as Hr Hc.
    destruct (Hret (nrows X) (ncols X)) as (U & V & P & Heq & HsU & HsV & HsP).
    { rewrite <-Hr. apply bcast_dim_same. }
    { rewrite <-Hc. apply bcast_dim_same. }
    exists U, V, P. rewrite HsU, HsP. done.
  - intros Hnone. rewrite Hcode, abin_None; [done|].
    unfold A, B. by rewrite !nrows_amap.
Qed.

(** ** The analytic reading: real numbers *)

Ltac to_R :=
  unfold s_sq in *;
  cbn [s_of_Z s_add s_sub s_mul s_div s_neg s_eqb s_pi s_sqrt s_log s_sin
       s_cos s_sinh s_cosh s_arctan2 R_scalar] in *.

Section real_reading.
Local Open Scope R_scope.
Local Abbreviation sqrt := R_sqrt.sqrt.

(** C4: on a grid of shape [(N, N)], [get_freestream_info] returns [u]
    equal to [u_inf·cos α] in every cell, [v] equal to [0] in every cell
    whatever [α] is (the factor [zeros((N, N))]), and
    [psi = u_inf·(Y·cos α − X·sin α)]. *)
Theorem freestream_info_cells (u_inf alpha : R) (X Y : ndarray R) (N : nat) :
  wf X → wf Y → shape X = (N, N) → shape Y = (N, N) →
  ∃ U V P : ndarray R,
    get_freestream_info (Sc u_inf) (Sc alpha) (Arr X) (Arr Y) N
    = Some (Arr U, Arr V, Arr P) ∧
    (shape U = (N, N) ∧ shape V = (N, N) ∧ shape P = (N, N)) ∧
    ∀ i j, (i < N)%nat → (j < N)%nat →
      item U i j = Some (u_inf * cos alpha) ∧
      item V i j = Some 0 ∧
      ∃ x y, item X i j = Some x ∧ item Y i j = Some y ∧
        item P i j = Some (u_inf * (y * cos alpha - x * sin alpha)).
Proof.
  intros wfX wfY shX shY.
  destruct (freestream_formulas u_inf alpha X Y N wfX wfY shX shY)
    as (U & V & P & Heq & Hsh & Hcells).
  exists U, V, P. split; [exact Heq|]. split; [exact Hsh|].
  intros i j Hi Hj.
  assert (nrows X = N ∧ ncols X = N) as [HrX HcX] by (by injection shX).
  assert (nrows Y = N ∧ ncols Y = N) as [HrY HcY] by (by injection shY).
  destruct (item_lt X i j wfX) as [x Hx]; [lia..|].
  destruct (item_lt Y i j wfY) as [y Hy]; [lia..|].
  destruct (Hcells i j x y Hx Hy) as (HU & HV & HP). to_R.
  rewrite HU, HV, HP. split; [f_equal; lra|]. split; [f_equal; lra|].
  by exists x, y.
Qed.
(** *** The grid *)

Lemma length_linspace `{Scalar F} (a b : F) (N : nat) :
  length (numpy.linspace a b N) = N.
Proof.
  unfold numpy.linspace.
  repeat case_decide; repeat case_match;
    rewrite ?length_insert, !length_fmap, length_seq; reflexivity.
Qed.

(** Sample [j] of [linspace(a, b, N)], for [N > 1]. *)
Lemma linspace_lookup (a b : R) (N j : nat) :
  (1 < N)%nat → (j < N)%nat →
  numpy.linspace a b N !! j = Some (a + INR j * (b - a) / (INR N - 1)).
Proof.
  intros HN Hj.
  assert (INR N - 1 ≠ 0) as Hne.
  { apply lt_INR in HN. simpl in HN. lra. }
  assert (IZR (Z.of_nat (N - 1)) = INR N - 1) as Hdiv.
  { rewrite <-INR_IZR_INZ, minus_INR by lia. simpl. lra. }
  unfold numpy.linspace.
  rewrite (decide_True (P := (0 < N - 1)%nat)) by lia.
  rewrite (decide_True (P := (1 < N)%nat)) by lia.
  to_R. rewrite Hdiv.
  destruct (decide (j = N - 1)%nat) as [->|Hlast].
  - rewrite list_lookup_insert_eq.
    + f_equal. rewrite minus_INR by lia. simpl. field. exact Hne.
    + case_match; rewrite !length_fmap, length_seq; lia.
  - rewrite list_lookup_insert_ne by lia.
    case_match; rewrite !list_lookup_fmap, lookup_seq_lt by lia;
      simpl; f_equal; rewrite <-INR_IZR_INZ; field; exact Hne.
Qed.

(** The grid over the real numbers: for [N > 1], [create_grid] returns
    two well-formed arrays of shape [(N, N)] with [X[i,j] = x_start + j·(x_end − x_start)/(N − 1)] (the
    column index) and [Y[i,j] = y_start + i·(y_end − y_start)/(N − 1)] (the
    row index); and [create_grid(5, 0, 4, 0, 4)] returns [X] whose rows are
    all [0, 1, 2, 3, 4] and [Y] whose columns are all [0, 1, 2, 3, 4]. *)
Lemma create_grid_cells (N : nat) (x_start x_end y_start y_end : R) :
  (1 < N)%nat →
  (∃ X Y : ndarray R,
    create_grid N x_start x_end y_start y_end = (Arr X, Arr Y) ∧
    (wf X ∧ wf Y ∧ shape X = (N, N) ∧ shape Y = (N, N)) ∧
    ∀ i j, (i < N)%nat → (j < N)%nat →
      item X i j = Some (x_start + INR j * (x_end - x_start) / (INR N - 1)) ∧
      item Y i j = Some (y_start + INR i * (y_end - y_start) / (INR N - 1))) ∧
  create_grid 5 0 4 0 4
  = (Arr (NDArray 5 (replicate 5 [0; 1; 2; 3; 4])),
     Arr (NDArray 5 ((λ y, replicate 5 y) <$> [0; 1; 2; 3; 4]))).
Proof.
  intros HN. split.
  - unfold create_grid.
    destruct (meshgrid_facts (numpy.linspace x_start x_end N)
                             (numpy.linspace y_start y_end N))
      as (X & Y & -> & HwX & HwY & HsX & HsY & Hcells).
    rewrite !length_linspace in *.
    exists X, Y. split; [reflexivity|]. split; [done|].
    intros i j Hi Hj. destruct (Hcells i j Hi Hj) as [-> ->].
    by rewrite !linspace_lookup.
  - unfold create_grid, meshgrid. rewrite !length_linspace.
    assert (numpy.linspace 0 4 5 = [0; 1; 2; 3; 4]) as ->; [|reflexivity].
    apply list_eq. intros j.
    destruct (decide (j < 5)%nat) as [Hj|Hj].
    + rewrite linspace_lookup by lia.
      do 5 (destruct j as [|j]; [simpl; f_equal; lra|]). lia.
    + rewrite !lookup_ge_None_2; [done|simpl; lia|rewrite length_linspace; lia].
Qed.
(** *** The vortex stream functions *)

Lemma ln_4_pos : 0 < ln ((2 - 0) * (2 - 0) + (0 - 0) * (0 - 0)).
Proof.
  replace ((2 - 0) * (2 - 0) + (0 - 0) * (0 - 0)) with 4 by ring.
  rewrite <-ln_1. apply ln_increasing; lra.
Qed.

Lemma ln_sqrt_4_pos : 0 < ln (sqrt ((2 - 0) * (2 - 0) + (0 - 0) * (0 - 0))).
Proof.
  replace ((2 - 0) * (2 - 0) + (0 - 0) * (0 - 0)) with 4 by ring.
  rewrite <-ln_1. apply ln_increasing; [lra|].
  rewrite <-sqrt_1 at 1. apply sqrt_lt_1_alt. lra.
Qed.

Lemma inv_4_pi_pos : 0 < 1 / (4 * PI).
Proof. pose proof PI_RGT_0. apply Rdiv_lt_0_compat; lra. Qed.

(** C1, at the point [(2, 0)] with a unit vortex at the origin: the [psi]
    that [get_vortex_info] returns is [1/(4π)·ln(sqrt(4))], a positive
    number, whereas [−Γ/(4π)·ln(r²)] is negative there. *)
Theorem get_vortex_info_psi_at_2_0 :
  let X := NDArray 1 [[2]] in
  let Y := NDArray 1 [[0]] in
  let r2 := (2 - 0) * (2 - 0) + (0 - 0) * (0 - 0) in
  ∃ U V P : ndarray R,
    get_vortex_info (Sc 1) (Sc 0) (Sc 0) (Arr X) (Arr Y)
    = Some (Arr U, Arr V, Arr P) ∧
    item U 0 0 = Some (1 / (2 * PI) * (0 - 0) / r2) ∧
    item V 0 0 = Some (- 1 / (2 * PI) * (2 - 0) / r2) ∧
    item P 0 0 = Some (1 / (4 * PI) * ln (sqrt r2)) ∧
    - 1 / (4 * PI) * ln r2 < 0 < 1 / (4 * PI) * ln (sqrt r2).
Proof.
  intros X Y r2. do 3 eexists. split; [reflexivity|].
  split; [reflexivity|]. split; [reflexivity|]. split; [reflexivity|].
  pose proof ln_4_pos. pose proof ln_sqrt_4_pos. pose proof inv_4_pi_pos.
  fold r2 in H, H0.
  assert (- 1 / (4 * PI) = - (1 / (4 * PI))) as -> by (unfold Rdiv; ring).
  split; [|by apply Rmult_lt_0_compat].
  rewrite Ropp_mult_distr_l_reverse.
  by apply Ropp_lt_gt_0_contravar, Rmult_lt_0_compat.
Qed.

(** C2, at the same point: after [velocity] and [stream_function] the
    attributes [u] and [v] of the [Vortex] are the arrays that
    [get_vortex_info] returns, but the attribute [psi] holds a negative
    number where [get_vortex_info] returns a positive one. *)
Theorem Vortex_psi_against_get_vortex_info :
  let X := NDArray 1 [[2]] in
  let Y := NDArray 1 [[0]] in
  ∃ U V P P' : ndarray R, ∃ p p' : R,
    get_vortex_info (Sc 1) (Sc 0) (Sc 0) (Arr X) (Arr Y)
    = Some (Arr U, Arr V, Arr P) ∧
    and_then (Vortex.velocity (Vortex.init (Sc 1) (Sc 0) (Sc 0)) (Arr X) (Arr Y))
             (λ self, Vortex.stream_function self (Arr X) (Arr Y))
    = Returned (Vortex.mk (Sc 1) (Sc 0) (Sc 0)
                          (Some (Arr U)) (Some (Arr V)) (Some (Arr P'))) ∧
    item P 0 0 = Some p ∧ item P' 0 0 = Some p' ∧ p' < 0 < p.
Proof.
  intros X Y. do 6 eexists. split; [reflexivity|].
  split; [reflexivity|]. split; [reflexivity|]. split; [reflexivity|].
  pose proof ln_4_pos. pose proof ln_sqrt_4_pos. pose proof inv_4_pi_pos.
  to_R.
  assert (- (1) / (4 * PI) = - (1 / (4 * PI))) as -> by (unfold Rdiv; ring).
  split; [|by apply Rmult_lt_0_compat].
  rewrite Ropp_mult_distr_l_reverse.
  by apply Ropp_lt_gt_0_contravar, Rmult_lt_0_compat.
Qed.
(** [get_vortex_info(1.0, 0, 0, X, Y)] at a grid point [(1, 0)]:
    [u = 0], [v = −1/(2π)], [psi = 0]. *)
Lemma get_vortex_info_at_1_0 (X Y : ndarray R) (r c i j : nat) :
  wf X → wf Y → shape X = (r, c) → shape Y = (r, c) →
  item X i j = Some 1 → item Y i j = Some 0 →
  ∃ U V P : ndarray R,
    get_vortex_info (Sc 1) (Sc 0) (Sc 0) (Arr X) (Arr Y)
    = Some (Arr U, Arr V, Arr P) ∧
    item U i j = Some 0 ∧ item V i j = Some (- (1 / (2 * PI))) ∧
    item P i j = Some 0.
Proof.
  intros wfX wfY shX shY Hx Hy.
  destruct (vortex_formulas r c X Y wfX wfY shX shY 1 0 0)
    as (U & V & P & P' & Heq & _ & _ & Hcells).
  destruct (Hcells i j 1 0 Hx Hy) as (HU & HV & HP & _). to_R.
  pose proof PI_RGT_0.
  exists U, V, P. split; [exact Heq|]. rewrite HU, HV, HP.
  split; [f_equal; field; lra|]. split; [f_equal; field; lra|].
  f_equal. replace ((1 - 0) * (1 - 0) + (0 - 0) * (0 - 0)) with 1 by ring.
  rewrite sqrt_1, ln_1. ring.
Qed.

(** *** The source stream function *)

(** C3 as stated fails at the point [(2, 0)] for a unit source at the
    origin: [get_ss_info] returns [psi = 1/(2π)·atan2(0, 2) = 0] there,
    whereas the sqrt-then-log value [Λ/(4π)·ln(sqrt(r²)²) = Λ/(4π)·ln(r²)]
    is positive. *)
Lemma get_ss_info_psi_at_2_0 :
  let X := NDArray 1 [[2]] in
  let Y := NDArray 1 [[0]] in
  let r2 := (2 - 0) * (2 - 0) + (0 - 0) * (0 - 0) in
  ∃ U V P : ndarray R,
    get_ss_info (Sc 1) (Sc 0) (Sc 0) (Arr X) (Arr Y)
    = Some (Arr U, Arr V, Arr P) ∧
    item P 0 0 = Some (1 / (2 * PI) * Ratan2 (0 - 0) (2 - 0)) ∧
    1 / (2 * PI) * Ratan2 (0 - 0) (2 - 0) = 0 ∧
    0 < 1 / (4 * PI) * ln (sqrt r2 * sqrt r2) ∧
    0 < 1 / (4 * PI) * ln r2.
Proof.
  intros X Y r2. do 3 eexists. split; [reflexivity|]. split; [reflexivity|].
  pose proof ln_4_pos as Hln. pose proof inv_4_pi_pos. fold r2 in Hln.
  split; [|split].
  - unfold Ratan2. destruct (Rlt_dec 0 (2 - 0)) as [_|Hn]; [|exfalso; lra].
    replace ((0 - 0) / (2 - 0)) with 0 by (field; lra).
    rewrite atan_0. ring.
  - rewrite sqrt_sqrt; [by apply Rmult_lt_0_compat|].
    unfold r2. lra.
  - by apply Rmult_lt_0_compat.
Qed.
(** *** Shapes *)

(** C10 as stated fails: with [N = 2], [X] of shape [(2, 1)] and [Y] of
    shape [(1, 2)], neither of shape [(N, N)], the three outputs all have
    the shape [(2, 2)]; and with [X] of shape [(2, 3)] and [Y] of shape
    [(3, 2)] the call raises. *)
Lemma freestream_shapes_broadcast :
  let X := NDArray 1 [[1]; [2]] in
  let Y := NDArray 2 [[5; 6]] in
  let X' := NDArray 3 [[1; 2; 3]; [4; 5; 6]] in
  let Y' := NDArray 2 [[1; 2]; [3; 4]; [5; 6]] in
  (wf X ∧ wf Y ∧ shape X = (2, 1)%nat ∧ shape Y = (1, 2)%nat ∧
   ∃ U V P : ndarray R,
     get_freestream_info (Sc 1) (Sc 0) (Arr X) (Arr Y) 2
     = Some (Arr U, Arr V, Arr P) ∧
     shape U = (2, 2)%nat ∧ shape V = (2, 2)%nat ∧ shape P = (2, 2)%nat) ∧
  (wf X' ∧ wf Y' ∧ shape X' = (2, 3)%nat ∧ shape Y' = (3, 2)%nat ∧
   get_freestream_info (Sc 1) (Sc 0) (Arr X') (Arr Y') 2 = None).
Proof.
  intros X Y X' Y'. split.
  - split; [by repeat constructor|]. split; [by repeat constructor|].
    split; [reflexivity|]. split; [reflexivity|].
    do 3 eexists. split; [reflexivity|]. by repeat split.
  - split; [by repeat constructor|]. split; [by repeat constructor|].
    split; [reflexivity|]. split; reflexivity.
Qed.
End real_reading.

(** ** What NumPy computes: binary64 numbers *)

Ltac to_float :=
  unfold s_sq in *;
  cbn [s_of_Z s_add s_sub s_mul s_div s_neg s_eqb s_pi s_sqrt s_log s_sin
       s_cos s_sinh s_cosh s_arctan2 float_scalar] in *.

Section float_arithmetic.
Local Open Scope float_scope.

Lemma SF_zero_inv x s : Prim2SF x = S754_zero s → x = 0 ∨ x = -0.
Proof.
  intros Hx. destruct s; [right|left]; apply Prim2SF_inj; rewrite Hx; reflexivity.
Qed.

Lemma SF_nan_inv x : Prim2SF x = S754_nan → x = nan.
Proof. intros Hx. apply Prim2SF_inj. rewrite Hx. reflexivity. Qed.

Lemma SF_inf_inv x s :
  Prim2SF x = S754_infinity s → x = infinity ∨ x = neg_infinity.
Proof.
  intros Hx. destruct s; [right|left]; apply Prim2SF_inj; rewrite Hx; reflexivity.
Qed.

(** [f * 0] is a zero or a NaN, whatever [f] is. *)
Lemma mul_zero_r f : zero_or_nan (f * 0).
Proof.
  unfold zero_or_nan.
  pose proof (mul_spec f 0) as Hm.
  change (Prim2SF 0) with (S754_zero false) in Hm. unfold SF64mul in Hm.
  destruct (Prim2SF f) as [s|s| |s m e]; simpl in Hm.
  - right. eapply SF_zero_inv, Hm.
  - left. by apply SF_nan_inv.
  - left. by apply SF_nan_inv.
  - right. eapply SF_zero_inv, Hm.
Qed.

(** Zero over zero, and NaN over zero, are NaN. *)
Lemma div_zero_nan g : zero_or_nan g → g / 0 = nan.
Proof. intros [-> | [-> | ->]]; reflexivity. Qed.

Lemma zero_or_nan_not_inf g : zero_or_nan g → is_infinity g = false.
Proof. intros [-> | [-> | ->]]; reflexivity. Qed.

(** A finite number minus itself is [+0]. *)
Lemma sub_diag x : float_finite x = true → x - x = 0.
Proof.
  unfold float_finite. intros Hx. apply Prim2SF_inj.
  rewrite sub_spec. change (Prim2SF 0) with (S754_zero false).
  unfold SF64sub. destruct (Prim2SF x) as [s|s| |s m e]; try done.
  - by destruct s.
  - simpl. rewrite Z.sub_diag. reflexivity.
Qed.

(** [f * −∞] is an infinity or a NaN, whatever [f] is. *)
Lemma mul_neg_inf f : inf_or_nan (f * neg_infinity) = true.
Proof.
  pose proof (mul_spec f neg_infinity) as Hm.
  change (Prim2SF neg_infinity) with (S754_infinity true) in Hm.
  unfold SF64mul in Hm.
  destruct (Prim2SF f) as [s|s| |s m e]; simpl in Hm.
  - by rewrite (SF_nan_inv _ Hm).
  - by destruct (SF_inf_inv _ _ Hm) as [-> | ->].
  - by rewrite (SF_nan_inv _ Hm).
  - by destruct (SF_inf_inv _ _ Hm) as [-> | ->].
Qed.

(** Two floats that compare equal, one of them finite, are the same
    float or are two zeros. *)
Lemma eqb_finite_cases x x0 :
  float_finite x0 = true → (x =? x0) = true →
  x = x0 ∨ (x = 0 ∨ x = -0) ∧ (x0 = 0 ∨ x0 = -0).
Proof.
  unfold float_finite. rewrite FloatAxioms.eqb_spec. intros Hfin Heq.
  destruct (Prim2SF x0) as [s0|s0| |s0 m0 e0] eqn:H0; try done.
  - destruct (Prim2SF x) as [s|s| |s m e] eqn:Hx; try done.
    + right. split; by eapply SF_zero_inv.
    + by destruct s.
    + by destruct s.
  - destruct (Prim2SF x) as [s|s| |s m e] eqn:Hx; try done.
    + by destruct s0.
    + by destruct s.
    + left. apply Prim2SF_inj. rewrite Hx, H0.
      unfold SFeqb, SFcompare in Heq.
      destruct s, s0; try done;
        destruct (e ?= e0)%Z eqn:He; try done;
        apply Z.compare_eq in He as ->;
        destruct (PosDef.Pos.compare_cont Eq m m0) eqn:Hm; try done;
        by apply Pcompare_Eq_eq in Hm as ->.
Qed.

(** The difference of two floats that compare equal is [+0], except
    that [−0 − (+0)] is [−0]. *)
Lemma sub_eqb x x0 :
  float_finite x0 = true → (x =? x0) = true →
  x - x0 = 0 ∨ x = -0 ∧ x0 = 0 ∧ x - x0 = -0.
Proof.
  intros Hfin Heq.
  destruct (eqb_finite_cases x x0 Hfin Heq) as [-> | [[-> | ->] [-> | ->]]].
  - left. by apply sub_diag.
  - by left.
  - by left.
  - by right.
  - by left.
Qed.

(** [f * ±0] is a zero or a NaN, whatever [f] is. *)
Lemma mul_zero_or_nan f z : z = 0 ∨ z = -0 → zero_or_nan (f * z).
Proof.
  intros Hz. unfold zero_or_nan.
  pose proof (mul_spec f z) as Hm.
  assert (∃ s, Prim2SF z = S754_zero s) as [sz Hsz]
    by (destruct Hz as [-> | ->]; eexists; reflexivity).
  rewrite Hsz in Hm. unfold SF64mul in Hm.
  destruct (Prim2SF f) as [s|s| |s m e]; simpl in Hm.
  - right. eapply SF_zero_inv, Hm.
  - left. by apply SF_nan_inv.
  - left. by apply SF_nan_inv.
  - right. eapply SF_zero_inv, Hm.
Qed.

(** The squares of two zeros add up to [+0], and their difference is
    [+0]. *)
Lemma zero_squares zx zy :
  zx = 0 ∨ zx = -0 → zy = 0 ∨ zy = -0 →
  zx * zx + zy * zy = 0 ∧ zx * zx - zy * zy = 0.
Proof. by intros [-> | ->] [-> | ->]. Qed.
End float_arithmetic.

Section float_reading.
Local Open Scope float_scope.
Variable M : Libm.
Hypothesis log_zero : libm_log M 0 = neg_infinity.
Hypothesis atan2_zero : ∀ dy, dy = 0 ∨ dy = -0 → libm_atan2 M dy 0 = dy.
Variables (r c : nat) (X Y : ndarray float).
Hypotheses (wfX : wf X) (wfY : wf Y).
Hypotheses (shX : shape X = (r, c)) (shY : shape Y = (r, c)).

(** C9, as the code has it.  Let the grid point [(i, j)], of coordinates
    [(x, y)], compare equal ([==]) to the singularity, at finite
    coordinates [(x0, y0)]; then [dx = x − x0] and [dy = y − y0] are
    zeros, and [dx] is [+0] unless [x] is [−0.0] and [x0] is [+0.0].  For
    any strength [s], every Cartesian point-singularity evaluator returns
    (nothing is raised); every element of every output, at this grid
    point and at all others, is the value of the evaluator's formula at
    the coordinates of its own grid point; and in the cell [(i, j)]:
    - [u] and [v] are NaN for the source, the vortex and the doublet;
    - [psi] of the doublet is NaN;
    - [psi] of the vortex, from the class and from [get_vortex_info], is
      an infinity or a NaN ([log 0 = −∞]);
    - [psi] of the source is [s/(2π)·atan2(dy, dx)]; when [dx] is [+0]
      this is [s/(2π)·dy], a zero or a NaN and never an infinity
      ([atan2(±0, +0) = ±0]).
    The [Source] and [Vortex] attributes are the arrays named here.
    Nothing is said on whether the elements at the other grid points are
    finite. *)
Theorem singular_cell (s x0 y0 x y : float) (i j : nat) :
  item X i j = Some x → item Y i j = Some y →
  (x =? x0) = true → (y =? y0) = true →
  float_finite x0 = true → float_finite y0 = true →
  let H := float_scalar M in
  let dx := x - x0 in
  let dy := y - y0 in
  ((dx = 0 ∨ x = -0 ∧ x0 = 0 ∧ dx = -0) ∧ (dy = 0 ∨ dy = -0)) ∧
  (∃ U V P : ndarray float,
     get_ss_info (Sc s) (Sc x0) (Sc y0) (Arr X) (Arr Y)
     = Some (Arr U, Arr V, Arr P) ∧
     and_then (Source.velocity (Source.init (Sc s) (Sc x0) (Sc y0)) (Arr X) (Arr Y))
              (λ self, Source.stream_function self (Arr X) (Arr Y))
     = Returned (Source.mk (Sc s) (Sc x0) (Sc y0)
                           (Some (Arr U)) (Some (Arr V)) (Some (Arr P))) ∧
     (∀ i' j' x' y', item X i' j' = Some x' → item Y i' j' = Some y' →
        item U i' j' = Some (s / (2 * π) * (x' - x0)
                             / ((x' - x0)² + (y' - y0)²))%sc ∧
        item V i' j' = Some (s / (2 * π) * (y' - y0)
                             / ((x' - x0)² + (y' - y0)²))%sc ∧
        item P i' j' = Some (s / (2 * π) * s_arctan2 (y' - y0) (x' - x0))%sc) ∧
     item U i j = Some nan ∧ item V i j = Some nan ∧
     item P i j = Some (s / (2 * float_pi) * libm_atan2 M dy dx) ∧
     (dx = 0 →
      item P i j = Some (s / (2 * float_pi) * dy) ∧
      zero_or_nan (s / (2 * float_pi) * dy) ∧
      is_infinity (s / (2 * float_pi) * dy) = false)) ∧
  (∃ U V P P' : ndarray float, ∃ p p' : float,
     get_vortex_info (Sc s) (Sc x0) (Sc y0) (Arr X) (Arr Y)
     = Some (Arr U, Arr V, Arr P) ∧
     and_then (Vortex.velocity (Vortex.init (Sc s) (Sc x0) (Sc y0)) (Arr X) (Arr Y))
              (λ self, Vortex.stream_function self (Arr X) (Arr Y))
     = Returned (Vortex.mk (Sc s) (Sc x0) (Sc y0)
                           (Some (Arr U)) (Some (Arr V)) (Some (Arr P'))) ∧
     (∀ i' j' x' y', item X i' j' = Some x' → item Y i' j' = Some y' →
        item U i' j' = Some (s / (2 * π) * (y' - y0)
                             / ((x' - x0)² + (y' - y0)²))%sc ∧
        item V i' j' = Some (- s / (2 * π) * (x' - x0)
                             / ((x' - x0)² + (y' - y0)²))%sc ∧
        item P i' j' = Some (s / (4 * π)
                             * s_log (s_sqrt ((x' - x0)² + (y' - y0)²)))%sc ∧
        item P' i' j' = Some (- s / (4 * π)
                              * s_log ((x' - x0)² + (y' - y0)²))%sc) ∧
     item U i j = Some nan ∧ item V i j = Some nan ∧
     item P i j = Some p ∧ inf_or_nan p = true ∧
     item P' i j = Some p' ∧ inf_or_nan p' = true) ∧
  (∃ U V P : ndarray float,
     get_doublet_info (Sc s) (Sc x0) (Sc y0) (Arr X) (Arr Y)
     = Some (Arr U, Arr V, Arr P) ∧
     (∀ i' j' x' y', item X i' j' = Some x' → item Y i' j' = Some y' →
        item U i' j' = Some (- s / (2 * π) * ((x' - x0)² - (y' - y0)²)
                             / ((x' - x0)² + (y' - y0)²)²)%sc ∧
        item V i' j' = Some (- s / (2 * π) * 2 * (x' - x0) * (y' - y0)
                             / ((x' - x0)² + (y' - y0)²)²)%sc ∧
        item P i' j' = Some (- s / (2 * π) * (y' - y0)
                             / ((x' - x0)² + (y' - y0)²))%sc) ∧
     item U i j = Some nan ∧ item V i j = Some nan ∧ item P i j = Some nan).
Proof using log_zero atan2_zero wfX wfY shX shY.
  intros Hx Hy Hxe Hye Hfx Hfy H dx dy. unfold H. clear H.
  pose proof (sub_eqb x x0 Hfx Hxe) as Hdx. fold dx in Hdx.
  pose proof (sub_eqb y y0 Hfy Hye) as Hdy. fold dy in Hdy.
  assert (dx = 0 ∨ dx = -0) as Zx by (destruct Hdx as [? | (_ & _ & ?)]; auto).
  assert (dy = 0 ∨ dy = -0) as Zy by (destruct Hdy as [? | (_ & _ & ?)]; auto).
  destruct (zero_squares dx dy Zx Zy) as [Hsum Hdiff].
  assert (∀ f z, z = 0 ∨ z = -0 → f * z / 0 = nan) as Hq.
  { intros f z Hz. apply div_zero_nan, mul_zero_or_nan, Hz. }
  split; [done|]. split; [|split].
  - destruct (@get_ss_info_on_grid _ (float_scalar M) r c X Y wfX wfY shX shY s x0 y0)
      as (U & V & P & Heq & _ & Hcells).
    pose proof (@Source_refines_get_ss_info _ (float_scalar M)
                  (Sc s) (Sc x0) (Sc y0) (Arr X) (Arr Y)) as Hcls.
    rewrite Heq in Hcls.
    exists U, V, P. split; [exact Heq|]. split; [exact Hcls|].
    split; [exact Hcells|].
    destruct (Hcells i j x y Hx Hy) as (HU & HV & HP). to_float.
    fold dx dy in HU, HV, HP. rewrite Hsum in HU, HV.
    rewrite (Hq _ dx Zx) in HU. rewrite (Hq _ dy Zy) in HV.
    split; [exact HU|]. split; [exact HV|]. split; [exact HP|].
    intros Ex. rewrite Ex, (atan2_zero dy Zy) in HP.
    split; [exact HP|]. split; [by apply mul_zero_or_nan|].
    by apply zero_or_nan_not_inf, mul_zero_or_nan.
  - destruct (@vortex_formulas _ (float_scalar M) r c X Y wfX wfY shX shY s x0 y0)
      as (U & V & P & P' & Heq & Hcls & _ & Hcells).
    destruct (Hcells i j x y Hx Hy) as (HU & HV & HP & HP'). to_float.
    fold dx dy in HU, HV, HP, HP'. rewrite Hsum in HU, HV, HP, HP'.
    rewrite (Hq _ dy Zy) in HU. rewrite (Hq _ dx Zx) in HV.
    change (PrimFloat.sqrt 0) with 0 in HP.
    rewrite log_zero in HP, HP'.
    exists U, V, P, P'. do 2 eexists.
    split; [exact Heq|]. split; [exact Hcls|].
    split; [intros i' j' x' y' Hx' Hy'; exact (Hcells i' j' x' y' Hx' Hy')|].
    repeat split; [done..|exact HP|apply mul_neg_inf|exact HP'|apply mul_neg_inf].
  - destruct (@get_doublet_info_on_grid _ (float_scalar M) r c X Y wfX wfY shX shY s x0 y0)
      as (U & V & P & Heq & _ & Hcells).
    exists U, V, P. split; [exact Heq|]. split; [exact Hcells|].
    destruct (Hcells i j x y Hx Hy) as (HU & HV & HP). to_float.
    fold dx dy in HU, HV, HP. rewrite Hsum in HU, HV, HP. rewrite Hdiff in HU.
    change (0 * 0) with 0 in HU, HV.
    rewrite (Hq _ dy Zy) in HP.
    rewrite (div_zero_nan _ (mul_zero_r _)) in HU.
    rewrite (div_zero_nan _ (mul_zero_or_nan _ dy Zy)) in HV.
    done.
Qed.
End float_reading.

(** The same two facts about the uniform stream and the grid, read on
    binary64 numbers: every element of [v] is a product by [0], hence a
    zero (of either sign) or a NaN; and [create_grid(5, 0, 4, 0, 4)] is
    exact. *)
Lemma freestream_v_float (M : Libm) (u_inf alpha : float)
    (X Y : ndarray float) (N i j : nat) :
  wf X → wf Y → shape X = (N, N) → shape Y = (N, N) → i < N → j < N →
  let H := float_scalar M in
  ∃ U V P : ndarray float, ∃ v : float,
    get_freestream_info (Sc u_inf) (Sc alpha) (Arr X) (Arr Y) N
    = Some (Arr U, Arr V, Arr P) ∧
    item V i j = Some v ∧ zero_or_nan v.
Proof.
  intros wfX wfY shX shY Hi Hj H. unfold H. clear H.
  destruct (@freestream_formulas _ (float_scalar M) u_inf alpha X Y N
              wfX wfY shX shY) as (U & V & P & Heq & _ & Hcells).
  assert (nrows X = N ∧ ncols X = N) as [HrX HcX] by (by injection shX).
  assert (nrows Y = N ∧ ncols Y = N) as [HrY HcY] by (by injection shY).
  destruct (item_lt X i j wfX) as [x Hx]; [lia..|].
  destruct (item_lt Y i j wfY) as [y Hy]; [lia..|].
  destruct (Hcells i j x y Hx Hy) as (_ & HV & _). to_float.
  exists U, V, P. eexists. split; [exact Heq|]. split; [exact HV|].
  apply mul_zero_r.
Qed.

Lemma create_grid_5_float :
  let H := float_scalar libm_special_values in
  create_grid 5 0%float 4%float 0%float 4%float
  = (Arr (NDArray 5 (replicate 5 [0; 1; 2; 3; 4]%float)),
     Arr (NDArray 5 ((λ y, replicate 5 y) <$> [0; 1; 2; 3; 4]%float))).
Proof. vm_compute. reflexivity. Qed.

(** Sample [j] of [linspace], read off the list NumPy builds. *)
Lemma linspace_lookup_sample `{Scalar F} (a b : F) (N j : nat) :
  (1 < N)%nat → (j < N)%nat →
  numpy.linspace a b N !! j = Some (linspace_sample a b N j).
Proof.
  intros HN Hj. unfold numpy.linspace, linspace_sample.
  rewrite (decide_True (P := (0 < N - 1)%nat)) by lia.
  rewrite (decide_True (P := (1 < N)%nat)) by lia.
  destruct (decide (j = N - 1)%nat) as [->|Hlast].
  - apply list_lookup_insert_eq.
    case_match; rewrite !length_fmap, length_seq; lia.
  - rewrite list_lookup_insert_ne by lia.
    case_match; by rewrite !list_lookup_fmap, lookup_seq_lt by lia.
Qed.

(** C6, as the code has it.  For [N > 1] and in every scalar arithmetic,
    [create_grid] returns two well-formed arrays of shape [(N, N)] with
    [X[i, j]] the sample [j] of [linspace(x_start, x_end, N)] and
    [Y[i, j]] the sample [i] of [linspace(y_start, y_end, N)]: the index
    times the step [(end − start)/(N − 1)] plus the start, each operation
    in the arithmetic of the grid, and the end value itself for the last
    sample.  Over the real numbers sample [j] is
    [start + j·(end − start)/(N − 1)].  On binary64 numbers
    [create_grid(5, 0, 4, 0, 4)] returns [X] whose rows are all
    [0, 1, 2, 3, 4] and [Y] whose columns are all [0, 1, 2, 3, 4]. *)
Theorem create_grid_samples :
  (∀ (F : Type) (H : Scalar F) (N : nat) (x_start x_end y_start y_end : F),
     (1 < N)%nat →
     ∃ X Y : ndarray F,
       create_grid N x_start x_end y_start y_end = (Arr X, Arr Y) ∧
       (wf X ∧ wf Y ∧ shape X = (N, N) ∧ shape Y = (N, N)) ∧
       ∀ i j, (i < N)%nat → (j < N)%nat →
         item X i j = Some (linspace_sample x_start x_end N j) ∧
         item Y i j = Some (linspace_sample y_start y_end N i)) ∧
  (∀ (N j : nat) (a b : R), (1 < N)%nat → (j < N)%nat →
     linspace_sample a b N j = (a + INR j * (b - a) / (INR N - 1))%R) ∧
  (∀ M : Libm,
     let H := float_scalar M in
     create_grid 5 0%float 4%float 0%float 4%float
     = (Arr (NDArray 5 (replicate 5 [0; 1; 2; 3; 4]%float)),
        Arr (NDArray 5 ((λ y, replicate 5 y) <$> [0; 1; 2; 3; 4]%float)))).
Proof.
  split; [|split].
  - intros F H N x_start x_end y_start y_end HN. unfold create_grid.
    destruct (meshgrid_facts (numpy.linspace x_start x_end N)
                             (numpy.linspace y_start y_end N))
      as (X & Y & -> & HwX & HwY & HsX & HsY & Hcells).
    rewrite !length_linspace in *.
    exists X, Y. split; [reflexivity|]. split; [done|].
    intros i j Hi Hj. destruct (Hcells i j Hi Hj) as [-> ->].
    by rewrite !linspace_lookup_sample.
  - intros N j a b HN Hj.
    pose proof (linspace_lookup a b N j HN Hj) as HR.
    rewrite linspace_lookup_sample in HR by done. by injection HR.
  - intros M. vm_compute. reflexivity.
Qed.

(** C6 as stated fails on binary64 numbers.  For the finite bounds
    [−1e308] and [1e308] and [N = 3] every row of [X] is
    [nan, inf, 1e308], where the formula has [−1e308] and [0]; and in
    [create_grid(11, 0, 1, 0, 1)] the element [X[0, 3]] is
    [3·(1/10) + 0 = 0.30000000000000004], where the formula evaluated
    in binary64, [0 + 3·(1 − 0)/10], is [0.3]. *)
Lemma create_grid_binary64 :
  let H := float_scalar libm_special_values in
  let big := 0x1.1ccf385ebc8a0p+1023%float in
  (float_finite big = true ∧ float_finite (- big) = true ∧
   create_grid 3 (- big)%float big (- big)%float big
   = (Arr (NDArray 3 (replicate 3 [nan; infinity; big])),
      Arr (NDArray 3 ((λ y, replicate 3 y) <$> [nan; infinity; big])))) ∧
  (∃ X Y : ndarray float,
     create_grid 11 0%float 1%float 0%float 1%float = (Arr X, Arr Y) ∧
     item X 0 3 = Some (3 * (1 / 10) + 0)%float ∧
     ((3 * (1 / 10) + 0) =? (0 + 3 * (1 - 0) / 10))%float = false ∧
     ((0 + 3 * (1 - 0) / 10) =? 0x1.3333333333333p-2)%float = true ∧
     ((3 * (1 / 10) + 0) =? 0x1.3333333333334p-2)%float = true).
Proof.
  split.
  - vm_compute. by repeat split.
  - do 2 eexists. split; [vm_compute; reflexivity|].
    vm_compute. by repeat split.
Qed.

(** C9 as stated fails for a unit source at the origin on the one-row grid
    of the points [(0, 0)] and [(2^-600, 0)]: in the cell of the
    singularity [psi] is [0], neither an infinity nor a NaN; and in the
    other cell, whose [r²] underflows to zero, [u] is [+∞]. *)
Lemma singular_cell_source_grid :
  let H := float_scalar libm_special_values in
  let X := NDArray 2 [[0; 0x1p-600]]%float in
  let Y := NDArray 2 [[0; 0]]%float in
  get_ss_info (Sc 1%float) (Sc 0%float) (Sc 0%float) (Arr X) (Arr Y)
  = Some (Arr (NDArray 2 [[nan; infinity]]),
          Arr (NDArray 2 [[nan; nan]]),
          Arr (NDArray 2 [[0; 0]]%float)) ∧
  inf_or_nan 0 = false ∧
  (0x1p-600 =? 0)%float = false ∧ float_finite 0x1p-600 = true ∧
  float_finite infinity = false.
Proof. vm_compute. repeat split; reflexivity. Qed.

(** The hypotheses of [singular_cell] hold with the C library's special
    values, on a grid whose point [(−0.0, 0)] compares equal to the
    singularity at [(0, 0)]. *)
Lemma singular_cell_witness :
  let H := float_scalar libm_special_values in
  let X := NDArray 2 [[-0; 0x1p-600]]%float in
  let Y := NDArray 2 [[0; 0]]%float in
  (libm_log libm_special_values 0 = neg_infinity ∧
   (∀ dy, dy = 0%float ∨ dy = (-0)%float →
          libm_atan2 libm_special_values dy 0 = dy) ∧
   wf X ∧ wf Y ∧ item X 0 0 = Some (-0)%float ∧ item Y 0 0 = Some 0%float ∧
   (-0 =? 0)%float = true ∧ (0 =? 0)%float = true ∧ float_finite 0 = true) ∧
  ∃ U V P : ndarray float,
    get_doublet_info (Sc 1%float) (Sc 0%float) (Sc 0%float) (Arr X) (Arr Y)
    = Some (Arr U, Arr V, Arr P) ∧
    item U 0 0 = Some nan ∧ item V 0 0 = Some nan ∧ item P 0 0 = Some nan.
Proof.
  intros H X Y.
  assert (wf X) as wfX by (by repeat constructor).
  assert (wf Y) as wfY by (by repeat constructor).
  assert (∀ dy, dy = 0%float ∨ dy = (-0)%float →
                libm_atan2 libm_special_values dy 0 = dy) as Hatan
    by (by intros dy [-> | ->]).
  split; [by repeat split|].
  destruct (proj2 (proj2 (proj2
              (singular_cell libm_special_values eq_refl Hatan
                 1 2 X Y wfX wfY eq_refl eq_refl 1%float 0%float 0%float
                 (-0)%float 0%float 0 0 eq_refl eq_refl eq_refl eq_refl
                 eq_refl eq_refl))))
    as (U & V & P & Heq & _ & HU & HV & HP).
  by exists U, V, P.
Defined.

(** ** The theorems at concrete inputs *)

Section instances.
Local Open Scope R_scope.

Lemma wf_X2 : wf X2.
Proof. by repeat constructor. Defined.

Lemma wf_Y2 : wf Y2.
Proof. by repeat constructor. Defined.

Lemma source_sink_formulas_witness :
  (wf X2 ∧ wf Y2 ∧ shape X2 = (2, 2)%nat ∧ shape Y2 = (2, 2)%nat) ∧
  ∃ U V P : ndarray R,
    get_ss_info (Sc 1) (Sc 0) (Sc 0) (Arr X2) (Arr Y2)
    = Some (Arr U, Arr V, Arr P) ∧
    item U 1 1 = Some (1 / (2 * PI) * (1 - 0) / ((1 - 0) * (1 - 0) + (1 - 0) * (1 - 0))).
Proof.
  split; [by repeat split; try apply wf_X2; try apply wf_Y2|].
  destruct (source_sink_formulas 2 2 X2 Y2 wf_X2 wf_Y2 eq_refl eq_refl 1 0 0)
    as (U & V & P & Heq & _ & _ & Hcells).
  exists U, V, P. split; [exact Heq|].
  exact (proj1 (Hcells 1%nat 1%nat 1 1 eq_refl eq_refl)).
Defined.

Lemma get_ss_info_psi_is_arctan2_witness :
  (wf X2 ∧ wf Y2 ∧ shape X2 = (2, 2)%nat ∧ shape Y2 = (2, 2)%nat) ∧
  ∃ U V P : ndarray R,
    get_ss_info (Sc 1) (Sc 0) (Sc 0) (Arr X2) (Arr Y2)
    = Some (Arr U, Arr V, Arr P) ∧
    item P 1 1 = Some (1 / (2 * PI) * Ratan2 (1 - 0) (1 - 0)).
Proof.
  split; [by repeat split; try apply wf_X2; try apply wf_Y2|].
  destruct (get_ss_info_psi_is_arctan2 2 2 X2 Y2 wf_X2 wf_Y2 eq_refl eq_refl 1 0 0)
    as (U & V & P & Heq & _ & _ & Hcells).
  exists U, V, P. split; [exact Heq|].
  exact (Hcells 1%nat 1%nat 1 1 eq_refl eq_refl).
Defined.

Lemma doublet_formulas_witness :
  (wf X2 ∧ wf Y2 ∧ shape X2 = (2, 2)%nat ∧ shape Y2 = (2, 2)%nat) ∧
  ∃ U V P : ndarray R,
    get_doublet_info (Sc 1) (Sc 0) (Sc 0) (Arr X2) (Arr Y2)
    = Some (Arr U, Arr V, Arr P) ∧
    item P 1 1 = Some (- (1) / (2 * PI) * (1 - 0) / ((1 - 0) * (1 - 0) + (1 - 0) * (1 - 0))).
Proof.
  split; [by repeat split; try apply wf_X2; try apply wf_Y2|].
  destruct (doublet_formulas 2 2 X2 Y2 wf_X2 wf_Y2 eq_refl eq_refl 1 0 0)
    as (U & V & P & Heq & _ & Hcells).
  exists U, V, P. split; [exact Heq|].
  exact (proj2 (proj2 (Hcells 1%nat 1%nat 1 1 eq_refl eq_refl))).
Defined.

Lemma infinite_vortices_formulas_witness :
  (wf X2 ∧ wf Y2 ∧ shape X2 = (2, 2)%nat ∧ shape Y2 = (2, 2)%nat) ∧
  ∃ U V : ndarray R,
    get_velocity_infinite_vortices (Sc 1) (Arr X2) (Arr Y2) [0; 1; 2]
    = Some (Arr U, Arr V) ∧
    shape U = (2, 2)%nat ∧ shape V = (2, 2)%nat.
Proof.
  split; [by repeat split; try apply wf_X2; try apply wf_Y2|].
  destruct (infinite_vortices_formulas 2 2 X2 Y2 wf_X2 wf_Y2 eq_refl eq_refl
              1 0 1 [2])
    as (U & V & Heq & Hsh & _).
  exists U, V. split; [exact Heq|exact Hsh].
Defined.

Lemma freestream_info_cells_witness :
  (wf X2 ∧ wf Y2 ∧ shape X2 = (2, 2)%nat ∧ shape Y2 = (2, 2)%nat) ∧
  ∃ U V P : ndarray R,
    get_freestream_info (Sc 3) (Sc 1) (Arr X2) (Arr Y2) 2
    = Some (Arr U, Arr V, Arr P) ∧
    item U 1 0 = Some (3 * cos 1) ∧ item V 1 0 = Some 0.
Proof.
  split; [by repeat split; try apply wf_X2; try apply wf_Y2|].
  destruct (freestream_info_cells 3 1 X2 Y2 2 wf_X2 wf_Y2 eq_refl eq_refl)
    as (U & V & P & Heq & _ & Hcells).
  exists U, V, P. split; [exact Heq|].
  destruct (Hcells 1 0)%nat as (HU & HV & _); [lia..|]. by split.
Defined.
End instances.

(** * Further properties *)

(** ** The evaluators in polar coordinates *)

Section polar_formulas.
Context {F : Type} `{Scalar F}.
Variables (r c : nat) (Rad Th : ndarray F).
Hypotheses (wfR : wf Rad) (wfT : wf Th).
Hypotheses (shR : shape Rad = (r, c)) (shT : shape Th = (r, c)).

(** A body of three assignments whose results are kept as expressions
    over the grid, so that they can be combined further. *)
Lemma body3_on_grid_ret gu gv gp (eu ev ep : option (value F)) :
  on_grid r c Rad Th gu eu → on_grid r c Rad Th gv ev →
  on_grid r c Rad Th gp ep →
  ∃ U V P : ndarray F,
    np_let eu (λ u, np_let ev (λ v, np_let ep (λ psi, Some (u, v, psi))))
    = Some (Arr U, Arr V, Arr P) ∧
    on_grid r c Rad Th gu (ret (Arr U)) ∧ on_grid r c Rad Th gv (ret (Arr V)) ∧
    on_grid r c Rad Th gp (ret (Arr P)).
Proof.
  intros (U & -> & HU) (V & -> & HV) (P & -> & HP).
  exists U, V, P. split; [reflexivity|].
  split; [by exists U|]. split; [by exists V|by exists P].
Qed.

Lemma get_freestream_cylindrical_info_on_grid (U : F) :
  ∃ VR VT P : ndarray F,
    get_freestream_cylindrical_info (Sc U) (Arr Rad) (Arr Th)
    = Some (Arr VR, Arr VT, Arr P) ∧
    on_grid r c Rad Th (λ ρ θ, U * s_cos θ)%sc (ret (Arr VR)) ∧
    on_grid r c Rad Th (λ ρ θ, - U * s_sin θ)%sc (ret (Arr VT)) ∧
    on_grid r c Rad Th (λ ρ θ, U * ρ * s_sin θ)%sc (ret (Arr P)).
Proof using wfR wfT shR shT.
  unfold get_freestream_cylindrical_info.
  apply body3_on_grid_ret; on_grid.
Qed.

Lemma get_doublet_cylindrical_info_on_grid (κ : F) :
  ∃ VR VT P : ndarray F,
    get_doublet_cylindrical_info (Sc κ) (Arr Rad) (Arr Th)
    = Some (Arr VR, Arr VT, Arr P) ∧
    on_grid r c Rad Th (λ ρ θ, - (κ * s_cos θ / (2 * π * ρ²)))%sc (ret (Arr VR)) ∧
    on_grid r c Rad Th (λ ρ θ, - (κ * s_sin θ / (2 * π * ρ²)))%sc (ret (Arr VT)) ∧
    on_grid r c Rad Th (λ ρ θ, - κ * s_sin θ / (2 * π * ρ))%sc (ret (Arr P)).
Proof using wfR wfT shR shT.
  unfold get_doublet_cylindrical_info.
  apply body3_on_grid_ret; on_grid.
Qed.

(** An expression over the grid, read at one grid point. *)
Lemma on_grid_item g (A : ndarray F) i j ρ θ :
  on_grid r c Rad Th g (ret (Arr A)) →
  item Rad i j = Some ρ → item Th i j = Some θ → item A i j = Some (g ρ θ).
Proof.
  intros (A' & [= <-] & _ & _ & Hitem). apply Hitem.
Qed.

Lemma on_grid_shape g (A : ndarray F) :
  on_grid r c Rad Th g (ret (Arr A)) → wf A ∧ shape A = (r, c).
Proof. intros (A' & [= <-] & ? & ? & _). done. Qed.

(** X1: on a polar grid [R], [Theta], [get_freestream_cylindrical_info]
    returns three arrays of the grid's shape with, at every grid point
    [(ρ, θ)], [vr = U·cos θ], [vtheta = (−U)·sin θ] and
    [psi = (U·ρ)·sin θ], in every scalar arithmetic. *)
Theorem freestream_cylindrical_formulas (U : F) :
  ∃ VR VT P : ndarray F,
    get_freestream_cylindrical_info (Sc U) (Arr Rad) (Arr Th)
    = Some (Arr VR, Arr VT, Arr P) ∧
    (shape VR = (r, c) ∧ shape VT = (r, c) ∧ shape P = (r, c)) ∧
    ∀ i j ρ θ, item Rad i j = Some ρ → item Th i j = Some θ →
      item VR i j = Some (U * s_cos θ)%sc ∧
      item VT i j = Some (- U * s_sin θ)%sc ∧
      item P i j = Some (U * ρ * s_sin θ)%sc.
Proof using wfR wfT shR shT.
  destruct (get_freestream_cylindrical_info_on_grid U)
    as (VR & VT & P & Heq & HVR & HVT & HP).
  exists VR, VT, P. split; [exact Heq|].
  split; [by rewrite (proj2 (on_grid_shape _ _ HVR)),
               (proj2 (on_grid_shape _ _ HVT)), (proj2 (on_grid_shape _ _ HP))|].
  intros i j ρ θ Hρ Hθ.
  by rewrite (on_grid_item _ _ i j ρ θ HVR), (on_grid_item _ _ i j ρ θ HVT),
       (on_grid_item _ _ i j ρ θ HP).
Qed.

(** X2: on a polar grid, [get_doublet_cylindrical_info] returns three
    arrays of the grid's shape with, at every grid point [(ρ, θ)],
    [vr = −(κ·cos θ/(2π·ρ²))], [vtheta = −(κ·sin θ/(2π·ρ²))] and
    [psi = (−κ)·sin θ/(2π·ρ)], in every scalar arithmetic. *)
Theorem doublet_cylindrical_formulas (κ : F) :
  ∃ VR VT P : ndarray F,
    get_doublet_cylindrical_info (Sc κ) (Arr Rad) (Arr Th)
    = Some (Arr VR, Arr VT, Arr P) ∧
    (shape VR = (r, c) ∧ shape VT = (r, c) ∧ shape P = (r, c)) ∧
    ∀ i j ρ θ, item Rad i j = Some ρ → item Th i j = Some θ →
      item VR i j = Some (- (κ * s_cos θ / (2 * π * ρ²)))%sc ∧
      item VT i j = Some (- (κ * s_sin θ / (2 * π * ρ²)))%sc ∧
      item P i j = Some (- κ * s_sin θ / (2 * π * ρ))%sc.
Proof using wfR wfT shR shT.
  destruct (get_doublet_cylindrical_info_on_grid κ)
    as (VR & VT & P & Heq & HVR & HVT & HP).
  exists VR, VT, P. split; [exact Heq|].
  split; [by rewrite (proj2 (on_grid_shape _ _ HVR)),
               (proj2 (on_grid_shape _ _ HVT)), (proj2 (on_grid_shape _ _ HP))|].
  intros i j ρ θ Hρ Hθ.
  by rewrite (on_grid_item _ _ i j ρ θ HVR), (on_grid_item _ _ i j ρ θ HVT),
       (on_grid_item _ _ i j ρ θ HP).
Qed.
End polar_formulas.

Section polar_real.
Local Open Scope R_scope.

(** Flow past a cylinder *)
(** X3: flow past a cylinder of radius [a ≠ 0].  Adding the outputs of
    [get_freestream_cylindrical_info] for the speed [U] and of
    [get_doublet_cylindrical_info] for the strength [2π·U·a²] gives, at
    every grid point on the circle [ρ = a], the radial velocity [0], the
    stream function [0] and the tangential velocity [−2·U·sin θ]. *)
Theorem cylinder_surface (U a : R) (r c : nat) (Rad Th : ndarray R) :
  wf Rad → wf Th → shape Rad = (r, c) → shape Th = (r, c) → a ≠ 0 →
  ∃ VR1 VT1 P1 VR2 VT2 P2 VR VT P : ndarray R,
    get_freestream_cylindrical_info (Sc U) (Arr Rad) (Arr Th)
    = Some (Arr VR1, Arr VT1, Arr P1) ∧
    get_doublet_cylindrical_info (Sc (2 * PI * U * (a * a))) (Arr Rad) (Arr Th)
    = Some (Arr VR2, Arr VT2, Arr P2) ∧
    (Arr VR1 + Arr VR2)%np = Some (Arr VR) ∧
    (Arr VT1 + Arr VT2)%np = Some (Arr VT) ∧
    (Arr P1 + Arr P2)%np = Some (Arr P) ∧
    ∀ i j θ, item Rad i j = Some a → item Th i j = Some θ →
      item VR i j = Some 0 ∧ item P i j = Some 0 ∧
      item VT i j = Some (- 2 * U * sin θ).
Proof.
  intros wfR wfT shR shT Ha.
  destruct (get_freestream_cylindrical_info_on_grid r c Rad Th wfR wfT shR shT U)
    as (VR1 & VT1 & P1 & Heq1 & HVR1 & HVT1 & HP1).
  destruct (get_doublet_cylindrical_info_on_grid r c Rad Th wfR wfT shR shT
              (2 * PI * U * (a * a)))
    as (VR2 & VT2 & P2 & Heq2 & HVR2 & HVT2 & HP2).
  destruct (on_grid_bin r c Rad Th s_add _ _ _ _ HVR1 HVR2) as (VR & HVR & _ & _ & HcR).
  destruct (on_grid_bin r c Rad Th s_add _ _ _ _ HVT1 HVT2) as (VT & HVT & _ & _ & HcT).
  destruct (on_grid_bin r c Rad Th s_add _ _ _ _ HP1 HP2) as (P & HP & _ & _ & HcP).
  exists VR1, VT1, P1, VR2, VT2, P2, VR, VT, P.
  do 5 (split; [assumption|]).
  intros i j θ Hρ Hθ. pose proof PI_RGT_0.
  rewrite (HcR i j a θ Hρ Hθ), (HcT i j a θ Hρ Hθ), (HcP i j a θ Hρ Hθ). to_R.
  repeat split; f_equal; field; lra.
Qed.
End polar_real.

Section polar_cartesian.
Local Open Scope R_scope.

(** The Cartesian grid of a polar grid: [X = R*cos(Theta)],
    [Y = R*sin(Theta)]. *)
Lemma polar_to_cartesian (r c : nat) (Rad Th X Y : ndarray R) :
  wf Rad → wf Th → shape Rad = (r, c) → shape Th = (r, c) →
  (Arr Rad * numpy.cos (Arr Th))%np = Some (Arr X) →
  (Arr Rad * numpy.sin (Arr Th))%np = Some (Arr Y) →
  (wf X ∧ wf Y ∧ shape X = (r, c) ∧ shape Y = (r, c)) ∧
  ∀ i j ρ θ, item Rad i j = Some ρ → item Th i j = Some θ →
    item X i j = Some (ρ * cos θ) ∧ item Y i j = Some (ρ * sin θ).
Proof.
  intros wfR wfT shR shT HX HY.
  assert (on_grid r c Rad Th (λ ρ θ, ρ * cos θ)
            (Arr Rad * numpy.cos (Arr Th))%np) as (X' & HX' & ? & ? & HcX)
    by (unfold numpy.cos; on_grid).
  assert (on_grid r c Rad Th (λ ρ θ, ρ * sin θ)
            (Arr Rad * numpy.sin (Arr Th))%np) as (Y' & HY' & ? & ? & HcY)
    by (unfold numpy.sin; on_grid).
  rewrite HX in HX'. rewrite HY in HY'.
  injection HX' as <-. injection HY' as <-.
  split; [done|]. intros i j ρ θ Hρ Hθ. split; [by apply HcX|by apply HcY].
Qed.

(** X4: the two doublet evaluators agree.  On the Cartesian grid
    [X = R*cos(Theta)], [Y = R*sin(Theta)] of a polar grid, and for a
    doublet at the origin, the polar velocities are the polar components
    of the Cartesian ones, [vr = u·cos θ + v·sin θ] and
    [vtheta = −u·sin θ + v·cos θ], and the two stream functions are
    equal, at every grid point with [ρ ≠ 0]. *)
Theorem doublet_cylindrical_agrees_cartesian (κ : R) (r c : nat)
    (Rad Th X Y : ndarray R) :
  wf Rad → wf Th → shape Rad = (r, c) → shape Th = (r, c) →
  (Arr Rad * numpy.cos (Arr Th))%np = Some (Arr X) →
  (Arr Rad * numpy.sin (Arr Th))%np = Some (Arr Y) →
  ∃ U V P VR VT P' : ndarray R,
    get_doublet_info (Sc κ) (Sc 0) (Sc 0) (Arr X) (Arr Y)
    = Some (Arr U, Arr V, Arr P) ∧
    get_doublet_cylindrical_info (Sc κ) (Arr Rad) (Arr Th)
    = Some (Arr VR, Arr VT, Arr P') ∧
    ∀ i j ρ θ, item Rad i j = Some ρ → item Th i j = Some θ → ρ ≠ 0 →
      ∃ u v p : R,
        item U i j = Some u ∧ item V i j = Some v ∧ item P i j = Some p ∧
        item VR i j = Some (u * cos θ + v * sin θ) ∧
        item VT i j = Some (- u * sin θ + v * cos θ) ∧
        item P' i j = Some p.
Proof.
  intros wfR wfT shR shT HX HY.
  destruct (polar_to_cartesian r c Rad Th X Y wfR wfT shR shT HX HY)
    as ((wfX & wfY & shX & shY) & Hxy).
  destruct (get_doublet_info_on_grid r c X Y wfX wfY shX shY κ 0 0)
    as (U & V & P & Heq & _ & Hc).
  destruct (get_doublet_cylindrical_info_on_grid r c Rad Th wfR wfT shR shT κ)
    as (VR & VT & P' & Heq' & HVR & HVT & HP').
  exists U, V, P, VR, VT, P'. split; [exact Heq|]. split; [exact Heq'|].
  intros i j ρ θ Hρ Hθ Hne.
  destruct (Hxy i j ρ θ Hρ Hθ) as [Hx Hy].
  destruct (Hc i j _ _ Hx Hy) as (HU & HV & HP).
  do 3 eexists. split; [exact HU|]. split; [exact HV|]. split; [exact HP|].
  rewrite (on_grid_item r c Rad Th _ _ i j ρ θ HVR Hρ Hθ),
    (on_grid_item r c Rad Th _ _ i j ρ θ HVT Hρ Hθ),
    (on_grid_item r c Rad Th _ _ i j ρ θ HP' Hρ Hθ).
  to_R. pose proof PI_RGT_0. pose proof (sin2_cos2 θ) as Hsc.
  unfold Rsqr in Hsc.
  assert ((ρ * cos θ - 0) * (ρ * cos θ - 0) + (ρ * sin θ - 0) * (ρ * sin θ - 0)
          = ρ * ρ) as ->.
  { transitivity (ρ * ρ * (sin θ * sin θ + cos θ * cos θ)); [ring|].
    rewrite Hsc. ring. }
  repeat split; f_equal.
  - lazymatch goal with
    | |- ?a = _ => transitivity (a * (sin θ * sin θ + cos θ * cos θ))
    end; [rewrite Hsc; ring|field; lra].
  - lazymatch goal with
    | |- ?a = _ => transitivity (a * (sin θ * sin θ + cos θ * cos θ))
    end; [rewrite Hsc; ring|field; lra].
  - field. lra.
Qed.

(** X5: the two uniform-stream evaluators agree at zero angle of attack.
    On the Cartesian grid of a polar grid of shape [(N, N)], the outputs
    of [get_freestream_cylindrical_info] are the polar components of the
    velocity that [get_freestream_info] returns for [alpha = 0], and the
    two stream functions are equal at every grid point. *)
Theorem freestream_cylindrical_agrees_cartesian (U : R) (N : nat)
    (Rad Th X Y : ndarray R) :
  wf Rad → wf Th → shape Rad = (N, N) → shape Th = (N, N) →
  (Arr Rad * numpy.cos (Arr Th))%np = Some (Arr X) →
  (Arr Rad * numpy.sin (Arr Th))%np = Some (Arr Y) →
  ∃ Uc Vc Pc VR VT P' : ndarray R,
    get_freestream_info (Sc U) (Sc 0) (Arr X) (Arr Y) N
    = Some (Arr Uc, Arr Vc, Arr Pc) ∧
    get_freestream_cylindrical_info (Sc U) (Arr Rad) (Arr Th)
    = Some (Arr VR, Arr VT, Arr P') ∧
    ∀ i j ρ θ, item Rad i j = Some ρ → item Th i j = Some θ →
      ∃ u v p : R,
        item Uc i j = Some u ∧ item Vc i j = Some v ∧ item Pc i j = Some p ∧
        item VR i j = Some (u * cos θ + v * sin θ) ∧
        item VT i j = Some (- u * sin θ + v * cos θ) ∧
        item P' i j = Some p.
Proof.
  intros wfR wfT shR shT HX HY.
  destruct (polar_to_cartesian N N Rad Th X Y wfR wfT shR shT HX HY)
    as ((wfX & wfY & shX & shY) & Hxy).
  destruct (freestream_formulas U 0 X Y N wfX wfY shX shY)
    as (Uc & Vc & Pc & Heq & _ & Hc).
  destruct (get_freestream_cylindrical_info_on_grid N N Rad Th wfR wfT shR shT U)
    as (VR & VT & P' & Heq' & HVR & HVT & HP').
  exists Uc, Vc, Pc, VR, VT, P'. split; [exact Heq|]. split; [exact Heq'|].
  intros i j ρ θ Hρ Hθ.
  destruct (Hxy i j ρ θ Hρ Hθ) as [Hx Hy].
  destruct (Hc i j _ _ Hx Hy) as (HU & HV & HP).
  do 3 eexists. split; [exact HU|]. split; [exact HV|]. split; [exact HP|].
  rewrite (on_grid_item N N Rad Th _ _ i j ρ θ HVR Hρ Hθ),
    (on_grid_item N N Rad Th _ _ i j ρ θ HVT Hρ Hθ),
    (on_grid_item N N Rad Th _ _ i j ρ θ HP' Hρ Hθ).
  to_R. rewrite cos_0, sin_0. repeat split; f_equal; ring.
Qed.
End polar_cartesian.

(** ** Division by zero in the polar doublet *)

Section float_division.
Local Open Scope float_scope.

(** A float that compares equal to zero is one of the two zeros. *)
Lemma eqb_zero_inv x : (x =? 0) = true → x = 0 ∨ x = -0.
Proof.
  rewrite FloatAxioms.eqb_spec. change (Prim2SF 0) with (S754_zero false).
  destruct (Prim2SF x) as [s|s| |s m e] eqn:Hx; unfold SFeqb, SFcompare.
  - intros _. by eapply SF_zero_inv.
  - by destruct s.
  - done.
  - by destruct s.
Qed.

(** Any float divided by a zero is an infinity or a NaN. *)
Lemma div_zero_cases f z :
  z = 0 ∨ z = -0 → f / z = nan ∨ f / z = infinity ∨ f / z = neg_infinity.
Proof.
  intros Hz. pose proof (div_spec f z) as Hd.
  assert (∃ s, Prim2SF z = S754_zero s) as [sz Hsz]
    by (destruct Hz as [-> | ->]; eexists; reflexivity).
  rewrite Hsz in Hd. unfold SF64div in Hd.
  destruct (Prim2SF f) as [s|s| |s m e]; simpl in Hd.
  - left. by apply SF_nan_inv.
  - right. by eapply SF_inf_inv.
  - left. by apply SF_nan_inv.
  - right. by eapply SF_inf_inv.
Qed.

Lemma div_zero_inf_or_nan f z : z = 0 ∨ z = -0 → inf_or_nan (f / z) = true.
Proof. by intros [-> | [-> | ->]]%(div_zero_cases f). Qed.

Lemma opp_div_zero_inf_or_nan f z :
  z = 0 ∨ z = -0 → inf_or_nan (- (f / z)) = true.
Proof. by intros [-> | [-> | ->]]%(div_zero_cases f). Qed.

Variable M : Libm.
Variables (r c : nat) (Rad Th : ndarray float).
Hypotheses (wfR : wf Rad) (wfT : wf Th).
Hypotheses (shR : shape Rad = (r, c)) (shT : shape Th = (r, c)).

(** X6: on binary64 numbers, at a grid point whose radius is a zero (of
    either sign), [get_doublet_cylindrical_info] raises nothing and each
    of [vr], [vtheta] and [psi] is an infinity or a NaN there, whatever
    the strength and the angle are. *)
Theorem doublet_cylindrical_at_axis (κ ρ θ : float) (i j : nat) :
  item Rad i j = Some ρ → item Th i j = Some θ → (ρ =? 0) = true →
  let H := float_scalar M in
  ∃ VR VT P : ndarray float, ∃ vr vt p : float,
    get_doublet_cylindrical_info (Sc κ) (Arr Rad) (Arr Th)
    = Some (Arr VR, Arr VT, Arr P) ∧
    item VR i j = Some vr ∧ item VT i j = Some vt ∧ item P i j = Some p ∧
    inf_or_nan vr = true ∧ inf_or_nan vt = true ∧ inf_or_nan p = true.
Proof using wfR wfT shR shT.
  intros Hρ Hθ Hz H. unfold H. clear H.
  destruct (@get_doublet_cylindrical_info_on_grid _ (float_scalar M)
              r c Rad Th wfR wfT shR shT κ)
    as (VR & VT & P & Heq & HVR & HVT & HP).
  exists VR, VT, P. do 3 eexists. split; [exact Heq|].
  split; [exact (on_grid_item r c Rad Th _ _ i j ρ θ HVR Hρ Hθ)|].
  split; [exact (on_grid_item r c Rad Th _ _ i j ρ θ HVT Hρ Hθ)|].
  split; [exact (on_grid_item r c Rad Th _ _ i j ρ θ HP Hρ Hθ)|].
  to_float.
  assert (float_of_Z 2 * float_pi * (ρ * ρ) = 0 ∧
          (float_of_Z 2 * float_pi * ρ = 0 ∨ float_of_Z 2 * float_pi * ρ = -0))
    as [Hsq Hlin].
  { destruct (eqb_zero_inv ρ Hz) as [-> | ->]; split; auto. }
  rewrite Hsq.
  split; [apply opp_div_zero_inf_or_nan; by left|].
  split; [apply opp_div_zero_inf_or_nan; by left|].
  by apply div_zero_inf_or_nan.
Qed.
End float_division.

(** ** The objects: what a method call changes *)

Section objects.
Context {F : Type} `{Scalar F}.

Ltac methods :=
  unfold Source.velocity, Source.stream_function, Vortex.velocity,
    Vortex.stream_function, assign, state.

(** X7: what the methods never touch.  [velocity] leaves [strength], [x],
    [y] and [psi] as they were, and [stream_function] leaves [strength],
    [x], [y], [u] and [v] as they were, whether the call returns or
    raises; for [Source] and for [Vortex], for arguments of any kind. *)
Theorem methods_frame :
  (∀ (self : Source.t) (X Y : value F),
     let after := state (Source.velocity self X Y) in
     Source.strength after = Source.strength self ∧
     Source.x after = Source.x self ∧ Source.y after = Source.y self ∧
     Source.psi after = Source.psi self) ∧
  (∀ (self : Source.t) (X Y : value F),
     let after := state (Source.stream_function self X Y) in
     Source.strength after = Source.strength self ∧
     Source.x after = Source.x self ∧ Source.y after = Source.y self ∧
     Source.u after = Source.u self ∧ Source.v after = Source.v self) ∧
  (∀ (self : Vortex.t) (X Y : value F),
     let after := state (Vortex.velocity self X Y) in
     Vortex.strength after = Vortex.strength self ∧
     Vortex.x after = Vortex.x self ∧ Vortex.y after = Vortex.y self ∧
     Vortex.psi after = Vortex.psi self) ∧
  (∀ (self : Vortex.t) (X Y : value F),
     let after := state (Vortex.stream_function self X Y) in
     Vortex.strength after = Vortex.strength self ∧
     Vortex.x after = Vortex.x self ∧ Vortex.y after = Vortex.y self ∧
     Vortex.u after = Vortex.u self ∧ Vortex.v after = Vortex.v self).
Proof.
  repeat split; methods;
    repeat (lazymatch goal with
            | |- context [match ?e with Some _ => _ | None => _ end] =>
                destruct e
            end; Source_fields; Vortex_fields); reflexivity.
Qed.

(** The calls that are assumed to return are run one after the other. *)
Ltac returned :=
  repeat lazymatch goal with
         | |- match ?e with Some _ => _ | None => _ end = _ → _ =>
             destruct e; Source_fields; Vortex_fields
         | |- Returned _ = Returned _ → _ =>
             intros [= <-]; Source_fields; Vortex_fields
         | |- Raised _ = Returned _ → _ => intros [=]
         end.

(** Every expression is evaluated once; where it comes up again, its value
    is the one found before. *)
Ltac run :=
  repeat (Source_fields; Vortex_fields;
          lazymatch goal with
          | E : ?e = _ |- context [match ?e with Some _ => _ | None => _ end] =>
              rewrite E
          | |- context [match ?e with Some _ => _ | None => _ end] =>
              destruct e eqn:?
          end).

(** X8: the last call wins.  When a method returns on a first grid and on
    a second one, calling it on the second grid after the first leaves
    the object as the call on the second grid alone does: the attributes
    of the first call are overwritten, nothing of them is kept. *)
Theorem velocity_last_call_wins :
  (∀ (self s1 s2 : Source.t) (X1 Y1 X2 Y2 : value F),
     Source.velocity self X1 Y1 = Returned s1 →
     Source.velocity self X2 Y2 = Returned s2 →
     Source.velocity s1 X2 Y2 = Returned s2) ∧
  (∀ (self s1 s2 : Source.t) (X1 Y1 X2 Y2 : value F),
     Source.stream_function self X1 Y1 = Returned s1 →
     Source.stream_function self X2 Y2 = Returned s2 →
     Source.stream_function s1 X2 Y2 = Returned s2) ∧
  (∀ (self s1 s2 : Vortex.t) (X1 Y1 X2 Y2 : value F),
     Vortex.velocity self X1 Y1 = Returned s1 →
     Vortex.velocity self X2 Y2 = Returned s2 →
     Vortex.velocity s1 X2 Y2 = Returned s2) ∧
  (∀ (self s1 s2 : Vortex.t) (X1 Y1 X2 Y2 : value F),
     Vortex.stream_function self X1 Y1 = Returned s1 →
     Vortex.stream_function self X2 Y2 = Returned s2 →
     Vortex.stream_function s1 X2 Y2 = Returned s2).
Proof.
  repeat split; intros [s x y u v psi] s1 s2 X1 Y1 X2 Y2; methods;
    Source_fields; Vortex_fields; returned; reflexivity.
Qed.

(** X9: the two methods may be called in either order, also on two
    different grids: [velocity] then [stream_function] returns with an
    object exactly when [stream_function] then [velocity] returns with
    that object. *)
Theorem methods_commute :
  (∀ (self s' : Source.t) (X1 Y1 X2 Y2 : value F),
     and_then (Source.velocity self X1 Y1)
              (λ self, Source.stream_function self X2 Y2) = Returned s' ↔
     and_then (Source.stream_function self X2 Y2)
              (λ self, Source.velocity self X1 Y1) = Returned s') ∧
  (∀ (self s' : Vortex.t) (X1 Y1 X2 Y2 : value F),
     and_then (Vortex.velocity self X1 Y1)
              (λ self, Vortex.stream_function self X2 Y2) = Returned s' ↔
     and_then (Vortex.stream_function self X2 Y2)
              (λ self, Vortex.velocity self X1 Y1) = Returned s').
Proof.
  split; intros [s x y u v psi] s' X1 Y1 X2 Y2; methods; run; done.
Qed.
End objects.

(** ** Broadcasting: when the evaluators return, and with what shapes *)

Section shapes.
Context {F : Type}.
Implicit Types (A B : ndarray F) (e : option (value F)) (sh : nat * nat).

Lemma bcast_dim_idem n : bcast_dim n n = Some n.
Proof. apply bcast_dim_same. Qed.

Lemma bcast_dim_absorb m n k : bcast_dim m n = Some k → bcast_dim m k = Some k.
Proof. unfold bcast_dim. intros ?. repeat case_decide; simplify_eq; done. Qed.

Lemma bcast_shape_idem sh : bcast_shape sh sh = Some sh.
Proof. destruct sh. unfold bcast_shape. simpl. by rewrite !bcast_dim_same. Qed.

Lemma bcast_shape_sym s1 s2 : bcast_shape s1 s2 = bcast_shape s2 s1.
Proof.
  unfold bcast_shape. by rewrite (bcast_dim_sym s1.1), (bcast_dim_sym s1.2).
Qed.

Lemma bcast_shape_absorb s1 s2 sh :
  bcast_shape s1 s2 = Some sh → bcast_shape s1 sh = Some sh.
Proof.
  unfold bcast_shape. intros Hb.
  destruct (bcast_dim s1.1 s2.1) as [r|] eqn:Hr; [|done].
  destruct (bcast_dim s1.2 s2.2) as [c|] eqn:Hc; [|done].
  simpl in Hb. injection Hb as <-. simpl.
  by rewrite (bcast_dim_absorb _ _ _ Hr), (bcast_dim_absorb _ _ _ Hc).
Qed.

Lemma abin_bcast (g : F → F → F) A B :
  match bcast_shape (shape A) (shape B) with
  | Some sh => ∃ C, abin g A B = Some C ∧ shape C = sh
  | None => abin g A B = None
  end.
Proof.
  unfold bcast_shape, shape at 1 2 3 4. simpl.
  destruct (bcast_dim (nrows A) (nrows B)) as [r|] eqn:Hr; simpl.
  - destruct (bcast_dim (ncols A) (ncols B)) as [c|] eqn:Hc; simpl.
    + by apply abin_shape.
    + apply abin_None. by right.
  - apply abin_None. by left.
Qed.

Lemma shaped_arr A sh : shape A = sh → shaped sh (ret (Arr A)).
Proof. intros <-. by exists A. Qed.

Lemma shaped_un (f : F → F) e sh : shaped sh e → shaped sh (np_un f e).
Proof.
  intros (A & -> & <-). exists (amap f A). split; [done|apply shape_amap].
Qed.

Lemma shaped_sc_l (f : F → F → F) (a : F) e sh :
  shaped sh e → shaped sh (np_bin f (Some (Sc a)) e).
Proof.
  intros (A & -> & <-). exists (amap (f a) A). split; [done|apply shape_amap].
Qed.

Lemma shaped_sc_r (f : F → F → F) (b : F) e sh :
  shaped sh e → shaped sh (np_bin f e (Some (Sc b))).
Proof.
  intros (A & -> & <-). exists (amap (λ a, f a b) A).
  split; [done|apply shape_amap].
Qed.

Lemma shaped_bin (f : F → F → F) e1 e2 s1 s2 sh :
  shaped s1 e1 → shaped s2 e2 → bcast_shape s1 s2 = Some sh →
  shaped sh (np_bin f e1 e2).
Proof.
  intros (A & -> & <-) (B & -> & <-) Hb.
  pose proof (abin_bcast f A B) as Hab. rewrite Hb in Hab.
  destruct Hab as (C & HC & HsC). exists C. simpl. by rewrite HC.
Qed.

(** The [ValueError] of a binary ufunc, and how it comes up through the
    expression around it. *)
Lemma np_bin_bcast_None (f : F → F → F) e1 e2 s1 s2 :
  shaped s1 e1 → shaped s2 e2 → bcast_shape s1 s2 = None →
  np_bin f e1 e2 = None.
Proof.
  intros (A & -> & <-) (B & -> & <-) Hb.
  pose proof (abin_bcast f A B) as Hab. rewrite Hb in Hab.
  simpl. by rewrite Hab.
Qed.

Lemma np_bin_None_l (f : F → F → F) e1 e2 : e1 = None → np_bin f e1 e2 = None.
Proof. by intros ->. Qed.

Lemma np_bin_None_r (f : F → F → F) e1 e2 : e2 = None → np_bin f e1 e2 = None.
Proof. intros ->. by destruct e1. Qed.

Lemma np_un_None (f : F → F) e : e = None → np_un f e = None.
Proof. by intros ->. Qed.

Lemma body3_shaped sh (eu ev ep : option (value F)) :
  shaped sh eu → shaped sh ev → shaped sh ep →
  ∃ U V P : ndarray F,
    np_let eu (λ u, np_let ev (λ v, np_let ep (λ psi, Some (u, v, psi))))
    = Some (Arr U, Arr V, Arr P) ∧
    shape U = sh ∧ shape V = sh ∧ shape P = sh.
Proof.
  intros (U & -> & HU) (V & -> & HV) (P & -> & HP). by exists U, V, P.
Qed.

Lemma np_let_None {B : Type} e (k : value F → option B) :
  e = None → np_let e k = None.
Proof. by intros ->. Qed.
End shapes.

Ltac bcast :=
  first [ eassumption
        | apply bcast_shape_idem
        | rewrite bcast_shape_sym; eassumption
        | eapply bcast_shape_absorb; eassumption
        | eapply bcast_shape_absorb; rewrite bcast_shape_sym; eassumption ].

Ltac shaped :=
  lazymatch goal with
  | |- shaped _ (ret (Arr _)) => eapply shaped_arr; reflexivity
  | |- shaped _ (np_un _ _) => eapply shaped_un; shaped
  | |- shaped _ (np_bin _ _ _) =>
      first [ eapply shaped_sc_l; shaped
            | eapply shaped_sc_r; shaped
            | eapply shaped_bin; [shaped | shaped | bcast] ]
  end.

Ltac raises :=
  first [ solve [eapply np_bin_bcast_None; [shaped | shaped | bcast]]
        | solve [eapply np_un_None; raises]
        | solve [eapply np_bin_None_l; raises]
        | solve [eapply np_bin_None_r; raises] ].

Section broadcast.
Context {F : Type} `{Scalar F}.

(** X10: [get_ss_info], [get_vortex_info] and [get_doublet_info] on two
    arrays [X], [Y] of any shapes.  When the shapes broadcast together
    the call returns three arrays of the broadcast shape; when they do
    not, the call raises. *)
Theorem point_evaluators_broadcast (s x0 y0 : F) (X Y : ndarray F) :
  Forall (λ f : value F → value F → value F → value F → value F
                → option (value F * value F * value F),
    match bcast_shape (shape X) (shape Y) with
    | Some sh =>
        ∃ U V P : ndarray F,
          f (Sc s) (Sc x0) (Sc y0) (Arr X) (Arr Y) = Some (Arr U, Arr V, Arr P) ∧
          shape U = sh ∧ shape V = sh ∧ shape P = sh
    | None => f (Sc s) (Sc x0) (Sc y0) (Arr X) (Arr Y) = None
    end) [get_ss_info; get_vortex_info; get_doublet_info].
Proof.
  destruct (bcast_shape (shape X) (shape Y)) as [sh|] eqn:Hb.
  - repeat constructor.
    + unfold get_ss_info, numpy.arctan2. apply body3_shaped; shaped.
    + unfold get_vortex_info, numpy.log, numpy.sqrt, pos.
      apply body3_shaped; shaped.
    + unfold get_doublet_info. apply body3_shaped; shaped.
  - repeat constructor.
    + unfold get_ss_info. apply np_let_None. raises.
    + unfold get_vortex_info, pos. apply np_let_None. raises.
    + unfold get_doublet_info. apply np_let_None. raises.
Qed.

(** X11: the methods on two arrays [X], [Y] of any shapes, for an object
    with scalar strength and coordinates.  When the shapes broadcast
    together each method returns, having stored arrays of the broadcast
    shape; when they do not, each method raises and leaves the object
    exactly as it was: [velocity] never stores [u] without [v]. *)
Theorem methods_return_or_leave_unchanged (s x0 y0 : F) (u v psi : option (value F))
    (X Y : ndarray F) :
  let source := Source.mk (Sc s) (Sc x0) (Sc y0) u v psi in
  let vortex := Vortex.mk (Sc s) (Sc x0) (Sc y0) u v psi in
  match bcast_shape (shape X) (shape Y) with
  | Some sh =>
      (∃ U V : ndarray F,
         Source.velocity source (Arr X) (Arr Y)
         = Returned (Source.mk (Sc s) (Sc x0) (Sc y0) (Some (Arr U)) (Some (Arr V)) psi) ∧
         shape U = sh ∧ shape V = sh) ∧
      (∃ P : ndarray F,
         Source.stream_function source (Arr X) (Arr Y)
         = Returned (Source.mk (Sc s) (Sc x0) (Sc y0) u v (Some (Arr P))) ∧
         shape P = sh) ∧
      (∃ U V : ndarray F,
         Vortex.velocity vortex (Arr X) (Arr Y)
         = Returned (Vortex.mk (Sc s) (Sc x0) (Sc y0) (Some (Arr U)) (Some (Arr V)) psi) ∧
         shape U = sh ∧ shape V = sh) ∧
      (∃ P : ndarray F,
         Vortex.stream_function vortex (Arr X) (Arr Y)
         = Returned (Vortex.mk (Sc s) (Sc x0) (Sc y0) u v (Some (Arr P))) ∧
         shape P = sh)
  | None =>
      Source.velocity source (Arr X) (Arr Y) = Raised source ∧
      Source.stream_function source (Arr X) (Arr Y) = Raised source ∧
      Vortex.velocity vortex (Arr X) (Arr Y) = Raised vortex ∧
      Vortex.stream_function vortex (Arr X) (Arr Y) = Raised vortex
  end.
Proof.
  intros source vortex. unfold source, vortex. clear source vortex.
  unfold Source.velocity, Source.stream_function, Vortex.velocity,
    Vortex.stream_function, numpy.arctan2, numpy.log, pos.
  Source_fields. Vortex_fields.
  destruct (bcast_shape (shape X) (shape Y)) as [sh|] eqn:Hb.
  - repeat split.
    all: repeat lazymatch goal with
         | |- context [assign ?e _ _ _] =>
             let A := fresh "A" in
             let HA := fresh "HA" in
             assert (shaped sh e) as (A & -> & HA) by shaped;
             unfold assign at 1; Source_fields; Vortex_fields
         end.
    all: by repeat eexists.
  - repeat split.
    all: lazymatch goal with
         | |- assign ?e _ _ _ = _ =>
             assert (e = None) as -> by raises; reflexivity
         end.
Qed.
End broadcast.

(** ** The evaluators act point by point *)

Section elementwise.
Context {F : Type} `{Scalar F}.
Variables (r c : nat) (X Y : ndarray F).
Hypotheses (wfX : wf X) (wfY : wf Y).
Hypotheses (shX : shape X = (r, c)) (shY : shape Y = (r, c)).

(** The two arrays of [get_velocity_infinite_vortices] on a grid. *)
Lemma infinite_vortices_on_grid (Γ x0 x1 : F) (rest : list F) :
  ∃ U V : ndarray F,
    get_velocity_infinite_vortices (Sc Γ) (Arr X) (Arr Y) (x0 :: x1 :: rest)
    = Some (Arr U, Arr V) ∧
    (shape U = (r, c) ∧ shape V = (r, c)) ∧
    ∀ i j x y, item X i j = Some x → item Y i j = Some y →
      item U i j = Some (Γ / (2 * (x1 - x0))
                         * (s_sinh (2 * π / (x1 - x0) * y)
                            / (s_cosh (2 * π / (x1 - x0) * y)
                               - s_cos (2 * π / (x1 - x0) * x))))%sc ∧
      item V i j = Some (- (Γ / (2 * (x1 - x0)))
                         * (s_sin (2 * π / (x1 - x0) * x)
                            / (s_cosh (2 * π / (x1 - x0) * y)
                               - s_cos (2 * π / (x1 - x0) * x))))%sc.
Proof using wfX wfY shX shY.
  unfold get_velocity_infinite_vortices.
  change (getitem (x0 :: x1 :: rest) 1 - getitem (x0 :: x1 :: rest) 0)%np
    with (ret (Sc (x1 - x0)%sc)).
  rewrite np_let_ret.
  change (2 * numpy.pi / Sc (x1 - x0)%sc)%np
    with (ret (Sc (2 * π / (x1 - x0))%sc)).
  rewrite np_let_ret. unfold pos.
  apply body2_on_grid; on_grid.
Qed.

(** X12: the evaluators act point by point.  The element at a grid point
    of each array that [get_ss_info], [get_vortex_info],
    [get_doublet_info] and [get_velocity_infinite_vortices] return is the
    element the same function returns on the grid of that one point, the
    arrays [[[x]]] and [[[y]]] of its two coordinates: no element depends
    on any other grid point. *)
Theorem evaluators_elementwise (s x0 y0 x1 : F) (rest : list F) :
  Forall (λ f : value F → value F → value F → value F → value F
                → option (value F * value F * value F),
    ∃ U V P : ndarray F,
      f (Sc s) (Sc x0) (Sc y0) (Arr X) (Arr Y) = Some (Arr U, Arr V, Arr P) ∧
      ∀ i j x y, item X i j = Some x → item Y i j = Some y →
        ∃ u v p : F,
          f (Sc s) (Sc x0) (Sc y0) (Arr (NDArray 1 [[x]])) (Arr (NDArray 1 [[y]]))
          = Some (Arr (NDArray 1 [[u]]), Arr (NDArray 1 [[v]]),
                  Arr (NDArray 1 [[p]])) ∧
          item U i j = Some u ∧ item V i j = Some v ∧ item P i j = Some p)
    [get_ss_info; get_vortex_info; get_doublet_info] ∧
  ∃ U V : ndarray F,
    get_velocity_infinite_vortices (Sc s) (Arr X) (Arr Y) (x0 :: x1 :: rest)
    = Some (Arr U, Arr V) ∧
    ∀ i j x y, item X i j = Some x → item Y i j = Some y →
      ∃ u v : F,
        get_velocity_infinite_vortices (Sc s) (Arr (NDArray 1 [[x]]))
          (Arr (NDArray 1 [[y]])) (x0 :: x1 :: rest)
        = Some (Arr (NDArray 1 [[u]]), Arr (NDArray 1 [[v]])) ∧
        item U i j = Some u ∧ item V i j = Some v.
Proof using wfX wfY shX shY.
  split; [repeat constructor|].
  - destruct (get_ss_info_on_grid r c X Y wfX wfY shX shY s x0 y0)
      as (U & V & P & Heq & _ & Hc).
    exists U, V, P. split; [exact Heq|]. intros i j x y Hx Hy.
    do 3 eexists. split; [reflexivity|]. exact (Hc i j x y Hx Hy).
  - destruct (vortex_formulas r c X Y wfX wfY shX shY s x0 y0)
      as (U & V & P & P' & Heq & _ & _ & Hc).
    exists U, V, P. split; [exact Heq|]. intros i j x y Hx Hy.
    do 3 eexists. split; [reflexivity|].
    destruct (Hc i j x y Hx Hy) as (HU & HV & HP & _). done.
  - destruct (get_doublet_info_on_grid r c X Y wfX wfY shX shY s x0 y0)
      as (U & V & P & Heq & _ & Hc).
    exists U, V, P. split; [exact Heq|]. intros i j x y Hx Hy.
    do 3 eexists. split; [reflexivity|]. exact (Hc i j x y Hx Hy).
  - destruct (infinite_vortices_on_grid s x0 x1 rest)
      as (U & V & Heq & _ & Hc).
    exists U, V. split; [exact Heq|]. intros i j x y Hx Hy.
    do 2 eexists. split; [reflexivity|]. exact (Hc i j x y Hx Hy).
Qed.
End elementwise.

(** ** The grid, for every number of points *)

Section grid.
Context {F : Type} `{Scalar F}.

(** X13: for every [N] and in every scalar arithmetic, [create_grid]
    returns two well-formed arrays of shape [(N, N)]; [X[i, j]] is sample
    [j] of [linspace(x_start, x_end, N)] and [Y[i, j]] is sample [i] of
    [linspace(y_start, y_end, N)], so all rows of [X] are equal and all
    columns of [Y] are equal; and with the same bounds in both
    directions [Y] is the transpose of [X]. *)
Theorem create_grid_structure (N : nat) (x_start x_end y_start y_end : F) :
  ∃ X Y : ndarray F,
    create_grid N x_start x_end y_start y_end = (Arr X, Arr Y) ∧
    (wf X ∧ wf Y ∧ shape X = (N, N) ∧ shape Y = (N, N)) ∧
    (∀ i j, i < N → j < N →
       item X i j = numpy.linspace x_start x_end N !! j ∧
       item Y i j = numpy.linspace y_start y_end N !! i) ∧
    (∀ i i' j, i < N → i' < N → j < N → item X i j = item X i' j) ∧
    (∀ i j j', i < N → j < N → j' < N → item Y i j = item Y i j') ∧
    (x_start = y_start → x_end = y_end →
     ∀ i j, i < N → j < N → item Y i j = item X j i).
Proof.
  unfold create_grid.
  destruct (meshgrid_facts (numpy.linspace x_start x_end N)
                           (numpy.linspace y_start y_end N))
    as (X & Y & -> & HwX & HwY & HsX & HsY & Hcells).
  rewrite !length_linspace in *.
  exists X, Y. split; [reflexivity|]. split; [done|]. split; [exact Hcells|].
  split; [|split].
  - intros i i' j Hi Hi' Hj.
    destruct (Hcells i j Hi Hj) as [-> _].
    by destruct (Hcells i' j Hi' Hj) as [-> _].
  - intros i j j' Hi Hj Hj'.
    destruct (Hcells i j Hi Hj) as [_ ->].
    by destruct (Hcells i j' Hi Hj') as [_ ->].
  - intros <- <- i j Hi Hj.
    destruct (Hcells i j Hi Hj) as [_ ->].
    by destruct (Hcells j i Hj Hi) as [-> _].
Qed.

Lemma linspace_last (a b : F) (N : nat) :
  1 < N → numpy.linspace a b N !! (N - 1) = Some b.
Proof.
  intros HN. unfold numpy.linspace.
  rewrite (decide_True (P := (1 < N)%nat)) by lia.
  apply list_lookup_insert_eq.
  repeat case_decide; repeat case_match;
    rewrite !length_fmap, length_seq; lia.
Qed.

(** X14: for [N > 1], the last column of [X] holds [x_end] itself and the
    last row of [Y] holds [y_end] itself, in every scalar arithmetic
    (on binary64 numbers: bit for bit, no rounding error reaches the
    upper boundary). *)
Theorem create_grid_endpoints (N : nat) (x_start x_end y_start y_end : F) :
  1 < N →
  ∃ X Y : ndarray F,
    create_grid N x_start x_end y_start y_end = (Arr X, Arr Y) ∧
    ∀ k, k < N →
      item X k (N - 1) = Some x_end ∧ item Y (N - 1) k = Some y_end.
Proof.
  intros HN. unfold create_grid.
  destruct (meshgrid_facts (numpy.linspace x_start x_end N)
                           (numpy.linspace y_start y_end N))
    as (X & Y & -> & _ & _ & _ & _ & Hcells).
  rewrite !length_linspace in *.
  exists X, Y. split; [reflexivity|]. intros k Hk.
  destruct (Hcells k (N - 1)) as [-> _]; [lia..|].
  destruct (Hcells (N - 1) k) as [_ ->]; [lia..|].
  by rewrite !linspace_last.
Qed.
End grid.

(** X15: the degenerate grids.  [create_grid(0, ...)] returns two arrays
    of shape [(0, 0)] with no element, in every scalar arithmetic; over
    the real numbers [create_grid(1, ...)] returns the single point
    [(x_start, y_start)], the end values being ignored. *)
Theorem create_grid_degenerate :
  (∀ (F : Type) (H : Scalar F) (x_start x_end y_start y_end : F),
     create_grid 0 x_start x_end y_start y_end
     = (Arr (NDArray 0 []), Arr (NDArray 0 []))) ∧
  (∀ x_start x_end y_start y_end : R,
     create_grid 1 x_start x_end y_start y_end
     = (Arr (NDArray 1 [[x_start]]), Arr (NDArray 1 [[y_start]]))).
Proof.
  split; [reflexivity|]. intros a b c d.
  unfold create_grid, meshgrid, numpy.linspace. simpl. to_R.
  repeat f_equal; ring.
Qed.

(** ** The infinite row of vortices *)

(** X16: [get_velocity_infinite_vortices] reads the entries [0] and [1] of
    [x_vortices] and nothing else: with fewer than two entries it raises
    ([IndexError]), and any further entries do not change the result. *)
Theorem infinite_vortices_index `{Scalar F} (gamma X Y : value F) :
  (∀ x_vortices, length x_vortices < 2 →
     get_velocity_infinite_vortices gamma X Y x_vortices = None) ∧
  (∀ x0 x1 rest,
     get_velocity_infinite_vortices gamma X Y (x0 :: x1 :: rest)
     = get_velocity_infinite_vortices gamma X Y [x0; x1]).
Proof.
  split.
  - intros xv Hlen. unfold get_velocity_infinite_vortices, getitem.
    destruct xv as [|a [|b l]]; simpl in *; [done|done|lia].
  - reflexivity.
Qed.

Section row_real.
Local Open Scope R_scope.

Lemma sinh_opp x : sinh (- x) = - sinh x.
Proof. unfold sinh. rewrite Ropp_involutive. lra. Qed.

Lemma cosh_opp x : cosh (- x) = cosh x.
Proof. unfold cosh. rewrite Ropp_involutive. lra. Qed.

Variables (r c : nat) (X Y : ndarray R).
Hypotheses (wfX : wf X) (wfY : wf Y).
Hypotheses (shX : shape X = (r, c)) (shY : shape Y = (r, c)).

(** X17: over the real numbers the field of the row of vortices is
    periodic in [x] with the spacing [a = x_vortices[1] − x_vortices[0]]
    as period: on the grid [X + a], [Y] the function returns the same
    [u] and [v], point by point, as on [X], [Y]. *)
Theorem infinite_vortices_periodic (Γ x0 x1 : R) (rest : list R) (X' : ndarray R) :
  x1 ≠ x0 →
  (Arr X + Sc (x1 - x0)%R)%np = Some (Arr X') →
  ∃ U V U' V' : ndarray R,
    get_velocity_infinite_vortices (Sc Γ) (Arr X) (Arr Y) (x0 :: x1 :: rest)
    = Some (Arr U, Arr V) ∧
    get_velocity_infinite_vortices (Sc Γ) (Arr X') (Arr Y) (x0 :: x1 :: rest)
    = Some (Arr U', Arr V') ∧
    ∀ i j, (i < r)%nat → (j < c)%nat →
      is_Some (item U i j) ∧ is_Some (item V i j) ∧
      item U' i j = item U i j ∧ item V' i j = item V i j.
Proof using wfX wfY shX shY.
  intros Hne [= <-].
  assert (wf (amap (λ x, x + (x1 - x0)) X)) as wfX' by (by apply wf_amap).
  assert (shape (amap (λ x, x + (x1 - x0)) X) = (r, c)) as shX'
    by (by rewrite shape_amap).
  destruct (infinite_vortices_on_grid r c X Y wfX wfY shX shY Γ x0 x1 rest)
    as (U & V & Heq & _ & Hc).
  destruct (infinite_vortices_on_grid r c _ Y wfX' wfY shX' shY Γ x0 x1 rest)
    as (U' & V' & Heq' & _ & Hc').
  exists U, V, U', V'. split; [exact Heq|]. split; [exact Heq'|].
  intros i j Hi Hj.
  assert (nrows X = r ∧ ncols X = c) as [HrX HcX] by (by injection shX).
  assert (nrows Y = r ∧ ncols Y = c) as [HrY HcY] by (by injection shY).
  destruct (item_lt X i j wfX) as [x Hx]; [lia..|].
  destruct (item_lt Y i j wfY) as [y Hy]; [lia..|].
  assert (item (amap (λ x, x + (x1 - x0)) X) i j = Some (x + (x1 - x0))) as Hx'
    by (by rewrite item_amap, Hx).
  destruct (Hc i j x y Hx Hy) as [HU HV].
  destruct (Hc' i j _ y Hx' Hy) as [HU' HV'].
  rewrite HU, HV, HU', HV'. to_R.
  assert (2 * PI / (x1 - x0) * (x + (x1 - x0))
          = 2 * PI / (x1 - x0) * x + 2 * PI) as -> by (field; lra).
  rewrite cos_plus, sin_plus, cos_2PI, sin_2PI, !Rmult_0_r, !Rmult_1_r,
    Rminus_0_r, Rplus_0_r.
  done.
Qed.

(** X18: over the real numbers the field of the row of vortices depends
    on [x_vortices] only through the spacing: moving both positions by
    the same amount, or exchanging them, changes neither [u] nor [v] at
    any grid point.  (Where the vortices are is not used: the row always
    has a vortex at [x = 0].) *)
Theorem infinite_vortices_spacing_only (Γ x0 x1 t : R) :
  x1 ≠ x0 →
  ∃ U V U1 V1 U2 V2 : ndarray R,
    get_velocity_infinite_vortices (Sc Γ) (Arr X) (Arr Y) [x0; x1]
    = Some (Arr U, Arr V) ∧
    get_velocity_infinite_vortices (Sc Γ) (Arr X) (Arr Y) [x0 + t; x1 + t]
    = Some (Arr U1, Arr V1) ∧
    get_velocity_infinite_vortices (Sc Γ) (Arr X) (Arr Y) [x1; x0]
    = Some (Arr U2, Arr V2) ∧
    ∀ i j, (i < r)%nat → (j < c)%nat →
      is_Some (item U i j) ∧ is_Some (item V i j) ∧
      item U1 i j = item U i j ∧ item V1 i j = item V i j ∧
      item U2 i j = item U i j ∧ item V2 i j = item V i j.
Proof using wfX wfY shX shY.
  intros Hne.
  destruct (infinite_vortices_on_grid r c X Y wfX wfY shX shY Γ x0 x1 [])
    as (U & V & Heq & _ & Hc).
  destruct (infinite_vortices_on_grid r c X Y wfX wfY shX shY Γ (x0 + t) (x1 + t) [])
    as (U1 & V1 & Heq1 & _ & Hc1).
  destruct (infinite_vortices_on_grid r c X Y wfX wfY shX shY Γ x1 x0 [])
    as (U2 & V2 & Heq2 & _ & Hc2).
  exists U, V, U1, V1, U2, V2. do 3 (split; [assumption|]).
  intros i j Hi Hj.
  assert (nrows X = r ∧ ncols X = c) as [HrX HcX] by (by injection shX).
  assert (nrows Y = r ∧ ncols Y = c) as [HrY HcY] by (by injection shY).
  destruct (item_lt X i j wfX) as [x Hx]; [lia..|].
  destruct (item_lt Y i j wfY) as [y Hy]; [lia..|].
  destruct (Hc i j x y Hx Hy) as [HU HV].
  destruct (Hc1 i j x y Hx Hy) as [HU1 HV1].
  destruct (Hc2 i j x y Hx Hy) as [HU2 HV2].
  rewrite HU, HV, HU1, HV1, HU2, HV2. to_R.
  replace (x1 + t - (x0 + t)) with (x1 - x0) by ring.
  split; [done|]. split; [done|]. split; [done|]. split; [done|].
  assert (x0 - x1 = - (x1 - x0)) as -> by ring.
  assert (x1 - x0 ≠ 0) as Ha by lra.
  revert Ha. generalize (x1 - x0). intros a Ha.
  assert (∀ z, 2 * PI / - a * z = - (2 * PI / a * z)) as Hneg
    by (intros z; field; lra).
  rewrite !Hneg, sinh_opp, cosh_opp, cos_neg, sin_neg.
  assert (Γ / (2 * - a) = - (Γ / (2 * a))) as -> by (field; lra).
  unfold Rdiv. split; f_equal; ring.
Qed.
End row_real.

(** ** The fields over the real numbers *)

Section fields_real.
Local Open Scope R_scope.
Variables (r c : nat) (X Y : ndarray R).
Hypotheses (wfX : wf X) (wfY : wf Y).
Hypotheses (shX : shape X = (r, c)) (shY : shape Y = (r, c)).

(** Every grid point holds a pair of coordinates. *)
Lemma grid_point i j :
  (i < r)%nat → (j < c)%nat →
  ∃ x y, item X i j = Some x ∧ item Y i j = Some y.
Proof using wfX wfY shX shY.
  intros Hi Hj.
  assert (nrows X = r ∧ ncols X = c) as [HrX HcX] by (by injection shX).
  assert (nrows Y = r ∧ ncols Y = c) as [HrY HcY] by (by injection shY).
  destruct (item_lt X i j wfX) as [x Hx]; [lia..|].
  destruct (item_lt Y i j wfY) as [y Hy]; [lia..|].
  by exists x, y.
Qed.

(** X19: superposition.  Over the real numbers the three outputs of
    [get_ss_info], [get_vortex_info] and [get_doublet_info] are linear in
    the strength: at every grid point the outputs for the strength
    [k·s1 + s2] are [k] times those for [s1] plus those for [s2]. *)
Theorem strength_linearity (k s1 s2 x0 y0 : R) :
  Forall (λ f : value R → value R → value R → value R → value R
                → option (value R * value R * value R),
    ∃ U1 V1 P1 U2 V2 P2 U V P : ndarray R,
      f (Sc s1) (Sc x0) (Sc y0) (Arr X) (Arr Y) = Some (Arr U1, Arr V1, Arr P1) ∧
      f (Sc s2) (Sc x0) (Sc y0) (Arr X) (Arr Y) = Some (Arr U2, Arr V2, Arr P2) ∧
      f (Sc (k * s1 + s2)) (Sc x0) (Sc y0) (Arr X) (Arr Y)
      = Some (Arr U, Arr V, Arr P) ∧
      ∀ i j, (i < r)%nat → (j < c)%nat →
        ∃ u1 v1 p1 u2 v2 p2 : R,
          (item U1 i j = Some u1 ∧ item V1 i j = Some v1 ∧ item P1 i j = Some p1) ∧
          (item U2 i j = Some u2 ∧ item V2 i j = Some v2 ∧ item P2 i j = Some p2) ∧
          item U i j = Some (k * u1 + u2) ∧ item V i j = Some (k * v1 + v2) ∧
          item P i j = Some (k * p1 + p2))
    [get_ss_info; get_vortex_info; get_doublet_info].
Proof using wfX wfY shX shY.
  repeat constructor.
  - destruct (get_ss_info_on_grid r c X Y wfX wfY shX shY s1 x0 y0)
      as (U1 & V1 & P1 & Heq1 & _ & Hc1).
    destruct (get_ss_info_on_grid r c X Y wfX wfY shX shY s2 x0 y0)
      as (U2 & V2 & P2 & Heq2 & _ & Hc2).
    destruct (get_ss_info_on_grid r c X Y wfX wfY shX shY (k * s1 + s2) x0 y0)
      as (U & V & P & Heq & _ & Hc).
    exists U1, V1, P1, U2, V2, P2, U, V, P. do 3 (split; [assumption|]).
    intros i j Hi Hj. destruct (grid_point i j Hi Hj) as (x & y & Hx & Hy).
    destruct (Hc1 i j x y Hx Hy) as (HU1 & HV1 & HP1).
    destruct (Hc2 i j x y Hx Hy) as (HU2 & HV2 & HP2).
    destruct (Hc i j x y Hx Hy) as (HU & HV & HP).
    do 6 eexists. split; [done|]. split; [done|].
    rewrite HU, HV, HP. to_R. unfold Rdiv. repeat split; f_equal; ring.
  - destruct (vortex_formulas r c X Y wfX wfY shX shY s1 x0 y0)
      as (U1 & V1 & P1 & P1' & Heq1 & _ & _ & Hc1).
    destruct (vortex_formulas r c X Y wfX wfY shX shY s2 x0 y0)
      as (U2 & V2 & P2 & P2' & Heq2 & _ & _ & Hc2).
    destruct (vortex_formulas r c X Y wfX wfY shX shY (k * s1 + s2) x0 y0)
      as (U & V & P & P' & Heq & _ & _ & Hc).
    exists U1, V1, P1, U2, V2, P2, U, V, P. do 3 (split; [assumption|]).
    intros i j Hi Hj. destruct (grid_point i j Hi Hj) as (x & y & Hx & Hy).
    destruct (Hc1 i j x y Hx Hy) as (HU1 & HV1 & HP1 & _).
    destruct (Hc2 i j x y Hx Hy) as (HU2 & HV2 & HP2 & _).
    destruct (Hc i j x y Hx Hy) as (HU & HV & HP & _).
    do 6 eexists. split; [done|]. split; [done|].
    rewrite HU, HV, HP. to_R. unfold Rdiv. repeat split; f_equal; ring.
  - destruct (get_doublet_info_on_grid r c X Y wfX wfY shX shY s1 x0 y0)
      as (U1 & V1 & P1 & Heq1 & _ & Hc1).
    destruct (get_doublet_info_on_grid r c X Y wfX wfY shX shY s2 x0 y0)
      as (U2 & V2 & P2 & Heq2 & _ & Hc2).
    destruct (get_doublet_info_on_grid r c X Y wfX wfY shX shY (k * s1 + s2) x0 y0)
      as (U & V & P & Heq & _ & Hc).
    exists U1, V1, P1, U2, V2, P2, U, V, P. do 3 (split; [assumption|]).
    intros i j Hi Hj. destruct (grid_point i j Hi Hj) as (x & y & Hx & Hy).
    destruct (Hc1 i j x y Hx Hy) as (HU1 & HV1 & HP1).
    destruct (Hc2 i j x y Hx Hy) as (HU2 & HV2 & HP2).
    destruct (Hc i j x y Hx Hy) as (HU & HV & HP).
    do 6 eexists. split; [done|]. split; [done|].
    rewrite HU, HV, HP. to_R. unfold Rdiv. repeat split; f_equal; ring.
Qed.

(** X20: the velocity of a vortex is the velocity of a source of the same
    strength at the same place, turned by a right angle: the array [u]
    of [get_vortex_info] is the array [v] of [get_ss_info], and its [v]
    is the opposite of the [u] of [get_ss_info] at every grid point. *)
Theorem vortex_is_rotated_source (Γ x0 y0 : R) :
  ∃ Us Vs Ps Uv Vv Pv : ndarray R,
    get_ss_info (Sc Γ) (Sc x0) (Sc y0) (Arr X) (Arr Y)
    = Some (Arr Us, Arr Vs, Arr Ps) ∧
    get_vortex_info (Sc Γ) (Sc x0) (Sc y0) (Arr X) (Arr Y)
    = Some (Arr Uv, Arr Vv, Arr Pv) ∧
    Uv = Vs ∧
    ∀ i j, (i < r)%nat → (j < c)%nat →
      ∃ us vs : R,
        item Us i j = Some us ∧ item Vs i j = Some vs ∧
        item Uv i j = Some vs ∧ item Vv i j = Some (- us).
Proof using wfX wfY shX shY.
  destruct (get_ss_info_on_grid r c X Y wfX wfY shX shY Γ x0 y0)
    as (Us & Vs & Ps & Heq1 & _ & Hc1).
  destruct (vortex_formulas r c X Y wfX wfY shX shY Γ x0 y0)
    as (Uv & Vv & Pv & Pv' & Heq2 & _ & _ & Hc2).
  exists Us, Vs, Ps, Uv, Vv, Pv. split; [exact Heq1|]. split; [exact Heq2|].
  split.
  - revert Heq1 Heq2. unfold get_ss_info, get_vortex_info, pos, np_let.
    destruct (_ * (Arr X - Sc x0) / _)%np as [u|]; [|done].
    cbn [mbind option_bind].
    destruct (_ * (Arr Y - Sc y0) / _)%np as [v|]; [|done].
    cbn [mbind option_bind].
    destruct (_ * numpy.arctan2 _ _)%np as [p|]; [|done].
    cbn [mbind option_bind]. intros [= -> -> ->].
    destruct (_ * (Arr X - Sc x0) / _)%np as [v'|]; [|done].
    cbn [mbind option_bind].
    destruct (_ * numpy.log _)%np as [p'|]; [|done].
    cbn [mbind option_bind]. by intros [= -> _ _].
  - intros i j Hi Hj. destruct (grid_point i j Hi Hj) as (x & y & Hx & Hy).
    destruct (Hc1 i j x y Hx Hy) as (HU1 & HV1 & _).
    destruct (Hc2 i j x y Hx Hy) as (HU2 & HV2 & _).
    do 2 eexists. split; [exact HU1|]. split; [exact HV1|].
    split; [exact HU2|]. rewrite HV2. to_R. f_equal. unfold Rdiv. ring.
Qed.

(** X21: over the real numbers the velocity that [get_ss_info] returns is
    radial, [u·(y − ys) = v·(x − xs)], and away from the source its
    magnitude decays as [1/r]:
    [(u² + v²)·r² = (Λ/(2π))²] with [r² = (x − xs)² + (y − ys)²]. *)
Theorem source_speed (Λ xs ys : R) :
  ∃ U V P : ndarray R,
    get_ss_info (Sc Λ) (Sc xs) (Sc ys) (Arr X) (Arr Y)
    = Some (Arr U, Arr V, Arr P) ∧
    ∀ i j x y, item X i j = Some x → item Y i j = Some y →
      ∃ u v : R,
        item U i j = Some u ∧ item V i j = Some v ∧
        u * (y - ys) = v * (x - xs) ∧
        ((x, y) ≠ (xs, ys) →
         (u * u + v * v) * ((x - xs) * (x - xs) + (y - ys) * (y - ys))
         = (Λ / (2 * PI)) * (Λ / (2 * PI))).
Proof using wfX wfY shX shY.
  destruct (get_ss_info_on_grid r c X Y wfX wfY shX shY Λ xs ys)
    as (U & V & P & Heq & _ & Hc).
  exists U, V, P. split; [exact Heq|]. intros i j x y Hx Hy.
  destruct (Hc i j x y Hx Hy) as (HU & HV & _).
  do 2 eexists. split; [exact HU|]. split; [exact HV|]. to_R.
  split; [unfold Rdiv; ring|]. intros Hne. pose proof PI_RGT_0.
  assert ((x - xs) * (x - xs) + (y - ys) * (y - ys) ≠ 0) as Hr2.
  { intros Hz. apply Hne.
    destruct (Rplus_sqr_eq_0 (x - xs) (y - ys) Hz) as [? ?].
    f_equal; lra. }
  field. split; [lra|exact Hr2].
Qed.
End fields_real.

(** ** The uniform stream: the stream function against the velocity *)

Section flux.
Local Open Scope R_scope.

(** X22: what the stream function of [get_freestream_info] is the stream
    function of.  Between any two grid points the difference of [psi] is
    [u·Δy − (u_inf·sin α)·Δx], the flux of the velocity
    [(u_inf·cos α, u_inf·sin α)]; it is the flux [u·Δy − v·Δx] of the
    returned velocity exactly when [u_inf·sin α·Δx = 0], because the
    returned [v] is zero. *)
Theorem freestream_flux (u_inf alpha : R) (X Y : ndarray R) (N : nat) :
  wf X → wf Y → shape X = (N, N) → shape Y = (N, N) →
  ∃ U V P : ndarray R,
    get_freestream_info (Sc u_inf) (Sc alpha) (Arr X) (Arr Y) N
    = Some (Arr U, Arr V, Arr P) ∧
    ∀ i j i' j' x y x' y',
      item X i j = Some x → item Y i j = Some y →
      item X i' j' = Some x' → item Y i' j' = Some y' →
      ∃ u v p p' : R,
        item U i j = Some u ∧ item V i j = Some v ∧
        item P i j = Some p ∧ item P i' j' = Some p' ∧
        p' - p = u * (y' - y) - u_inf * sin alpha * (x' - x) ∧
        (p' - p = u * (y' - y) - v * (x' - x) ↔
         u_inf * sin alpha * (x' - x) = 0).
Proof.
  intros wfX wfY shX shY.
  destruct (freestream_formulas u_inf alpha X Y N wfX wfY shX shY)
    as (U & V & P & Heq & _ & Hc).
  exists U, V, P. split; [exact Heq|].
  intros i j i' j' x y x' y' Hx Hy Hx' Hy'.
  destruct (Hc i j x y Hx Hy) as (HU & HV & HP).
  destruct (Hc i' j' x' y' Hx' Hy') as (_ & _ & HP').
  do 4 eexists. split; [exact HU|]. split; [exact HV|].
  split; [exact HP|]. split; [exact HP'|]. to_R.
  split; [ring|]. split; intros Hd; lra.
Qed.
End flux.

(** ** The stream functions against the velocities: derivatives *)

Section derivatives.
Local Open Scope R_scope.

Lemma derivable_pt_lim_eq (f : R → R) (x l l' : R) :
  l = l' → derivable_pt_lim f x l → derivable_pt_lim f x l'.
Proof. by intros ->. Qed.

(** [r² = a² + (t − y0)²] along [t], and [(t − x0)² + b²] along [t]. *)
Lemma r2_derivative_y (a y0 y : R) :
  derivable_pt_lim (λ t, a * a + (t - y0) * (t - y0)) y (2 * (y - y0)).
Proof.
  apply (derivable_pt_lim_ext
           (fct_cte (a * a) + (id - fct_cte y0) * (id - fct_cte y0))%F);
    [reflexivity|].
  eapply derivable_pt_lim_eq;
    [|apply derivable_pt_lim_plus;
       [apply derivable_pt_lim_const
       |apply derivable_pt_lim_mult; apply derivable_pt_lim_minus;
          first [apply derivable_pt_lim_id|apply derivable_pt_lim_const]]].
  unfold minus_fct, id, fct_cte. ring.
Qed.

Lemma r2_derivative_x (b x0 x : R) :
  derivable_pt_lim (λ t, (t - x0) * (t - x0) + b * b) x (2 * (x - x0)).
Proof.
  apply (derivable_pt_lim_ext (λ t, b * b + (t - x0) * (t - x0)));
    [intros z; ring|apply r2_derivative_y].
Qed.

Lemma r2_pos (x y x0 y0 : R) :
  (x, y) ≠ (x0, y0) → 0 < (x - x0) * (x - x0) + (y - y0) * (y - y0).
Proof.
  intros Hne.
  assert (0 <= (x - x0) * (x - x0) + (y - y0) * (y - y0)) as Hle.
  { pose proof (Rle_0_sqr (x - x0)). pose proof (Rle_0_sqr (y - y0)).
    unfold Rsqr in *. lra. }
  destruct (Rle_lt_or_eq_dec _ _ Hle) as [Hlt | Heq]; [exact Hlt|].
  exfalso. apply Hne.
  destruct (Rplus_sqr_eq_0 (x - x0) (y - y0) (eq_sym Heq)) as [? ?].
  f_equal; lra.
Qed.

(** [k·ln(q)] and [k·ln(sqrt(q))] along a direction in which [q] has the
    derivative [q']. *)
Lemma ln_derivative (k : R) (q : R → R) (t q' : R) :
  0 < q t → derivable_pt_lim q t q' →
  derivable_pt_lim (λ t, k * ln (q t)) t (k * (q' / q t)).
Proof.
  intros Hq Hq'.
  apply (derivable_pt_lim_ext (mult_real_fct k (comp ln q))); [reflexivity|].
  apply derivable_pt_lim_scal.
  eapply derivable_pt_lim_eq;
    [|eapply derivable_pt_lim_comp; [exact Hq'|apply derivable_pt_lim_ln, Hq]].
  unfold Rdiv. ring.
Qed.

Lemma ln_sqrt_derivative (k : R) (q : R → R) (t q' : R) :
  0 < q t → derivable_pt_lim q t q' →
  derivable_pt_lim (λ t, k * ln (R_sqrt.sqrt (q t))) t (k * (q' / q t) / 2).
Proof.
  intros Hq Hq'.
  apply (derivable_pt_lim_ext
           (mult_real_fct k (comp ln (comp R_sqrt.sqrt q)))); [reflexivity|].
  assert (0 < R_sqrt.sqrt (q t)) as Hs by (by apply sqrt_lt_R0).
  eapply derivable_pt_lim_eq;
    [|eapply derivable_pt_lim_scal, derivable_pt_lim_comp;
        [eapply derivable_pt_lim_comp;
           [exact Hq'|apply derivable_pt_lim_sqrt, Hq]
        |apply derivable_pt_lim_ln, Hs]].
  unfold comp. rewrite <-(sqrt_sqrt (q t)) at 3 by lra.
  field. lra.
Qed.

(** The partial derivatives of the two vortex stream functions, away
    from the vortex: [∂psi/∂y = u/2] and [∂psi/∂x = −v/2] for
    [get_vortex_info], [∂psi/∂y = −u] and [∂psi/∂x = v] for
    [Vortex.stream_function], where [u] and [v] are the velocity
    components, the same from both. *)
Lemma vortex_psi_partials (Γ xv yv x y : R) :
  (x, y) ≠ (xv, yv) →
  let '(u, v, _) := at_point get_vortex_info Γ xv yv x y in
  let '(u', v', _) := Vortex_at_point Γ xv yv x y in
  (u', v') = (u, v) ∧
  derivable_pt_lim (λ t, (at_point get_vortex_info Γ xv yv x t).2) y (u / 2) ∧
  derivable_pt_lim (λ t, (at_point get_vortex_info Γ xv yv t y).2) x (- v / 2) ∧
  derivable_pt_lim (λ t, (Vortex_at_point Γ xv yv x t).2) y (- u) ∧
  derivable_pt_lim (λ t, (Vortex_at_point Γ xv yv t y).2) x v.
Proof.
  intros Hne. pose proof (r2_pos x y xv yv Hne) as Hr2. pose proof PI_RGT_0.
  cbn. split; [reflexivity|]. split; [|split; [|split]].
  - eapply derivable_pt_lim_eq;
      [|apply (ln_sqrt_derivative _ (λ t, (x - xv) * (x - xv) + (t - yv) * (t - yv)));
         [exact Hr2|apply r2_derivative_y]].
    field. lra.
  - eapply derivable_pt_lim_eq;
      [|apply (ln_sqrt_derivative _ (λ t, (t - xv) * (t - xv) + (y - yv) * (y - yv)));
         [exact Hr2|apply r2_derivative_x]].
    field. lra.
  - eapply derivable_pt_lim_eq;
      [|apply (ln_derivative _ (λ t, (x - xv) * (x - xv) + (t - yv) * (t - yv)));
         [exact Hr2|apply r2_derivative_y]].
    field. lra.
  - eapply derivable_pt_lim_eq;
      [|apply (ln_derivative _ (λ t, (t - xv) * (t - xv) + (y - yv) * (y - yv)));
         [exact Hr2|apply r2_derivative_x]].
    field. lra.
Qed.

(** X23: for a strength other than zero, neither vortex stream function
    is a stream function of the vortex velocity, at any point away from
    the vortex.  With [u] and [v] the velocity components (the same from
    [get_vortex_info] and from the [Vortex] methods), the [psi] of
    [get_vortex_info] has the partial derivatives [∂psi/∂y = u/2] and
    [∂psi/∂x = −v/2], and the [psi] of [Vortex.stream_function] has
    [∂psi/∂y = −u] and [∂psi/∂x = v]; for neither of them do
    [∂psi/∂y = u] and [∂psi/∂x = −v] hold together. *)
Theorem vortex_stream_function_derivatives (Γ xv yv x y : R) :
  Γ ≠ 0 → (x, y) ≠ (xv, yv) →
  let '(u, v, _) := at_point get_vortex_info Γ xv yv x y in
  let '(u', v', _) := Vortex_at_point Γ xv yv x y in
  let psi_y := λ t, (at_point get_vortex_info Γ xv yv x t).2 in
  let psi_x := λ t, (at_point get_vortex_info Γ xv yv t y).2 in
  let Vortex_psi_y := λ t, (Vortex_at_point Γ xv yv x t).2 in
  let Vortex_psi_x := λ t, (Vortex_at_point Γ xv yv t y).2 in
  (u', v') = (u, v) ∧
  (derivable_pt_lim psi_y y (u / 2) ∧ derivable_pt_lim psi_x x (- v / 2)) ∧
  (derivable_pt_lim Vortex_psi_y y (- u) ∧ derivable_pt_lim Vortex_psi_x x v) ∧
  ¬ (derivable_pt_lim psi_y y u ∧ derivable_pt_lim psi_x x (- v)) ∧
  ¬ (derivable_pt_lim Vortex_psi_y y u ∧ derivable_pt_lim Vortex_psi_x x (- v)).
Proof.
  intros HΓ Hne. pose proof (r2_pos x y xv yv Hne) as Hr2. pose proof PI_RGT_0.
  pose proof (vortex_psi_partials Γ xv yv x y Hne) as Hd.
  cbn in Hd |- *. destruct Hd as (_ & Hfy & Hfx & Hcy & Hcx).
  set (r2 := (x - xv) * (x - xv) + (y - yv) * (y - yv)) in *.
  assert (∀ k : R, k ≠ 0 → Γ / (2 * PI) * k / r2 ≠ 0) as Hnz.
  { intros k Hk. unfold Rdiv.
    repeat apply Rmult_integral_contrapositive_currified; try done.
    - apply Rinv_neq_0_compat. lra.
    - apply Rinv_neq_0_compat. lra. }
  assert (x - xv ≠ 0 ∨ y - yv ≠ 0) as Hpt.
  { destruct (Req_dec (x - xv) 0) as [Ex|]; [|by left].
    right. intros Ey. apply Hne. f_equal; lra. }
  split; [reflexivity|]. split; [done|]. split; [done|].
  split.
  - intros [Hy Hx].
    pose proof (uniqueness_limite _ _ _ _ Hfy Hy) as Ey.
    pose proof (uniqueness_limite _ _ _ _ Hfx Hx) as Ex.
    destruct Hpt as [Hk | Hk]; apply (Hnz _ Hk).
    + assert (- Γ / (2 * PI) * (x - xv) / r2 = 0) by lra.
      unfold Rdiv in *. lra.
    + lra.
  - intros [Hy Hx].
    pose proof (uniqueness_limite _ _ _ _ Hcy Hy) as Ey.
    pose proof (uniqueness_limite _ _ _ _ Hcx Hx) as Ex.
    destruct Hpt as [Hk | Hk]; apply (Hnz _ Hk).
    + assert (- Γ / (2 * PI) * (x - xv) / r2 = 0) by lra.
      unfold Rdiv in *. lra.
    + lra.
Qed.

Lemma linear_derivative (k c t : R) :
  derivable_pt_lim (λ t, k * (t - c)) t k.
Proof.
  apply (derivable_pt_lim_ext (mult_real_fct k (id - fct_cte c)%F));
    [reflexivity|].
  eapply derivable_pt_lim_eq;
    [|apply derivable_pt_lim_scal, derivable_pt_lim_minus;
       [apply derivable_pt_lim_id|apply derivable_pt_lim_const]].
  ring.
Qed.

(** X24: the [psi] of [get_doublet_info] is the stream function of its
    velocity: away from the doublet, [∂psi/∂y = u] and
    [∂psi/∂x = −v]. *)
Theorem doublet_stream_function_derivatives (κ xd yd x y : R) :
  (x, y) ≠ (xd, yd) →
  let '(u, v, _) := at_point get_doublet_info κ xd yd x y in
  derivable_pt_lim (λ t, (at_point get_doublet_info κ xd yd x t).2) y u ∧
  derivable_pt_lim (λ t, (at_point get_doublet_info κ xd yd t y).2) x (- v).
Proof.
  intros Hne. pose proof (r2_pos x y xd yd Hne) as Hr2. pose proof PI_RGT_0.
  cbn. split.
  - apply (derivable_pt_lim_ext
             ((λ t, (- κ / (2 * PI) * (t - yd))%R)
              / (λ t, ((x - xd) * (x - xd) + (t - yd) * (t - yd))%R))%F);
      [reflexivity|].
    eapply derivable_pt_lim_eq;
      [|apply derivable_pt_lim_div;
         [apply linear_derivative|apply r2_derivative_y|lra]].
    unfold Rsqr. field. lra.
  - apply (derivable_pt_lim_ext
             (fct_cte (- κ / (2 * PI) * (y - yd))%R
              / (λ t, ((t - xd) * (t - xd) + (y - yd) * (y - yd))%R))%F);
      [reflexivity|].
    eapply derivable_pt_lim_eq;
      [|apply derivable_pt_lim_div;
         [apply derivable_pt_lim_const|apply r2_derivative_x|lra]].
    unfold Rsqr, fct_cte. field. lra.
Qed.

(** In the half-plane to the right of the source, [atan2] is the
    arctangent of the quotient. *)
Lemma Ratan2_right (b a : R) : 0 < a → Ratan2 b a = atan (b / a).
Proof. intros Ha. unfold Ratan2. by destruct (Rlt_dec 0 a). Qed.

(** X25: the [psi] of [get_ss_info] is the stream function of its
    velocity in the half-plane to the right of the source ([x > xs],
    away from the branch cut of [atan2]): [∂psi/∂y = u] and
    [∂psi/∂x = −v]. *)
Theorem source_stream_function_derivatives (Λ xs ys x y : R) :
  xs < x →
  let '(u, v, _) := at_point get_ss_info Λ xs ys x y in
  derivable_pt_lim (λ t, (at_point get_ss_info Λ xs ys x t).2) y u ∧
  derivable_pt_lim (λ t, (at_point get_ss_info Λ xs ys t y).2) x (- v).
Proof.
  intros Hx. pose proof PI_RGT_0.
  assert (0 < (x - xs) * (x - xs) + (y - ys) * (y - ys)) as Hr2.
  { apply r2_pos. intros [= ? ?]. lra. }
  cbn. split.
  - apply (derivable_pt_lim_ext
             (mult_real_fct (Λ / (2 * PI))
                (comp atan (λ t, / (x - xs) * (t - ys))))).
    { intros t. unfold mult_real_fct, comp. rewrite Ratan2_right by lra.
      do 2 f_equal. field. lra. }
    eapply derivable_pt_lim_eq;
      [|apply derivable_pt_lim_scal; eapply derivable_pt_lim_comp;
         [apply linear_derivative|apply derivable_pt_lim_atan]].
    field. split; [|lra].
    replace ((x - xs) ^ 2 + (y - ys) ^ 2)
      with ((x - xs) * (x - xs) + (y - ys) * (y - ys)) by ring.
    lra.
  - apply (derivable_pt_lim_locally_ext
             (mult_real_fct (Λ / (2 * PI))
                (comp atan (fct_cte (y - ys)%R / (λ t, (1 * (t - xs))%R))%F))
             _ x xs (x + 1)); [lra| |].
    { intros t Ht. unfold mult_real_fct, comp, div_fct, fct_cte.
      rewrite Ratan2_right by lra. do 2 f_equal. field. lra. }
    eapply derivable_pt_lim_eq;
      [|apply derivable_pt_lim_scal; eapply derivable_pt_lim_comp;
         [apply derivable_pt_lim_div;
            [apply derivable_pt_lim_const|apply linear_derivative|lra]
         |apply derivable_pt_lim_atan]].
    unfold div_fct, fct_cte, Rsqr. field. split; [|lra].
    replace ((x - xs) ^ 2 + (y - ys) ^ 2)
      with ((x - xs) * (x - xs) + (y - ys) * (y - ys)) by ring.
    lra.
Qed.
End derivatives.

(** ** The row of vortices at a vortex *)

Section row_float.
Local Open Scope float_scope.

(** A finite number times [+0] is a zero. *)
Lemma mul_zero_finite f : float_finite f = true → f * 0 = 0 ∨ f * 0 = -0.
Proof.
  unfold float_finite. intros Hf.
  pose proof (mul_spec f 0) as Hm.
  change (Prim2SF 0) with (S754_zero false) in Hm. unfold SF64mul in Hm.
  destruct (Prim2SF f) as [s|s| |s m e]; simpl in Hm; try done.
  - eapply SF_zero_inv, Hm.
  - eapply SF_zero_inv, Hm.
Qed.

(** A product by NaN is NaN. *)
Lemma mul_nan_r f : f * nan = nan.
Proof.
  apply Prim2SF_inj. rewrite mul_spec.
  change (Prim2SF nan) with S754_nan. unfold SF64mul.
  by destruct (Prim2SF f).
Qed.

Lemma zero_div_zero z : z = 0 ∨ z = -0 → z / 0 = nan.
Proof. by intros [-> | ->]. Qed.

Variable M : Libm.
Hypothesis sinh_zero : ∀ z, z = 0 ∨ z = -0 → libm_sinh M z = z.
Hypothesis sin_zero : ∀ z, z = 0 ∨ z = -0 → libm_sin M z = z.
Hypothesis cosh_zero : ∀ z, z = 0 ∨ z = -0 → libm_cosh M z = 1.
Hypothesis cos_zero : ∀ z, z = 0 ∨ z = -0 → libm_cos M z = 1.
Variables (r c : nat) (X Y : ndarray float).
Hypotheses (wfX : wf X) (wfY : wf Y).
Hypotheses (shX : shape X = (r, c)) (shY : shape Y = (r, c)).

(** X26: on binary64 numbers, at a grid point [(0, 0)], where the row has
    a vortex, [get_velocity_infinite_vortices] raises nothing and returns
    NaN for [u] and for [v], provided [2π/a] is finite and the C library
    has [sinh(±0) = ±0], [sin(±0) = ±0], [cosh(±0) = 1] and
    [cos(±0) = 1]. *)
Theorem infinite_vortices_at_vortex (Γ x0 x1 : float) (rest : list float)
    (i j : nat) :
  item X i j = Some 0 → item Y i j = Some 0 →
  float_finite (float_of_Z 2 * float_pi / (x1 - x0)) = true →
  let H := float_scalar M in
  ∃ U V : ndarray float,
    get_velocity_infinite_vortices (Sc Γ) (Arr X) (Arr Y) (x0 :: x1 :: rest)
    = Some (Arr U, Arr V) ∧
    item U i j = Some nan ∧ item V i j = Some nan.
Proof using sinh_zero sin_zero cosh_zero cos_zero wfX wfY shX shY.
  intros Hx Hy Hfin H. unfold H. clear H.
  destruct (@infinite_vortices_on_grid _ (float_scalar M) r c X Y
              wfX wfY shX shY Γ x0 x1 rest) as (U & V & Heq & _ & Hc).
  exists U, V. split; [exact Heq|].
  destruct (Hc i j 0 0 Hx Hy) as [HU HV]. to_float.
  pose proof (mul_zero_finite _ Hfin) as Hz.
  rewrite (sinh_zero _ Hz) in HU. rewrite (sin_zero _ Hz) in HV.
  rewrite (cosh_zero _ Hz), (cos_zero _ Hz) in HU, HV.
  change (1 - 1) with 0 in HU, HV.
  rewrite (zero_div_zero _ Hz), mul_nan_r in HU, HV. done.
Qed.
End row_float.

(** ** The further theorems at concrete inputs *)

Section more_instances.
Local Open Scope R_scope.

Lemma wf_Rad2 : wf Rad2.
Proof. by repeat constructor. Defined.

Lemma wf_Theta2 : wf Theta2.
Proof. by repeat constructor. Defined.

Lemma freestream_cylindrical_formulas_witness :
  (wf Rad2 ∧ wf Theta2 ∧ shape Rad2 = (2, 2)%nat ∧ shape Theta2 = (2, 2)%nat) ∧
  ∃ VR VT P : ndarray R,
    get_freestream_cylindrical_info (Sc 3) (Arr Rad2) (Arr Theta2)
    = Some (Arr VR, Arr VT, Arr P) ∧
    item P 1 1 = Some (3 * 2 * sin 1).
Proof.
  split; [by repeat split; try apply wf_Rad2; try apply wf_Theta2|].
  destruct (freestream_cylindrical_formulas 2 2 Rad2 Theta2 wf_Rad2 wf_Theta2
              eq_refl eq_refl 3) as (VR & VT & P & Heq & _ & Hc).
  exists VR, VT, P. split; [exact Heq|].
  exact (proj2 (proj2 (Hc 1%nat 1%nat 2 1 eq_refl eq_refl))).
Defined.

Lemma doublet_cylindrical_formulas_witness :
  (wf Rad2 ∧ wf Theta2 ∧ shape Rad2 = (2, 2)%nat ∧ shape Theta2 = (2, 2)%nat) ∧
  ∃ VR VT P : ndarray R,
    get_doublet_cylindrical_info (Sc 3) (Arr Rad2) (Arr Theta2)
    = Some (Arr VR, Arr VT, Arr P) ∧
    item P 1 1 = Some (- (3) * sin 1 / (2 * PI * 2)).
Proof.
  split; [by repeat split; try apply wf_Rad2; try apply wf_Theta2|].
  destruct (doublet_cylindrical_formulas 2 2 Rad2 Theta2 wf_Rad2 wf_Theta2
              eq_refl eq_refl 3) as (VR & VT & P & Heq & _ & Hc).
  exists VR, VT, P. split; [exact Heq|].
  exact (proj2 (proj2 (Hc 1%nat 1%nat 2 1 eq_refl eq_refl))).
Defined.

Lemma cylinder_surface_witness :
  (wf Rad2 ∧ wf Theta2 ∧ shape Rad2 = (2, 2)%nat ∧ shape Theta2 = (2, 2)%nat ∧
   1 ≠ 0) ∧
  ∃ VR1 VT1 P1 VR2 VT2 P2 VR P : ndarray R,
    get_freestream_cylindrical_info (Sc 3) (Arr Rad2) (Arr Theta2)
    = Some (Arr VR1, Arr VT1, Arr P1) ∧
    get_doublet_cylindrical_info (Sc (2 * PI * 3 * (1 * 1))) (Arr Rad2) (Arr Theta2)
    = Some (Arr VR2, Arr VT2, Arr P2) ∧
    (Arr VR1 + Arr VR2)%np = Some (Arr VR) ∧
    (Arr P1 + Arr P2)%np = Some (Arr P) ∧
    item VR 1 0 = Some 0 ∧ item P 1 0 = Some 0.
Proof.
  assert (1 ≠ 0) as H1 by lra.
  split; [by repeat split; try apply wf_Rad2; try apply wf_Theta2|].
  destruct (cylinder_surface 3 1 2 2 Rad2 Theta2 wf_Rad2 wf_Theta2
              eq_refl eq_refl H1)
    as (VR1 & VT1 & P1 & VR2 & VT2 & P2 & VR & VT & P
        & Heq1 & Heq2 & HVR & HVT & HP & Hc).
  exists VR1, VT1, P1, VR2, VT2, P2, VR, P.
  do 4 (split; [assumption|]).
  destruct (Hc 1%nat 0%nat 1 eq_refl eq_refl) as (? & ? & _). by split.
Defined.

Lemma doublet_cylindrical_agrees_cartesian_witness :
  let X := NDArray 2 [[1 * cos 0; 2 * cos 0]; [1 * cos 1; 2 * cos 1]] in
  let Y := NDArray 2 [[1 * sin 0; 2 * sin 0]; [1 * sin 1; 2 * sin 1]] in
  (wf Rad2 ∧ wf Theta2 ∧ shape Rad2 = (2, 2)%nat ∧ shape Theta2 = (2, 2)%nat ∧
   (Arr Rad2 * numpy.cos (Arr Theta2))%np = Some (Arr X) ∧
   (Arr Rad2 * numpy.sin (Arr Theta2))%np = Some (Arr Y) ∧ 2 ≠ 0) ∧
  ∃ U V P VR VT P' : ndarray R, ∃ p : R,
    get_doublet_info (Sc 3) (Sc 0) (Sc 0) (Arr X) (Arr Y)
    = Some (Arr U, Arr V, Arr P) ∧
    get_doublet_cylindrical_info (Sc 3) (Arr Rad2) (Arr Theta2)
    = Some (Arr VR, Arr VT, Arr P') ∧
    item P 1 1 = Some p ∧ item P' 1 1 = Some p.
Proof.
  intros X Y. assert (2 ≠ 0) as H2 by lra.
  split; [by repeat split; try apply wf_Rad2; try apply wf_Theta2|].
  destruct (doublet_cylindrical_agrees_cartesian 3 2 2 Rad2 Theta2 X Y
              wf_Rad2 wf_Theta2 eq_refl eq_refl eq_refl eq_refl)
    as (U & V & P & VR & VT & P' & Heq & Heq' & Hc).
  destruct (Hc 1%nat 1%nat 2 1 eq_refl eq_refl H2)
    as (u & v & p & _ & _ & HP & _ & _ & HP').
  exists U, V, P, VR, VT, P', p. done.
Defined.

Lemma freestream_cylindrical_agrees_cartesian_witness :
  let X := NDArray 2 [[1 * cos 0; 2 * cos 0]; [1 * cos 1; 2 * cos 1]] in
  let Y := NDArray 2 [[1 * sin 0; 2 * sin 0]; [1 * sin 1; 2 * sin 1]] in
  (wf Rad2 ∧ wf Theta2 ∧ shape Rad2 = (2, 2)%nat ∧ shape Theta2 = (2, 2)%nat ∧
   (Arr Rad2 * numpy.cos (Arr Theta2))%np = Some (Arr X) ∧
   (Arr Rad2 * numpy.sin (Arr Theta2))%np = Some (Arr Y)) ∧
  ∃ Uc Vc Pc VR VT P' : ndarray R, ∃ p : R,
    get_freestream_info (Sc 3) (Sc 0) (Arr X) (Arr Y) 2
    = Some (Arr Uc, Arr Vc, Arr Pc) ∧
    get_freestream_cylindrical_info (Sc 3) (Arr Rad2) (Arr Theta2)
    = Some (Arr VR, Arr VT, Arr P') ∧
    item Pc 1 1 = Some p ∧ item P' 1 1 = Some p.
Proof.
  intros X Y.
  split; [by repeat split; try apply wf_Rad2; try apply wf_Theta2|].
  destruct (freestream_cylindrical_agrees_cartesian 3 2 Rad2 Theta2 X Y
              wf_Rad2 wf_Theta2 eq_refl eq_refl eq_refl eq_refl)
    as (Uc & Vc & Pc & VR & VT & P' & Heq & Heq' & Hc).
  destruct (Hc 1%nat 1%nat 2 1 eq_refl eq_refl)
    as (u & v & p & _ & _ & HP & _ & _ & HP').
  exists Uc, Vc, Pc, VR, VT, P', p. done.
Defined.
End more_instances.

Section field_instances.
Local Open Scope R_scope.

Lemma evaluators_elementwise_witness :
  (wf X2 ∧ wf Y2 ∧ shape X2 = (2, 2)%nat ∧ shape Y2 = (2, 2)%nat) ∧
  ∃ U V : ndarray R, ∃ u v : R,
    get_velocity_infinite_vortices (Sc 1) (Arr X2) (Arr Y2) [0; 1; 2]
    = Some (Arr U, Arr V) ∧
    get_velocity_infinite_vortices (Sc 1) (Arr (NDArray 1 [[1]]))
      (Arr (NDArray 1 [[1]])) [0; 1; 2]
    = Some (Arr (NDArray 1 [[u]]), Arr (NDArray 1 [[v]])) ∧
    item U 1 1 = Some u ∧ item V 1 1 = Some v.
Proof.
  split; [by repeat split; try apply wf_X2; try apply wf_Y2|].
  destruct (proj2 (evaluators_elementwise 2 2 X2 Y2 wf_X2 wf_Y2 eq_refl eq_refl
                     1 0 0 1 [2]))
    as (U & V & Heq & Hc).
  destruct (Hc 1%nat 1%nat 1 1 eq_refl eq_refl) as (u & v & Hs & HU & HV).
  by exists U, V, u, v.
Defined.

Lemma create_grid_endpoints_witness :
  (1 < 2)%nat ∧
  ∃ X Y : ndarray R,
    create_grid 2 0 1 0 1 = (Arr X, Arr Y) ∧
    item X 0 1 = Some 1 ∧ item Y 1 0 = Some 1.
Proof.
  assert (1 < 2)%nat as H2 by lia.
  split; [exact H2|].
  destruct (create_grid_endpoints 2 0 1 0 1 H2) as (X & Y & Heq & Hc).
  exists X, Y. split; [exact Heq|]. apply (Hc 0%nat). lia.
Defined.

Lemma infinite_vortices_periodic_witness :
  let X' := NDArray 2 [[0 + (1 - 0); 1 + (1 - 0)]; [0 + (1 - 0); 1 + (1 - 0)]] in
  (wf X2 ∧ wf Y2 ∧ shape X2 = (2, 2)%nat ∧ shape Y2 = (2, 2)%nat ∧ 1 ≠ 0 ∧
   (Arr X2 + Sc (1 - 0)%R)%np = Some (Arr X')) ∧
  ∃ U V U' V' : ndarray R,
    get_velocity_infinite_vortices (Sc 1) (Arr X2) (Arr Y2) [0; 1]
    = Some (Arr U, Arr V) ∧
    get_velocity_infinite_vortices (Sc 1) (Arr X') (Arr Y2) [0; 1]
    = Some (Arr U', Arr V') ∧
    item U' 1 1 = item U 1 1 ∧ item V' 1 1 = item V 1 1.
Proof.
  intros X'. assert (1 ≠ 0) as H1 by lra.
  split; [by repeat split; try apply wf_X2; try apply wf_Y2|].
  destruct (infinite_vortices_periodic 2 2 X2 Y2 wf_X2 wf_Y2 eq_refl eq_refl
              1 0 1 [] X' H1 eq_refl)
    as (U & V & U' & V' & Heq & Heq' & Hc).
  exists U, V, U', V'. split; [exact Heq|]. split; [exact Heq'|].
  destruct (Hc 1%nat 1%nat) as (_ & _ & ? & ?); [lia..|]. by split.
Defined.

Lemma infinite_vortices_spacing_only_witness :
  (wf X2 ∧ wf Y2 ∧ shape X2 = (2, 2)%nat ∧ shape Y2 = (2, 2)%nat ∧ 1 ≠ 0) ∧
  ∃ U V U1 V1 U2 V2 : ndarray R,
    get_velocity_infinite_vortices (Sc 1) (Arr X2) (Arr Y2) [0; 1]
    = Some (Arr U, Arr V) ∧
    get_velocity_infinite_vortices (Sc 1) (Arr X2) (Arr Y2) [0 + 5; 1 + 5]
    = Some (Arr U1, Arr V1) ∧
    get_velocity_infinite_vortices (Sc 1) (Arr X2) (Arr Y2) [1; 0]
    = Some (Arr U2, Arr V2) ∧
    item U1 1 1 = item U 1 1 ∧ item U2 1 1 = item U 1 1.
Proof.
  assert (1 ≠ 0) as H1 by lra.
  split; [by repeat split; try apply wf_X2; try apply wf_Y2|].
  destruct (infinite_vortices_spacing_only 2 2 X2 Y2 wf_X2 wf_Y2 eq_refl eq_refl
              1 0 1 5 H1)
    as (U & V & U1 & V1 & U2 & V2 & Heq & Heq1 & Heq2 & Hc).
  exists U, V, U1, V1, U2, V2. do 3 (split; [assumption|]).
  destruct (Hc 1%nat 1%nat) as (_ & _ & ? & _ & ? & _); [lia..|]. by split.
Defined.

Lemma strength_linearity_witness :
  (wf X2 ∧ wf Y2 ∧ shape X2 = (2, 2)%nat ∧ shape Y2 = (2, 2)%nat) ∧
  ∃ U1 V1 P1 U2 V2 P2 U V P : ndarray R, ∃ u1 u2 : R,
    get_doublet_info (Sc 1) (Sc 0) (Sc 0) (Arr X2) (Arr Y2)
    = Some (Arr U1, Arr V1, Arr P1) ∧
    get_doublet_info (Sc 5) (Sc 0) (Sc 0) (Arr X2) (Arr Y2)
    = Some (Arr U2, Arr V2, Arr P2) ∧
    get_doublet_info (Sc (3 * 1 + 5)) (Sc 0) (Sc 0) (Arr X2) (Arr Y2)
    = Some (Arr U, Arr V, Arr P) ∧
    item U1 1 1 = Some u1 ∧ item U2 1 1 = Some u2 ∧
    item U 1 1 = Some (3 * u1 + u2).
Proof.
  split; [by repeat split; try apply wf_X2; try apply wf_Y2|].
  pose proof (strength_linearity 2 2 X2 Y2 wf_X2 wf_Y2 eq_refl eq_refl 3 1 5 0 0)
    as Hall.
  apply Forall_cons_1, proj2, Forall_cons_1, proj2, Forall_cons_1, proj1 in Hall.
  destruct Hall as (U1 & V1 & P1 & U2 & V2 & P2 & U & V & P
                    & Heq1 & Heq2 & Heq & Hc).
  destruct (Hc 1%nat 1%nat) as (u1 & v1 & p1 & u2 & v2 & p2
                                & (HU1 & _) & (HU2 & _) & HU & _); [lia..|].
  by exists U1, V1, P1, U2, V2, P2, U, V, P, u1, u2.
Defined.

Lemma vortex_is_rotated_source_witness :
  (wf X2 ∧ wf Y2 ∧ shape X2 = (2, 2)%nat ∧ shape Y2 = (2, 2)%nat) ∧
  ∃ Us Vs Ps Uv Vv Pv : ndarray R,
    get_ss_info (Sc 1) (Sc 0) (Sc 0) (Arr X2) (Arr Y2)
    = Some (Arr Us, Arr Vs, Arr Ps) ∧
    get_vortex_info (Sc 1) (Sc 0) (Sc 0) (Arr X2) (Arr Y2)
    = Some (Arr Uv, Arr Vv, Arr Pv) ∧
    Uv = Vs.
Proof.
  split; [by repeat split; try apply wf_X2; try apply wf_Y2|].
  destruct (vortex_is_rotated_source 2 2 X2 Y2 wf_X2 wf_Y2 eq_refl eq_refl 1 0 0)
    as (Us & Vs & Ps & Uv & Vv & Pv & Heq1 & Heq2 & HUV & _).
  by exists Us, Vs, Ps, Uv, Vv, Pv.
Defined.

Lemma source_speed_witness :
  (wf X2 ∧ wf Y2 ∧ shape X2 = (2, 2)%nat ∧ shape Y2 = (2, 2)%nat) ∧
  ∃ U V P : ndarray R, ∃ u v : R,
    get_ss_info (Sc 1) (Sc 0) (Sc 0) (Arr X2) (Arr Y2)
    = Some (Arr U, Arr V, Arr P) ∧
    item U 1 1 = Some u ∧ item V 1 1 = Some v ∧
    u * (1 - 0) = v * (1 - 0).
Proof.
  split; [by repeat split; try apply wf_X2; try apply wf_Y2|].
  destruct (source_speed 2 2 X2 Y2 wf_X2 wf_Y2 eq_refl eq_refl 1 0 0)
    as (U & V & P & Heq & Hc).
  destruct (Hc 1%nat 1%nat 1 1 eq_refl eq_refl) as (u & v & HU & HV & Hrad & _).
  by exists U, V, P, u, v.
Defined.

Lemma freestream_flux_witness :
  (wf X2 ∧ wf Y2 ∧ shape X2 = (2, 2)%nat ∧ shape Y2 = (2, 2)%nat) ∧
  ∃ U V P : ndarray R, ∃ u p p' : R,
    get_freestream_info (Sc 3) (Sc 1) (Arr X2) (Arr Y2) 2
    = Some (Arr U, Arr V, Arr P) ∧
    item U 0 0 = Some u ∧ item P 0 0 = Some p ∧ item P 1 1 = Some p' ∧
    p' - p = u * (1 - 0) - 3 * sin 1 * (1 - 0).
Proof.
  split; [by repeat split; try apply wf_X2; try apply wf_Y2|].
  destruct (freestream_flux 3 1 X2 Y2 2 wf_X2 wf_Y2 eq_refl eq_refl)
    as (U & V & P & Heq & Hc).
  destruct (Hc 0%nat 0%nat 1%nat 1%nat 0 0 1 1 eq_refl eq_refl eq_refl eq_refl)
    as (u & v & p & p' & HU & _ & HP & HP' & Hflux & _).
  by exists U, V, P, u, p, p'.
Defined.

Lemma vortex_stream_function_derivatives_witness :
  (1 ≠ 0 ∧ (1, 0) ≠ (0, 0)) ∧
  ¬ (derivable_pt_lim (λ t, (at_point get_vortex_info 1 0 0 1 t).2) 0
       (at_point get_vortex_info 1 0 0 1 0).1.1 ∧
     derivable_pt_lim (λ t, (at_point get_vortex_info 1 0 0 t 0).2) 1
       (- (at_point get_vortex_info 1 0 0 1 0).1.2)) ∧
  ¬ (derivable_pt_lim (λ t, (Vortex_at_point 1 0 0 1 t).2) 0
       (at_point get_vortex_info 1 0 0 1 0).1.1 ∧
     derivable_pt_lim (λ t, (Vortex_at_point 1 0 0 t 0).2) 1
       (- (at_point get_vortex_info 1 0 0 1 0).1.2)).
Proof.
  assert (1 ≠ 0) as H1 by lra.
  assert ((1, 0) ≠ (0, 0)) as Hne by (intros [= ?]; lra).
  split; [by split|].
  exact (proj2 (proj2 (proj2
           (vortex_stream_function_derivatives 1 0 0 1 0 H1 Hne)))).
Defined.

Lemma doublet_stream_function_derivatives_witness :
  (1, 0) ≠ (0, 0) ∧
  let '(u, v, _) := at_point get_doublet_info 1 0 0 1 0 in
  derivable_pt_lim (λ t, (at_point get_doublet_info 1 0 0 1 t).2) 0 u ∧
  derivable_pt_lim (λ t, (at_point get_doublet_info 1 0 0 t 0).2) 1 (- v).
Proof.
  assert ((1, 0) ≠ (0, 0)) as Hne by (intros [= ?]; lra).
  split; [exact Hne|]. exact (doublet_stream_function_derivatives 1 0 0 1 0 Hne).
Defined.

Lemma source_stream_function_derivatives_witness :
  0 < 1 ∧
  let '(u, v, _) := at_point get_ss_info 1 0 0 1 0 in
  derivable_pt_lim (λ t, (at_point get_ss_info 1 0 0 1 t).2) 0 u ∧
  derivable_pt_lim (λ t, (at_point get_ss_info 1 0 0 t 0).2) 1 (- v).
Proof.
  assert (0 < 1) as H1 by lra.
  split; [exact H1|]. exact (source_stream_function_derivatives 1 0 0 1 0 H1).
Defined.
End field_instances.

Lemma doublet_cylindrical_at_axis_witness :
  let H := float_scalar libm_special_values in
  let Rad := NDArray 2 [[0; 1]]%float in
  let Th := NDArray 2 [[0; 0]]%float in
  (wf Rad ∧ wf Th ∧ item Rad 0 0 = Some 0%float ∧ item Th 0 0 = Some 0%float ∧
   (0 =? 0)%float = true) ∧
  ∃ VR VT P : ndarray float, ∃ vr vt p : float,
    get_doublet_cylindrical_info (Sc 1%float) (Arr Rad) (Arr Th)
    = Some (Arr VR, Arr VT, Arr P) ∧
    item VR 0 0 = Some vr ∧ item VT 0 0 = Some vt ∧ item P 0 0 = Some p ∧
    inf_or_nan vr = true ∧ inf_or_nan vt = true ∧ inf_or_nan p = true.
Proof.
  intros H Rad Th.
  assert (wf Rad) as wfR by (by repeat constructor).
  assert (wf Th) as wfT by (by repeat constructor).
  split; [by repeat split|].
  exact (doublet_cylindrical_at_axis libm_special_values 1 2 Rad Th wfR wfT
           eq_refl eq_refl 1%float 0%float 0%float 0 0 eq_refl eq_refl eq_refl).
Defined.

Lemma infinite_vortices_at_vortex_witness :
  let H := float_scalar libm_special_values in
  let X := NDArray 2 [[0; 1]]%float in
  let Y := NDArray 2 [[0; 0]]%float in
  (wf X ∧ wf Y ∧ item X 0 0 = Some 0%float ∧ item Y 0 0 = Some 0%float ∧
   float_finite (float_of_Z 2 * float_pi / (1 - 0))%float = true ∧
   libm_sinh libm_special_values 0 = 0%float ∧
   libm_cosh libm_special_values (-0) = 1%float) ∧
  ∃ U V : ndarray float,
    get_velocity_infinite_vortices (Sc 1%float) (Arr X) (Arr Y) [0; 1]%float
    = Some (Arr U, Arr V) ∧
    item U 0 0 = Some nan ∧ item V 0 0 = Some nan.
Proof.
  intros H X Y.
  assert (wf X) as wfX by (by repeat constructor).
  assert (wf Y) as wfY by (by repeat constructor).
  split; [by repeat split|].
  refine (infinite_vortices_at_vortex libm_special_values _ _ _ _ 1 2 X Y wfX wfY
            eq_refl eq_refl 1%float 0%float 1%float [] 0 0 eq_refl eq_refl eq_refl);
    by intros z [-> | ->].
Defined.
